(** * Hash analyzer: the detection engine of [backend/src/detector.ts] and the
    string primitives of [backend/src/utils.ts], as a shallow embedding.

    Conventions of the embedding.
    - A JavaScript string is the list of its UTF-16 code units ([jsstring]);
      [js "..."] reads an ASCII literal.  Property names, charset tags and
      messages, which the code only compares with or builds from literals,
      are Rocq strings.
    - A JavaScript number that holds a length, a count or a character code is
      an integer ([Z], [N]); a number that holds a score, a probability or an
      entropy is a real number ([R]): arithmetic is exact, the rounding of
      IEEE doubles is not modelled.
    - [string | null] is [option jsstring]; a thrown exception is the [Throw]
      outcome of a [completion]; [try]/[catch] is [try_catch].
    - Template strings pushed as evidence are kept as structured values
      ([Reason]) holding the interpolated data; their rendering as text is
      not modelled.
    - [RegExp] (the engine run on a descriptor's pattern) and
      [decodeURIComponent] are parameters of the detector;
      [Buffer.from(_, 'base64' | 'hex')] and [toString('utf-8')] follow
      Node's documented behaviour.
    - Logging ([console.log] and the like) is left out. *)

From Stdlib Require Import NArith ZArith List String Ascii Bool.
From Stdlib Require Import Reals Lra Lia Sorted Permutation.
From Stdlib Require Floats.
Import ListNotations.

Set Implicit Arguments.

(* ------------------------------------------------------------------ *)
(** * The JavaScript runtime: strings, buffers, sorting *)
(* ------------------------------------------------------------------ *)

Module JS.

Open Scope N_scope.

(** A string, as the sequence of its UTF-16 code units. *)
Definition jsstring := list N.

(** An ASCII literal as a JavaScript string. *)
Definition js (s : string) : jsstring :=
  map N_of_ascii (list_ascii_of_string s).

(** [ToBoolean] on a string: only the empty string is falsy. *)
Definition truthy (s : jsstring) : bool :=
  match s with [] => false | _ :: _ => true end.

(** [ToBoolean] on a [string | null] value. *)
Definition truthyOpt (o : option jsstring) : bool :=
  match o with Some s => truthy s | None => false end.

(** [ToBoolean] on a literal kept as a Rocq string. *)
Definition truthyText (s : string) : bool :=
  match s with EmptyString => false | String _ _ => true end.

(** [s.length], in code units. *)
Definition strlen (s : jsstring) : Z := Z.of_nat (List.length s).

(** [s.startsWith(p)]. *)
Fixpoint startsWith (s p : jsstring) : bool :=
  match p with
  | [] => true
  | c :: p' =>
      match s with
      | [] => false
      | d :: s' => (c =? d) && startsWith s' p'
      end
  end.

(** [s.endsWith(p)]. *)
Definition endsWith (s p : jsstring) : bool :=
  startsWith (rev s) (rev p).

Definition inRange (lo hi c : N) : bool := (lo <=? c) && (c <=? hi).

Definition isHighSurrogate (c : N) : bool := inRange 0xD800 0xDBFF c.
Definition isLowSurrogate (c : N) : bool := inRange 0xDC00 0xDFFF c.

(** The string iterator ([for (const char of str)], [new Set(str)]): one
    element per code point, a well-formed surrogate pair being one element. *)
Fixpoint codePoints (s : jsstring) : list N :=
  match s with
  | [] => []
  | c :: t =>
      match t with
      | d :: t' =>
          if isHighSurrogate c && isLowSurrogate d
          then (0x10000 + (c - 0xD800) * 0x400 + (d - 0xDC00)) :: codePoints t'
          else c :: codePoints t
      | [] => [c]
      end
  end.

(** A code point as UTF-16 code units. *)
Definition utf16 (cp : N) : jsstring :=
  if cp <? 0x10000 then [cp]
  else [0xD800 + (cp - 0x10000) / 0x400; 0xDC00 + (cp - 0x10000) mod 0x400].

(** ** [Buffer.from(str, 'hex')]: pairs of hexadecimal digits, truncated at
    the first pair that is not one (and at a trailing single digit). *)
Definition unhex (c : N) : option N :=
  if inRange 48 57 c then Some (c - 48)
  else if inRange 97 102 c then Some (c - 87)
  else if inRange 65 70 c then Some (c - 55)
  else None.

Fixpoint Buffer_from_hex (s : jsstring) : list N :=
  match s with
  | a :: b :: r =>
      match unhex a, unhex b with
      | Some x, Some y => (x * 16 + y) :: Buffer_from_hex r
      | _, _ => []
      end
  | _ => []
  end.

(** ** [Buffer.from(str, 'base64')]: both the standard and the URL-safe
    alphabet are accepted, characters outside them are skipped, decoding
    stops at the first [=], and the bits left over by an incomplete final
    group are dropped. *)
Definition unbase64 (c : N) : option N :=
  if inRange 65 90 c then Some (c - 65)
  else if inRange 97 122 c then Some (c - 71)
  else if inRange 48 57 c then Some (c + 4)
  else if (c =? 43) || (c =? 45) then Some 62
  else if (c =? 47) || (c =? 95) then Some 63
  else None.

Fixpoint sextets (s : jsstring) : list N :=
  match s with
  | [] => []
  | c :: t =>
      if c =? 61 then []
      else match unbase64 c with
           | Some v => v :: sextets t
           | None => sextets t
           end
  end.

Fixpoint octets (l : list N) : list N :=
  match l with
  | a :: b :: c :: d :: r =>
      (a * 4 + b / 16) :: ((b mod 16) * 16 + c / 4) :: ((c mod 4) * 64 + d)
      :: octets r
  | [a; b; c] => [a * 4 + b / 16; (b mod 16) * 16 + c / 4]
  | [a; b] => [a * 4 + b / 16]
  | _ => []
  end.

Definition Buffer_from_base64 (s : jsstring) : list N := octets (sextets s).

(** ** [buf.toString('utf-8')]: the UTF-8 decoder with replacement.  A byte
    that cannot continue the sequence under way ends it with U+FFFD and is
    read again as the first byte of a new sequence. *)
Record Pending := { cp : N; needed : nat; lower : N; upper : N }.

Definition replacement : N := 0xFFFD.

(** The first byte of a sequence: the code points it emits at once, and the
    sequence it opens, if any. *)
Definition utf8_lead (b : N) : list N * option Pending :=
  if b <=? 0x7F then ([b], None)
  else if inRange 0xC2 0xDF b then
    ([], Some {| cp := N.land b 0x1F; needed := 1; lower := 0x80; upper := 0xBF |})
  else if inRange 0xE0 0xEF b then
    ([], Some {| cp := N.land b 0xF; needed := 2;
                 lower := if b =? 0xE0 then 0xA0 else 0x80;
                 upper := if b =? 0xED then 0x9F else 0xBF |})
  else if inRange 0xF0 0xF4 b then
    ([], Some {| cp := N.land b 0x7; needed := 3;
                 lower := if b =? 0xF0 then 0x90 else 0x80;
                 upper := if b =? 0xF4 then 0x8F else 0xBF |})
  else ([replacement], None).

Fixpoint utf8_decode (st : option Pending) (bytes : list N) : list N :=
  match bytes with
  | [] => match st with None => [] | Some _ => [replacement] end
  | b :: rest =>
      match st with
      | None =>
          let '(out, st') := utf8_lead b in out ++ utf8_decode st' rest
      | Some p =>
          if inRange (lower p) (upper p) b then
            let cp' := N.lor (N.shiftl (cp p) 6) (N.land b 0x3F) in
            match needed p with
            | S (S n) =>
                utf8_decode
                  (Some {| cp := cp'; needed := S n; lower := 0x80; upper := 0xBF |})
                  rest
            | _ => cp' :: utf8_decode None rest
            end
          else
            let '(out, st') := utf8_lead b in
            replacement :: out ++ utf8_decode st' rest
      end
  end.

Definition toString_utf8 (bytes : list N) : jsstring :=
  flat_map utf16 (utf8_decode None bytes).

(** ** [parseInt(digits, radix)] on a string of digits of that radix. *)
Definition digitValue (c : N) : N :=
  match unhex c with Some v => v | None => 0 end.

Definition parseInt (radix : N) (digits : jsstring) : N :=
  fold_left (fun acc c => acc * radix + digitValue c) digits 0.

Close Scope N_scope.

(** ** [Array.prototype.sort(compare)].  The sort is stable and, for a
    consistent comparator, its result is the one stable arrangement: an
    element moves behind those the comparator puts strictly before it, and
    behind nothing else.  [compare a b > 0] puts [a] after [b]. *)
Section Sort.
Variable A : Type.
Variable compare : A -> A -> R.

Fixpoint insert (x : A) (l : list A) : list A :=
  match l with
  | [] => [x]
  | y :: l' =>
      if Rlt_dec 0 (compare x y) then y :: insert x l' else x :: y :: l'
  end.

Fixpoint sort (l : list A) : list A :=
  match l with
  | [] => []
  | x :: l' => insert x (sort l')
  end.
End Sort.

(** [Math.log2] *)
Definition Math_log2 (x : R) : R := (ln x / ln 2)%R.

(** ** Completions: a computation returns normally or throws. *)
Inductive Thrown : Type :=
| Error (message : string)   (* an [Error] object *)
| NotAnError.                (* any other thrown value *)

Inductive completion (A : Type) : Type :=
| Normal (a : A)
| Throw (e : Thrown).
Arguments Normal {A} a.
Arguments Throw {A} e.

Definition bind {A B} (c : completion A) (k : A -> completion B) : completion B :=
  match c with Normal a => k a | Throw e => Throw e end.

(** [if (cond) throw e;] *)
Definition throwIf (cond : bool) (e : Thrown) : completion unit :=
  if cond then Throw e else Normal tt.

(** [try { body } catch (error) { handler }] *)
Definition try_catch {A} (body : completion A) (handler : Thrown -> completion A)
  : completion A :=
  match body with Normal a => Normal a | Throw e => handler e end.

End JS.

(* ------------------------------------------------------------------ *)
(** * [utils.ts]: character classes, entropy, statistics, decoding probes *)
(* ------------------------------------------------------------------ *)

Module Utils.
Import JS.

Open Scope N_scope.

Definition isDigitChar (c : N) : bool := inRange 48 57 c.            (* [0-9] *)
Definition isLetterChar (c : N) : bool :=                              (* [a-zA-Z] *)
  inRange 97 122 c || inRange 65 90 c.
Definition isHexChar (c : N) : bool :=                                 (* [0-9a-fA-F] *)
  inRange 48 57 c || inRange 97 102 c || inRange 65 70 c.
Definition isBase64Char (c : N) : bool :=                              (* [A-Za-z0-9+/] *)
  inRange 65 90 c || inRange 97 122 c || inRange 48 57 c || (c =? 43) || (c =? 47).
Definition isPadChar (c : N) : bool := c =? 61.                        (* = *)

(** [/^[0-9a-fA-F]+$/.test(str)] *)
Definition isHex (str : jsstring) : bool :=
  truthy str && forallb isHexChar str.

(** [/^[A-Za-z0-9+/]+=*$/.test(str)]: after the first alphabet character,
    alphabet characters, then only [=] up to the end. *)
Fixpoint base64Tail (s : jsstring) : bool :=
  match s with
  | [] => true
  | c :: t => if isBase64Char c then base64Tail t else forallb isPadChar s
  end.

Definition isBase64 (str : jsstring) : bool :=
  match str with
  | [] => false
  | c :: t => isBase64Char c && base64Tail t
  end.

(** [/^[\x00-\x7F]*$/.test(str)] *)
Definition isAscii (str : jsstring) : bool :=
  forallb (fun c => c <=? 0x7F) str.

Definition getCharset (str : jsstring) : string :=
  if isHex str then "hex"%string
  else if isBase64 str then "base64"%string
  else if isAscii str then "ascii"%string
  else "unknown"%string.

Close Scope N_scope.

(** ** The frequency table [freq] of [shannonEntropy] and [freqAnalysis]:
    an object keyed by character, kept as the list of its properties in
    creation order. *)
Fixpoint bump (char : N) (freq : list (N * Z)) : list (N * Z) :=
  match freq with
  | [] => [(char, 0 + 1)%Z]                       (* (freq[char] || 0) + 1 *)
  | (k, n) :: rest =>
      if (k =? char)%N then (k, n + 1)%Z :: rest else (k, n) :: bump char rest
  end.

Definition freqAnalysis (str : jsstring) : list (N * Z) :=
  fold_left (fun freq char => bump char freq) (codePoints str) [].

(** [Object.values(freq)]: properties whose key is an array index (here the
    one-digit keys) come first, in ascending order, the others follow in
    creation order. *)
Definition Object_values (freq : list (N * Z)) : list Z :=
  map snd
    (flat_map (fun d => filter (fun kv => (fst kv =? d)%N) freq)
              [48; 49; 50; 51; 52; 53; 54; 55; 56; 57]%N
     ++ filter (fun kv => negb (isDigitChar (fst kv))) freq).

Definition shannonEntropy (str : jsstring) : R :=
  if negb (truthy str) || (strlen str =? 0)%Z then 0%R
  else
    let freq := freqAnalysis str in
    let length := IZR (strlen str) in
    fold_left
      (fun entropy count =>
         let p := (IZR count / length)%R in
         if Rlt_dec 0 p then (entropy - p * Math_log2 p)%R else entropy)
      (Object_values freq) 0%R.

(** ** Decoders used by the scorer *)

Definition safeBase64Decode (str : jsstring) : option jsstring :=
  let missingPadding := (strlen str mod 4)%Z in
  let str :=
    if (missingPadding =? 0)%Z then str
    else str ++ repeat 61%N (Z.to_nat (4 - missingPadding)) in
  Some (toString_utf8 (Buffer_from_base64 str)).

Definition safeHexDecode (str : jsstring) : option jsstring :=
  if negb (strlen str mod 2 =? 0)%Z then None
  else Some (toString_utf8 (Buffer_from_hex str)).

(** ** Character statistics *)

Module CharStats.
Record t : Type := mk {
  total : Z;
  unique : Z;
  digits : Z;
  letters : Z;
  special : Z;
  entropy : R
}.
End CharStats.

(** [(str.match(re) || []).length] for a one-character class [re] with the
    [g] flag. *)
Definition countMatches (class : N -> bool) (str : jsstring) : Z :=
  Z.of_nat (List.length (filter class str)).

(** [new Set(str).size] *)
Definition distinctCodePoints (str : jsstring) : Z :=
  Z.of_nat (List.length (nodup N.eq_dec (codePoints str))).

Definition getCharStats (str : jsstring) : CharStats.t :=
  if negb (truthy str) then CharStats.mk 0 0 0 0 0 0
  else
    CharStats.mk
      (strlen str)
      (distinctCodePoints str)
      (countMatches isDigitChar str)
      (countMatches isLetterChar str)
      (countMatches (fun c => negb (isLetterChar c || isDigitChar c)) str)
      (shannonEntropy str).

(** ** The other decoding probes *)

Open Scope N_scope.

Definition decodeROT13 (str : jsstring) : option jsstring :=
  Some
    (map
       (fun char =>
          if isLetterChar char then
            let code := char in
            if (65 <=? code) && (code <=? 90) then ((code - 65 + 13) mod 26) + 65
            else if (97 <=? code) && (code <=? 122) then ((code - 97 + 13) mod 26) + 97
            else char
          else char)
       str).

(** The loop shared by [decodeBinary] and [decodeOctal]: pieces of [width]
    characters, read in [radix]; an incomplete last piece and values
    outside 32..126 give nothing. *)
Fixpoint decodeChunks (width : nat) (radix : N) (fuel : nat) (str : jsstring)
  : jsstring :=
  match fuel with
  | O => []
  | S fuel' =>
      match str with
      | [] => []
      | _ :: _ =>
          let piece := firstn width str in
          (if (List.length piece =? width)%nat then
             let charCode := parseInt radix piece in
             if (32 <=? charCode) && (charCode <=? 126) then [charCode] else []
           else [])
          ++ decodeChunks width radix fuel' (skipn width str)
      end
  end.

Definition decodeBinary (str : jsstring) : option jsstring :=
  if negb (truthy str && forallb (inRange 48 49) str) then None
  else
    let result := decodeChunks 8 2 (List.length str) str in
    if truthy result then Some result else None.

Definition decodeOctal (str : jsstring) : option jsstring :=
  if negb (truthy str && forallb (inRange 48 55) str) then None
  else
    let result := decodeChunks 3 8 (List.length str) str in
    if truthy result then Some result else None.

(** [str.replace(/\\u[0-9a-fA-F]{4}/g, ...)]: the result, and whether the
    pattern matched anywhere. *)
Fixpoint replaceUnicodeEscapes (str : jsstring) : jsstring * bool :=
  match str with
  | [] => ([], false)
  | c :: t =>
      let keep := let '(out, found) := replaceUnicodeEscapes t in (c :: out, found) in
      match t with
      | u :: h1 :: h2 :: h3 :: h4 :: rest =>
          if (c =? 92) && (u =? 117) && forallb isHexChar [h1; h2; h3; h4]
          then (parseInt 16 [h1; h2; h3; h4] :: fst (replaceUnicodeEscapes rest), true)
          else keep
      | _ => keep
      end
  end.

Definition decodeUnicode (str : jsstring) : option jsstring :=
  let '(result, found) := replaceUnicodeEscapes str in
  if negb found then None else Some result.

(** [str.replace(new RegExp(entity, 'g'), char)] for a literal [entity]:
    [skip] counts the characters of a match still to be passed over. *)
Fixpoint replaceAll (entity char : jsstring) (skip : nat) (str : jsstring)
  : jsstring :=
  match str with
  | [] => []
  | c :: t =>
      match skip with
      | S n => replaceAll entity char n t
      | O =>
          if truthy entity && startsWith str entity
          then char ++ replaceAll entity char (List.length entity - 1) t
          else c :: replaceAll entity char 0 t
      end
  end.

Definition htmlEntities : list (jsstring * jsstring) :=
  [ (js "&amp;", js "&"); (js "&lt;", js "<"); (js "&gt;", js ">");
    (js "&quot;", [34]); (js "&#39;", js "'"); (js "&nbsp;", js " ");
    (js "&copy;", [0xA9]); (js "&reg;", [0xAE]); (js "&trade;", [0x2122]) ].

(** The decimal digits at the head of a string. *)
Fixpoint leadingDigits (s : jsstring) : jsstring :=
  match s with
  | c :: t => if isDigitChar c then c :: leadingDigits t else []
  | [] => []
  end.

(** [result.replace(/&#(\d+);/g, ...)]: a numeric entity in 32..126 becomes
    its character, any other one is left as it is. *)
Fixpoint replaceNumericEntities (skip : nat) (str : jsstring) : jsstring :=
  match str with
  | [] => []
  | c :: t =>
      match skip with
      | S n => replaceNumericEntities n t
      | O =>
          let keep := c :: replaceNumericEntities 0 t in
          match t with
          | h :: rest =>
              let num := leadingDigits rest in
              if (c =? 38) && (h =? 35) && truthy num
                 && startsWith (skipn (List.length num) rest) [59]
              then
                let code := parseInt 10 num in
                if (32 <=? code) && (code <=? 126)
                then code :: replaceNumericEntities (List.length num + 2) t
                else keep
              else keep
          | [] => keep
          end
      end
  end.

Definition jsstring_eqb (a b : jsstring) : bool :=
  if list_eq_dec N.eq_dec a b then true else false.

Definition decodeHTML (str : jsstring) : option jsstring :=
  let result :=
    fold_left (fun result ec => replaceAll (fst ec) (snd ec) 0 result)
              htmlEntities str in
  let result := replaceNumericEntities 0 result in
  if negb (jsstring_eqb result str) then Some result else None.

Close Scope N_scope.

(** [decodeURL]: [decodeURIComponent] with its [URIError] caught. *)
Section DecodeURL.
Variable decodeURIComponent : jsstring -> completion jsstring.

Definition decodeURL (str : jsstring) : option jsstring :=
  match decodeURIComponent str with
  | Normal decoded => Some decoded
  | Throw _ => None
  end.
End DecodeURL.

End Utils.

(* ------------------------------------------------------------------ *)
(** * [detector.ts]: scoring, ranking and the analysis record *)
(* ------------------------------------------------------------------ *)

Module Detector.
Import JS Utils.

(** A descriptor of the catalog.  Every field but [name] is optional; a
    declared [length] is taken to be an integer. *)
Module HashPattern.
Record t : Type := mk {
  name : string;
  length : option Z;
  charset : option string;
  prefixes : option (list jsstring);
  suffixes : option (list jsstring);
  example : option string;
  source : option string;
  regex : option string;
  notes : option string
}.
End HashPattern.

Inductive Color : Type := green | yellow | red.

(** The evidence strings, by template. *)
Inductive Reason : Type :=
| RegexPatternMatch                                   (* Regex pattern match *)
| PrefixMatch (prefix : jsstring)                     (* Prefix match (..) *)
| ExactLengthMatch (length : Z)                       (* Exact length match (..) *)
| FuzzyLengthMatch (length inputLength lengthDiff : Z)
| NearLengthMatch (length inputLength lengthDiff : Z)
| CharsetMatch (charset : string)                     (* Charset match (..) *)
| DecodedCharsetMatch (charset : string)              (* Decoded charset match (..) *)
| CharsetVariationMatch (charset patternCharset : string)
| SuffixMatch (suffix : jsstring)                     (* Suffix match (..) *)
| HighEntropy (entropy entropyThreshold : R)          (* High entropy (.., threshold: ..) *)
| DecodableContent                                    (* Decodable content *)
| DecodedContentCharsetMatch                          (* Decoded content charset match *)
| SignatureMatch (prefix : option jsstring)           (* Signature match (..) *)
| Text (text : string).                               (* a plain string *)

Module DetectionResult.
Record t : Type := mk {
  id : string;
  name : string;
  score : R;
  color : Color;
  reasons : list Reason
}.
End DetectionResult.

(** The [decoding] object: a key is either absent or holds a string. *)
Module Decoding.
Record t : Type := mk {
  base64 : option jsstring;
  hex : option jsstring;
  rot13 : option jsstring;
  url : option jsstring;
  binary : option jsstring;
  octal : option jsstring;
  unicode : option jsstring;
  html : option jsstring
}.
Definition empty : t := mk None None None None None None None None.
End Decoding.

Module AnalysisResult.
Record t : Type := mk {
  input : jsstring;
  results : list DetectionResult.t;
  stats : CharStats.t;
  decoding : Decoding.t;
  freq : list (string * Z)
}.
End AnalysisResult.

(** The running [score] and [reasons] of one pattern. *)
Module Scoring.
Record t : Type := mk { score : R; reasons : list Reason }.
End Scoring.

(** [score += weight; reasons.push(reason)] *)
Definition add (weight : R) (reason : Reason) (s : Scoring.t) : Scoring.t :=
  Scoring.mk (Scoring.score s + weight) (Scoring.reasons s ++ [reason]).

(** [decoded && tag === getCharset(decoded)] *)
Definition decodedCharsetIs (decoded : option jsstring) (tag : string) : bool :=
  match decoded with
  | Some d => truthy d && String.eqb tag (getCharset d)
  | None => false
  end.

(** [if (decoded) decoding.key = decoded]: the key is written only for a
    truthy value. *)
Definition stored (decoded : option jsstring) : option jsstring :=
  if truthyOpt decoded then decoded else None.

Section Detector.

(** [new RegExp(source).test(input)]; [None] when the constructor throws. *)
Variable RegExp_test : string -> jsstring -> option bool.
Variable decodeURIComponent : jsstring -> completion jsstring.

(** The module variable [hashPatterns], as [Object.entries] lists it. *)
Variable hashPatterns : list (string * HashPattern.t).

Section Pattern.
Variable input : jsstring.
Variable inputLength : Z.
Variable charset : string.
Variable entropy : R.
Variable pattern : HashPattern.t.

(* 1. Regex matching ([hasRegexMatch] is set here and never read) *)
Definition regexStep (s : Scoring.t) : Scoring.t :=
  match HashPattern.regex pattern with
  | Some source =>
      if truthyText source then
        match RegExp_test source input with
        | Some true => add 0.4 RegexPatternMatch s
        | Some false => s
        | None => s                                (* invalid regex, skip *)
        end
      else s
  | None => s
  end.

(* 2. Prefix matching; also yields [hasPrefixMatch] *)
Definition prefixStep (s : Scoring.t) : Scoring.t * bool :=
  match HashPattern.prefixes pattern with
  | Some prefixes =>
      if (0 <? List.length prefixes)%nat then
        match find (startsWith input) prefixes with
        | Some prefix => (add 0.25 (PrefixMatch prefix) s, true)
        | None => (s, false)
        end
      else (s, false)
  | None => (s, false)
  end.

(* 3. Fuzzy length matching *)
Definition lengthStep (s : Scoring.t) : Scoring.t :=
  match HashPattern.length pattern with
  | Some length =>
      if (length =? 0)%Z then s
      else
        let lengthDiff := Z.abs (inputLength - length) in
        if (lengthDiff =? 0)%Z then add 0.4 (ExactLengthMatch length) s
        else if (lengthDiff <=? 4)%Z then
          add 0.3 (FuzzyLengthMatch length inputLength lengthDiff) s
        else if (lengthDiff <=? 8)%Z then
          add 0.1 (NearLengthMatch length inputLength lengthDiff) s
        else s
  | None => s
  end.

(* 4. Flexible charset matching *)
Definition charsetStep (s : Scoring.t) : Scoring.t :=
  match HashPattern.charset pattern with
  | Some patternCharset =>
      if truthyText patternCharset then
        let charsetMatch := false in
        let '(s, charsetMatch) :=
          if String.eqb patternCharset charset
          then (add 0.2 (CharsetMatch charset) s, true)
          else (s, charsetMatch) in
        let base64Decoded := safeBase64Decode input in
        let hexDecoded := safeHexDecode input in
        let '(s, charsetMatch) :=
          if decodedCharsetIs base64Decoded patternCharset
          then (add 0.15 (DecodedCharsetMatch patternCharset) s, true)
          else (s, charsetMatch) in
        let '(s, charsetMatch) :=
          if decodedCharsetIs hexDecoded patternCharset
          then (add 0.15 (DecodedCharsetMatch patternCharset) s, true)
          else (s, charsetMatch) in
        if negb charsetMatch
           && String.eqb patternCharset "hex"
           && (String.eqb charset "hex" || String.eqb charset "alphanum")
        then add 0.1 (CharsetVariationMatch charset patternCharset) s
        else s
      else s
  | None => s
  end.

(* 5. Suffix matching *)
Definition suffixStep (s : Scoring.t) : Scoring.t :=
  match HashPattern.suffixes pattern with
  | Some suffixes =>
      if (0 <? List.length suffixes)%nat then
        match find (endsWith input) suffixes with
        | Some suffix => add 0.1 (SuffixMatch suffix) s
        | None => s
        end
      else s
  | None => s
  end.

(* 6. Dynamic entropy bonus *)
Definition entropyThreshold : R :=
  Rmax 2.5 (Rmin 4.0 (3.0 + IZR inputLength / 50)).

Definition entropyStep (s : Scoring.t) : Scoring.t :=
  if Rgt_dec entropy entropyThreshold
  then add 0.1 (HighEntropy entropy entropyThreshold) s
  else s.

(* 7. Decoding awareness *)
Definition patternCharsetIs (decoded : option jsstring) : bool :=
  match HashPattern.charset pattern with
  | Some patternCharset =>
      truthyText patternCharset && decodedCharsetIs decoded patternCharset
  | None => false
  end.

Definition decodingStep (s : Scoring.t) : Scoring.t :=
  let base64Decoded := safeBase64Decode input in
  let hexDecoded := safeHexDecode input in
  if truthyOpt base64Decoded || truthyOpt hexDecoded then
    let s := add 0.1 DecodableContent s in
    let s :=
      if patternCharsetIs base64Decoded
      then add 0.05 DecodedContentCharsetMatch s else s in
    if patternCharsetIs hexDecoded
    then add 0.05 DecodedContentCharsetMatch s else s
  else s.

(* Signature awareness: prefix boost *)
Definition signatureStep (hasPrefixMatch : bool) (s : Scoring.t) : Scoring.t :=
  match HashPattern.prefixes pattern with
  | Some prefixes =>
      if hasPrefixMatch && (0 <? List.length prefixes)%nat
      then add 0.3 (SignatureMatch (nth_error prefixes 0)) s
      else s
  | None => s
  end.

(** The body of the loop over the patterns, up to the inclusion test. *)
Definition scorePattern : Scoring.t :=
  let s := Scoring.mk 0 [] in
  let s := regexStep s in
  let '(s, hasPrefixMatch) := prefixStep s in
  let s := lengthStep s in
  let s := charsetStep s in
  let s := suffixStep s in
  let s := entropyStep s in
  let s := decodingStep s in
  signatureStep hasPrefixMatch s.

(** The inclusion test and the result pushed for the pattern, if any. *)
Definition candidate (patternId : string) : list DetectionResult.t :=
  let score := Scoring.score scorePattern in
  if Rge_dec score 0.25 then
    let color :=
      if Rgt_dec score 0.8 then green
      else if Rge_dec score 0.55 then yellow
      else red in
    [DetectionResult.mk patternId (HashPattern.name pattern)
                        (Rmin score 1.0) color (Scoring.reasons scorePattern)]
  else [].
End Pattern.

(** The array [candidates] when the loop over the patterns ends. *)
Definition candidates (input : jsstring) : list DetectionResult.t :=
  let inputLength := strlen input in
  let charset := getCharset input in
  let entropy := shannonEntropy input in
  flat_map
    (fun entry : string * HashPattern.t =>
       let '(patternId, pattern) := entry in
       candidate input inputLength charset entropy pattern patternId)
    hashPatterns.

Definition detectCandidates (input : jsstring) : list DetectionResult.t :=
  if negb (truthy input) then []
  else
    let sortedCandidates :=
      sort (fun a b => (DetectionResult.score b - DetectionResult.score a)%R)
           (candidates input) in
    firstn 3 sortedCandidates.

Definition unknownResult : DetectionResult.t :=
  DetectionResult.mk "unknown" "Unknown" 0.0 red [Text "no patterns matched"].

Definition errorResult (error : Thrown) : DetectionResult.t :=
  DetectionResult.mk "error" "Analysis Error" 0.0 red
    [Text ("analysis failed: "
           ++ match error with
              | Error message => message
              | NotAnError => "unknown error"
              end)].

(** The [try] block of [analyzeInput]. *)
Definition analyzeInput_try (input : jsstring) : completion AnalysisResult.t :=
  bind (throwIf (negb (truthy input))
                (Error "Invalid input: must be a non-empty string")) (fun _ =>
  bind (throwIf (10000 <? strlen input)%Z
                (Error "Input too long: maximum 10,000 characters allowed")) (fun _ =>
  let results := detectCandidates input in
  let stats := getCharStats input in
  let freq :=
    [ ("total", CharStats.total stats); ("unique", CharStats.unique stats);
      ("digits", CharStats.digits stats); ("letters", CharStats.letters stats);
      ("special", CharStats.special stats) ]%string in
  let decoding :=
    Decoding.mk
      (stored (safeBase64Decode input))
      (stored (safeHexDecode input))
      (stored (decodeROT13 input))
      (stored (decodeURL decodeURIComponent input))
      (stored (decodeBinary input))
      (stored (decodeOctal input))
      (stored (decodeUnicode input))
      (stored (decodeHTML input)) in
  let results :=
    if (List.length results =? 0)%nat then results ++ [unknownResult]
    else results in
  Normal (AnalysisResult.mk input results stats decoding freq))).

(** The [catch] block of [analyzeInput]: the safe fallback result. *)
Definition fallback (input : jsstring) (error : Thrown) : AnalysisResult.t :=
  AnalysisResult.mk
    input
    [errorResult error]
    (CharStats.mk
       (strlen input)
       (distinctCodePoints input)
       (countMatches isDigitChar input)
       (countMatches isLetterChar input)
       (countMatches (fun c => negb (isLetterChar c || isDigitChar c)) input)
       0)
    Decoding.empty
    [].

Definition analyzeInput (input : jsstring) : completion AnalysisResult.t :=
  try_catch (analyzeInput_try input) (fun error => Normal (fallback input error)).

End Detector.

End Detector.

Import JS Utils Detector.

(* ------------------------------------------------------------------ *)
(** * Sample data *)
(* ------------------------------------------------------------------ *)

(** An MD5 descriptor with an exact length and a charset tag only. *)
Definition md5Pattern : HashPattern.t :=
  HashPattern.mk "MD5" (Some 32%Z) (Some "hex"%string) None None None None None None.

Definition md5Catalog : list (string * HashPattern.t) := [("md5"%string, md5Pattern)].

Definition md5Input : jsstring := js "5d41402abc4b2a76b9719d911017c592".

(** Stand-ins for the two runtime parameters, for running the detector on
    catalogs without a [regex] field and on inputs without a [%]: an engine
    that is given nothing it can compile, and [decodeURIComponent] on
    strings that hold no escape sequence (there it is the identity). *)
Definition RegExp_none : string -> jsstring -> option bool := fun _ _ => None.

Definition decodeURIComponent_plain (s : jsstring) : completion jsstring :=
  if existsb (N.eqb 37) s then Throw (Error "URI malformed") else Normal s.

Open Scope R_scope.

(** The weight the scorer adds together with each piece of evidence. *)
Definition weightOf (reason : Reason) : R :=
  match reason with
  | RegexPatternMatch => 0.4
  | PrefixMatch _ => 0.25
  | ExactLengthMatch _ => 0.4
  | FuzzyLengthMatch _ _ _ => 0.3
  | NearLengthMatch _ _ _ => 0.1
  | CharsetMatch _ => 0.2
  | DecodedCharsetMatch _ => 0.15
  | CharsetVariationMatch _ _ => 0.1
  | SuffixMatch _ => 0.1
  | HighEntropy _ _ => 0.1
  | DecodableContent => 0.1
  | DecodedContentCharsetMatch => 0.05
  | SignatureMatch _ => 0.3
  | Text _ => 0
  end.

Definition totalWeight (reasons : list Reason) : R :=
  fold_right (fun reason acc => (weightOf reason + acc)%R) 0%R reasons.

Definition isVariation (reason : Reason) : Prop :=
  match reason with CharsetVariationMatch _ _ => True | _ => False end.

(** The score is the sum of the weights of the evidence recorded so far,
    and none of that evidence is a charset variation. *)
Definition accounted (s : Scoring.t) : Prop :=
  Scoring.score s = totalWeight (Scoring.reasons s) /\
  Forall (fun reason => ~ isVariation reason) (Scoring.reasons s).

(** [a] does not rank below [b]. *)
Definition notBelow {A} (key : A -> R) (a b : A) : Prop := key b <= key a.

(** An input [analyzeInput] accepts: a non-empty string of at most 10,000
    code units. *)
Definition validInput (input : jsstring) : Prop :=
  input <> [] /\ (strlen input <= 10000)%Z.

(** What the loop of [detectCandidates] pushes for one entry of the catalog. *)
Definition emitted (RegExp_test : string -> jsstring -> option bool)
  (input : jsstring) (entry : string * HashPattern.t) : list DetectionResult.t :=
  candidate RegExp_test input (strlen input) (getCharset input)
            (shannonEntropy input) (snd entry) (fst entry).

(** The eight keys of a [decoding] object. *)
Definition decodingKeys (d : Decoding.t) : list (option jsstring) :=
  [ Decoding.base64 d; Decoding.hex d; Decoding.rot13 d; Decoding.url d;
    Decoding.binary d; Decoding.octal d; Decoding.unicode d; Decoding.html d ].

(** The sum of [g x] over the elements [x] of a list. *)
Definition sumOver {A} (g : A -> R) (l : list A) : R :=
  fold_right (fun x acc => g x + acc) 0 l.

(** Minus the sum of [p * log2 p] over a list of counts, with
    [p = count / len]. *)
Definition entropyFormula (counts : list Z) (len : R) : R :=
  - sumOver (fun count => IZR count / len * Math_log2 (IZR count / len)) counts.

(** The number of times a character occurs in a list of characters. *)
Definition occurrences (char : N) (chars : list N) : Z :=
  Z.of_nat (count_occ N.eq_dec chars char).

(** Shannon entropy as the specification writes it: minus the sum, over the
    distinct characters of the string, of [p * log2 p], where [p] is the
    number of occurrences of the character divided by the length. *)
Definition entropySpec (str : jsstring) : R :=
  let chars := codePoints str in
  let len := IZR (strlen str) in
  - sumOver (fun char =>
               let p := IZR (occurrences char chars) / len in p * Math_log2 p)
            (nodup N.eq_dec chars).

(** The characters a frequency table has an entry for. *)
Definition keys (freq : list (N * Z)) : list N := map fst freq.

(** The count a frequency table holds for a character (0 when it has none). *)
Fixpoint countOf (char : N) (freq : list (N * Z)) : Z :=
  match freq with
  | [] => 0%Z
  | (k, n) :: rest => if (k =? char)%N then n else countOf char rest
  end.

(** The sum of the counts of a frequency table, and the tables whose counts
    are all positive. *)
Definition tableTotal (freq : list (N * Z)) : Z :=
  fold_right (fun kv acc => (snd kv + acc)%Z) 0%Z freq.

Definition tablePositive (freq : list (N * Z)) : Prop :=
  Forall (fun kv => (0 < snd kv)%Z) freq.

(** The result [md5Pattern] gets on [md5Input], under identifier [patternId]. *)
Definition md5Result (patternId : string) : DetectionResult.t :=
  DetectionResult.mk patternId "MD5" 0.7 yellow
    [ExactLengthMatch 32; CharsetMatch "hex"; DecodableContent].

(** The tier the specification assigns to a final score. *)
Definition tierOf (score : R) (c : Color) : Prop :=
  (0.8 < score -> c = green) /\
  (0.55 <= score <= 0.8 -> c = yellow) /\
  (0.25 <= score < 0.55 -> c = red).


(** What every analysis record satisfies: it carries the input, between one
    and three results, each with a score within [0, 1], and the length of
    the input as [stats.total]. *)
Definition wellFormed (input : jsstring) (r : AnalysisResult.t) : Prop :=
  AnalysisResult.input r = input /\
  (1 <= List.length (AnalysisResult.results r) <= 3)%nat /\
  Forall (fun d => (0 <= DetectionResult.score d <= 1)%R) (AnalysisResult.results r) /\
  CharStats.total (AnalysisResult.stats r) = strlen input.

(* ------------------------------------------------------------------ *)
(** * Further definitions used by the statements below *)
(* ------------------------------------------------------------------ *)

(** The step of the scorer that records a piece of evidence, in the order
    the steps run. *)
Definition rank (reason : Reason) : nat :=
  match reason with
  | Text _ => 0
  | RegexPatternMatch => 1
  | PrefixMatch _ => 2
  | ExactLengthMatch _ | FuzzyLengthMatch _ _ _ | NearLengthMatch _ _ _ => 3
  | CharsetMatch _ => 4
  | DecodedCharsetMatch _ => 5
  | CharsetVariationMatch _ _ => 6
  | SuffixMatch _ => 7
  | HighEntropy _ _ => 8
  | DecodableContent => 9
  | DecodedContentCharsetMatch => 10
  | SignatureMatch _ => 11
  end.

(** The evidence is in the order of the steps, and all of it is from the
    steps 1 to [k]. *)
Definition ordered (k : nat) (s : Scoring.t) : Prop :=
  StronglySorted (fun a b => (rank a <= rank b)%nat) (Scoring.reasons s) /\
  Forall (fun reason => (1 <= rank reason <= k)%nat) (Scoring.reasons s).

(** [s'] is [s] with more evidence, and the weights that go with it. *)
Definition grows (s s' : Scoring.t) : Prop :=
  exists added,
    Scoring.reasons s' = Scoring.reasons s ++ added /\
    Scoring.score s' = Scoring.score s + totalWeight added.

(** A descriptor with its [regex] field removed. *)
Definition withoutRegex (pattern : HashPattern.t) : HashPattern.t :=
  HashPattern.mk
    (HashPattern.name pattern) (HashPattern.length pattern)
    (HashPattern.charset pattern) (HashPattern.prefixes pattern)
    (HashPattern.suffixes pattern) (HashPattern.example pattern)
    (HashPattern.source pattern) None (HashPattern.notes pattern).

(** A bcrypt descriptor known by its prefixes, and a bcrypt hash. *)
Definition bcryptPattern : HashPattern.t :=
  HashPattern.mk "bcrypt" None None (Some [js "$2a$"; js "$2b$"; js "$2y$"])
                 None None None None None.

Definition bcryptInput : jsstring :=
  js "$2b$12$LQv3c1yqBWVHxkd0LHAkCOYz6TtxMQJqhN8/LewdBPj4ZbC8K7K2".

(** A descriptor whose [regex] does not compile. *)
Definition brokenRegexPattern : HashPattern.t :=
  HashPattern.mk "MD5" (Some 32%Z) (Some "hex"%string) None None None None
                 (Some "^[a-f0-9{32}$("%string) None.

(** No evidence of the given kind has been recorded. *)
Definition lacks (reason : Reason) (s : Scoring.t) : Prop :=
  ~ In reason (Scoring.reasons s).

(** Printable ASCII, as the binary and octal probes test it. *)
Definition printable (c : N) : Prop := (32 <= c <= 126)%N.

(** A character code written as eight binary digits, and as three octal
    digits (most significant first). *)
Definition toBinary8 (c : N) : jsstring :=
  map (fun i => (48 + (c / 2 ^ i) mod 2)%N) [7; 6; 5; 4; 3; 2; 1; 0]%N.

Definition toOctal3 (c : N) : jsstring :=
  map (fun i => (48 + (c / 8 ^ i) mod 8)%N) [2; 1; 0]%N.

(** The six code units of an escape [\uXXXX]. *)
Definition unicodeEscape (h1 h2 h3 h4 : N) : jsstring := [92; 117; h1; h2; h3; h4]%N.

(** The string holds an escape [\uXXXX] with four hexadecimal digits. *)
Definition hasUnicodeEscape (str : jsstring) : Prop :=
  exists before h1 h2 h3 h4 after,
    str = before ++ unicodeEscape h1 h2 h3 h4 ++ after /\
    forallb isHexChar [h1; h2; h3; h4] = true.






(* ------------------------------------------------------------------ *)
(** * [detector.ts]: loading the catalog *)
(* ------------------------------------------------------------------ *)

(** [loadHashPatterns]: the value the module variable [hashPatterns] holds
    when the promise settles; [readJson] is the outcome of reading
    [data/hash_patterns.json].  Until then the variable holds the empty
    object it is initialised with. *)
Definition loadHashPatterns (readJson : completion (list (string * HashPattern.t)))
  : list (string * HashPattern.t) :=
  match readJson with
  | Normal data => data
  | Throw _ => []
  end.

(* ------------------------------------------------------------------ *)
(** * [index.ts]: the analysis endpoint *)
(* ------------------------------------------------------------------ *)

Module Server.

(** A JavaScript value, as a parsed request body holds it. *)
#[warnings="-register-all"]
Inductive JsValue : Type :=
| JUndefined
| JNull
| JBoolean (b : bool)
| JNumber (x : PrimFloat.float)
| JString (s : jsstring)
| JArray (items : list JsValue)
| JObject (fields : list (string * JsValue)).

(** [typeof v] *)
Definition typeof (v : JsValue) : string :=
  match v with
  | JUndefined => "undefined"
  | JNull => "object"
  | JBoolean _ => "boolean"
  | JNumber _ => "number"
  | JString _ => "string"
  | JArray _ => "object"
  | JObject _ => "object"
  end.

(** [ToBoolean]: [undefined], [null], [false], zero, [NaN] and the empty
    string are falsy. *)
Definition toBoolean (v : JsValue) : bool :=
  match v with
  | JUndefined => false
  | JNull => false
  | JBoolean b => b
  | JNumber x => negb (PrimFloat.eqb x PrimFloat.zero || PrimFloat.is_nan x)
  | JString s => truthy s
  | JArray _ => true
  | JObject _ => true
  end.

(** [v !== undefined] *)
Definition isDefined (v : JsValue) : bool :=
  match v with JUndefined => false | _ => true end.

(** The value an object holds under a key ([undefined] when it has none). *)
Fixpoint lookup (key : string) (fields : list (string * JsValue)) : JsValue :=
  match fields with
  | [] => JUndefined
  | (k, v) :: rest => if String.eqb k key then v else lookup key rest
  end.

(** [const { key } = v], for a key that no prototype defines: a [TypeError]
    on [undefined] and [null]. *)
Definition getProperty (key : string) (v : JsValue) : completion JsValue :=
  match v with
  | JUndefined => Throw (Error "Cannot destructure property of undefined")
  | JNull => Throw (Error "Cannot destructure property of null")
  | JObject fields => Normal (lookup key fields)
  | _ => Normal JUndefined
  end.

(** White space and line terminators, as [String.prototype.trim] removes
    them. *)
Definition isWhiteSpace (c : N) : bool :=
  (inRange 9 13 c || (c =? 32) || (c =? 0xA0) || (c =? 0x1680)
   || inRange 0x2000 0x200A c || (c =? 0x2028) || (c =? 0x2029)
   || (c =? 0x202F) || (c =? 0x205F) || (c =? 0x3000) || (c =? 0xFEFF))%N.

Fixpoint trimStart (s : jsstring) : jsstring :=
  match s with
  | c :: t => if isWhiteSpace c then trimStart t else s
  | [] => []
  end.

Definition trimEnd (s : jsstring) : jsstring := rev (trimStart (rev s)).

Definition trim (s : jsstring) : jsstring := trimEnd (trimStart s).

(** [v.trim()]: a [TypeError] on anything but a string. *)
Definition trimOf (v : JsValue) : completion jsstring :=
  match v with
  | JString s => Normal (trim s)
  | _ => Throw (Error "trim is not a function")
  end.

(** [array.filter(f)] and [array.map(f)] for callbacks that may throw. *)
Fixpoint filterM {A} (f : A -> completion bool) (l : list A) : completion (list A) :=
  match l with
  | [] => Normal []
  | x :: t =>
      bind (f x) (fun keep =>
      bind (filterM f t) (fun kept =>
      Normal (if keep then x :: kept else kept)))
  end.

Fixpoint mapM {A B} (f : A -> completion B) (l : list A) : completion (list B) :=
  match l with
  | [] => Normal []
  | x :: t =>
      bind (f x) (fun y =>
      bind (mapM f t) (fun ys =>
      Normal (y :: ys)))
  end.

(** The [error] texts of the endpoint:
    - [InvalidRequestBody]: Invalid request body. Expected JSON object.
    - [MissingParameters]: Missing required parameters. Provide either
      "input" (string) or "inputs" (array)
    - [InputNotString]: Input must be a string
    - [InputEmpty]: Input cannot be empty
    - [InputsNotArray]: Inputs must be an array
    - [InputsEmpty]: Inputs array cannot be empty
    - [InvalidRequest]: Invalid request. Provide either "input" (string) or
      "inputs" (array)
    - [InternalServerError]: Internal server error *)
Inductive ErrorText : Type :=
| InvalidRequestBody
| MissingParameters
| InputNotString
| InputEmpty
| InputsNotArray
| InputsEmpty
| InvalidRequest
| InternalServerError.

(** The [data] of a successful answer: one record, or an array of them. *)
Inductive Data : Type :=
| Single (result : AnalysisResult.t)
| Multiple (results : list AnalysisResult.t).

(** [{ success: true, data }] and [{ success: false, error }] (the [details]
    of the 500 answer, set in development only, are left out). *)
Inductive Body : Type :=
| Success (data : Data)
| Failure (error : ErrorText).

Module Response.
Record t : Type := mk { status : Z; body : Body }.
End Response.

(** [return res.status(400).json({ success: false, error })] *)
Definition reject (error : ErrorText) : completion Response.t :=
  Normal (Response.mk 400 (Failure error)).

(** [return res.json({ success: true, data })] *)
Definition reply (data : Data) : completion Response.t :=
  Normal (Response.mk 200 (Success data)).

Section Endpoint.

Variable RegExp_test : string -> jsstring -> option bool.
Variable decodeURIComponent : jsstring -> completion jsstring.
Variable hashPatterns : list (string * HashPattern.t).

(** The callback of [inputs.filter]: [typeof inp === 'string' && inp.trim()]. *)
Definition keeps (inp : JsValue) : completion bool :=
  if String.eqb (typeof inp) "string"
  then bind (trimOf inp) (fun trimmed => Normal (truthy trimmed))
  else Normal false.

(** The callback of [.map]: [analyzeInput(inp.trim())]. *)
Definition analyzeItem (inp : JsValue) : completion AnalysisResult.t :=
  bind (trimOf inp) (fun trimmed =>
  analyzeInput RegExp_test decodeURIComponent hashPatterns trimmed).

(** The [try] block of the handler of [POST /api/analyze], on the parsed
    body of the request. *)
Definition postAnalyze_try (body : JsValue) : completion Response.t :=
  if negb (toBoolean body) || negb (String.eqb (typeof body) "object") then
    reject InvalidRequestBody
  else
    bind (getProperty "input" body) (fun input =>
    bind (getProperty "inputs" body) (fun inputs =>
    if negb (toBoolean input) && negb (toBoolean inputs) then
      reject MissingParameters
    else if isDefined input then
      if negb (String.eqb (typeof input) "string") then reject InputNotString
      else
        bind (trimOf input) (fun trimmed =>
        if negb (truthy trimmed) then reject InputEmpty
        else
          bind (analyzeItem input) (fun result =>
          reply (Single result)))
    else if isDefined inputs then
      match inputs with
      | JArray items =>
          if (List.length items =? 0)%nat then reject InputsEmpty
          else
            bind (filterM keeps items) (fun kept =>
            bind (mapM analyzeItem kept) (fun results =>
            reply (Multiple results)))
      | _ => reject InputsNotArray
      end
    else reject InvalidRequest)).

(** The handler: what the [try] block throws is answered with status 500. *)
Definition postAnalyze (body : JsValue) : completion Response.t :=
  try_catch (postAnalyze_try body)
            (fun error => Normal (Response.mk 500 (Failure InternalServerError))).

End Endpoint.

(** A string [trim] leaves something of. *)
Definition nonBlank (v : JsValue) : Prop :=
  exists s, v = JString s /\ trim s <> [].

(** The bodies the endpoint answers with an analysis: an object whose
    [input] is a string that is not blank, or whose [input] is undefined
    and whose [inputs] is an array that is not empty. *)
Definition accepted (body : JsValue) : Prop :=
  exists fields,
    body = JObject fields /\
    (nonBlank (lookup "input" fields) \/
     (lookup "input" fields = JUndefined /\
      exists items, lookup "inputs" fields = JArray items /\ items <> [])).

(** The strings of a batch that are analysed: the items that are strings
    and are not blank, trimmed. *)
Definition batchInputs (items : list JsValue) : list jsstring :=
  flat_map
    (fun item =>
       match item with
       | JString s => if truthy (trim s) then [trim s] else []
       | _ => []
       end)
    items.

End Server.

(* ------------------------------------------------------------------ *)
(** * The probes on known inputs *)
(* ------------------------------------------------------------------ *)

Example rot13_Uryyb : decodeROT13 (js "Uryyb") = Some (js "Hello").
Proof. reflexivity. Qed.

Example binary_Hello :
  decodeBinary (js "0100100001100101011011000110110001101111") = Some (js "Hello").
Proof. vm_compute. reflexivity. Qed.

Example octal_Hello : decodeOctal (js "110145154154157") = Some (js "Hello").
Proof. vm_compute. reflexivity. Qed.

Example base64_Hello_World :
  safeBase64Decode (js "SGVsbG8gV29ybGQ=") = Some (js "Hello World") /\
  safeBase64Decode (js "SGVsbG8gV29ybGQ") = Some (js "Hello World").
Proof. split; vm_compute; reflexivity. Qed.

Example hex_Hello_World :
  safeHexDecode (js "48656c6c6f20576f726c64") = Some (js "Hello World") /\
  safeHexDecode (js "486") = None.
Proof. split; vm_compute; reflexivity. Qed.

Example html_entities :
  decodeHTML (js "&amp;lt; &#65;&#200;") = Some (js "< A&#200;") /\
  decodeHTML (js "plain") = None.
Proof. split; vm_compute; reflexivity. Qed.

Example charset_samples :
  getCharset (js "SGVsbG8gV29ybGQ=") = "base64"%string /\
  getCharset (js "hello world") = "ascii"%string /\
  getCharset [0x20AC%N] = "unknown"%string.
Proof. repeat split. Qed.

(* ------------------------------------------------------------------ *)
(** * Character classes *)
(* ------------------------------------------------------------------ *)

Section Charset.

Lemma hexChar_base64Char c : isHexChar c = true -> isBase64Char c = true.
Proof.
  unfold isHexChar, isBase64Char, inRange.
  rewrite !orb_true_iff, !andb_true_iff, !N.leb_le, !N.eqb_eq. lia.
Qed.

Lemma hex_base64Tail s : forallb isHexChar s = true -> base64Tail s = true.
Proof.
  induction s as [|c s IH]; simpl; [reflexivity|].
  rewrite andb_true_iff. intros [Hc Hs].
  rewrite (hexChar_base64Char _ Hc). auto.
Qed.

Lemma isHex_isBase64 s : isHex s = true -> isBase64 s = true.
Proof.
  destruct s as [|c s]; [discriminate|].
  unfold isHex, isBase64; simpl.
  rewrite !andb_true_iff. intros [Hc Hs].
  split; [apply hexChar_base64Char, Hc | apply hex_base64Tail, Hs].
Qed.

Lemma hexAlphabet_isHexChar c :
  In c (js "0123456789abcdefABCDEF") -> isHexChar c = true.
Proof.
  simpl. intros H.
  repeat (destruct H as [<- | H]; [reflexivity|]). contradiction.
Qed.

Lemma hexAlphabet_isHex s :
  s <> [] -> (forall c, In c s -> In c (js "0123456789abcdefABCDEF")) ->
  isHex s = true.
Proof.
  intros Hne Hs. unfold isHex.
  destruct s as [|c s]; [congruence|]. cbn [truthy andb].
  apply forallb_forall. intros x Hx. apply hexAlphabet_isHexChar, Hs, Hx.
Qed.

Lemma getCharset_values s :
  getCharset s = "hex"%string \/ getCharset s = "base64"%string \/
  getCharset s = "ascii"%string \/ getCharset s = "unknown"%string.
Proof.
  unfold getCharset.
  destruct (isHex s); [auto|].
  destruct (isBase64 s); [auto|].
  destruct (isAscii s); auto.
Qed.

Lemma getCharset_not_alphanum s : getCharset s <> "alphanum"%string.
Proof.
  destruct (getCharset_values s) as [H|[H|[H|H]]]; rewrite H; discriminate.
Qed.

End Charset.

(** C7. [getCharset] tries the hexadecimal class first, then the base64
    class, then 7-bit ASCII, and answers ['unknown'] otherwise.  A non-empty
    string over [0-9a-fA-F] also matches the base64 class, yet it is
    classified as ['hex'], because that test comes first; in particular
    [getCharset("deadbeef")] is ['hex']. *)
Theorem getCharset_priority :
  (forall s, isHex s = true -> getCharset s = "hex"%string) /\
  (forall s, isHex s = false -> isBase64 s = true -> getCharset s = "base64"%string) /\
  (forall s, isHex s = false -> isBase64 s = false -> isAscii s = true ->
             getCharset s = "ascii"%string) /\
  (forall s, isHex s = false -> isBase64 s = false -> isAscii s = false ->
             getCharset s = "unknown"%string) /\
  (forall s, s <> [] ->
             (forall c, In c s -> In c (js "0123456789abcdefABCDEF")) ->
             isBase64 s = true /\
             getCharset s = "hex"%string /\ getCharset s <> "base64"%string) /\
  getCharset (js "deadbeef") = "hex"%string.
Proof.
  repeat split; try (intros s; unfold getCharset; intros; repeat
    match goal with H : _ = _ |- _ => rewrite H; clear H end; reflexivity).
  - apply isHex_isBase64, hexAlphabet_isHex; assumption.
  - unfold getCharset. rewrite hexAlphabet_isHex; auto.
  - unfold getCharset. rewrite hexAlphabet_isHex; auto. discriminate.
Qed.

Lemma getCharset_priority_witness :
  isBase64 (js "deadbeef") = true /\
  getCharset (js "deadbeef") = "hex"%string /\
  getCharset (js "deadbeef") <> "base64"%string.
Proof.
  apply (proj1 (proj2 (proj2 (proj2 (proj2 getCharset_priority))))).
  - discriminate.
  - intros c H. simpl in H. simpl.
    repeat (destruct H as [<- | H]; [tauto|]). contradiction.
Defined.

(* ------------------------------------------------------------------ *)
(** * The scorer: every weight comes with its evidence *)
(* ------------------------------------------------------------------ *)

Section Scorer.

Variable RegExp_test : string -> jsstring -> option bool.

Lemma totalWeight_app l reason :
  totalWeight (l ++ [reason]) = totalWeight l + weightOf reason.
Proof.
  induction l as [|x l IH]; simpl; [lra|]. rewrite IH. lra.
Qed.

Lemma accounted_add w reason s :
  w = weightOf reason -> ~ isVariation reason ->
  accounted s -> accounted (add w reason s).
Proof.
  intros -> Hv [Hs Hf]. split; simpl.
  - rewrite totalWeight_app, Hs. reflexivity.
  - apply Forall_app. split; [assumption | constructor; [assumption | constructor]].
Qed.

Ltac accounted_step :=
  repeat match goal with
         | |- accounted (add _ _ _) =>
             apply accounted_add; [reflexivity | simpl; tauto | ]
         | |- accounted (match ?x with _ => _ end) => destruct x eqn:?
         | |- accounted (if ?x then _ else _) => destruct x eqn:?
         | |- accounted (fst (if ?x then _ else _)) => destruct x eqn:?
         | |- accounted (fst (match ?x with _ => _ end)) => destruct x eqn:?
         | |- accounted (fst (_, _)) => cbn [fst]
         | |- accounted _ => assumption
         end.

Lemma regexStep_accounted input pattern s :
  accounted s -> accounted (regexStep RegExp_test input pattern s).
Proof. intros H. unfold regexStep. accounted_step. Qed.

Lemma prefixStep_accounted input pattern s :
  accounted s -> accounted (fst (prefixStep input pattern s)).
Proof. intros H. unfold prefixStep. accounted_step. Qed.

Lemma lengthStep_accounted inputLength pattern s :
  accounted s -> accounted (lengthStep inputLength pattern s).
Proof. intros H. unfold lengthStep. accounted_step. Qed.

Lemma suffixStep_accounted input pattern s :
  accounted s -> accounted (suffixStep input pattern s).
Proof. intros H. unfold suffixStep. accounted_step. Qed.

Lemma entropyStep_accounted inputLength entropy s :
  accounted s -> accounted (entropyStep inputLength entropy s).
Proof. intros H. unfold entropyStep. accounted_step. Qed.

Lemma decodingStep_accounted input pattern s :
  accounted s -> accounted (decodingStep input pattern s).
Proof. intros H. unfold decodingStep. cbv zeta. accounted_step. Qed.

Lemma signatureStep_accounted pattern b s :
  accounted s -> accounted (signatureStep pattern b s).
Proof. intros H. unfold signatureStep. accounted_step. Qed.

(** The guard of the variation branch is false whenever the direct charset
    test failed on the input's own class. *)
Lemma variation_guard input patternCharset :
  String.eqb patternCharset (getCharset input) = false ->
  String.eqb patternCharset "hex"
  && (String.eqb (getCharset input) "hex" || String.eqb (getCharset input) "alphanum")
  = false.
Proof.
  intros Hne.
  destruct (String.eqb_spec patternCharset "hex") as [->|]; [|reflexivity].
  destruct (String.eqb_spec (getCharset input) "alphanum") as [Ha|_].
  - exfalso. exact (getCharset_not_alphanum _ Ha).
  - destruct (String.eqb_spec (getCharset input) "hex") as [He|_]; [|reflexivity].
    rewrite He in Hne. discriminate.
Qed.

Lemma charsetStep_accounted input pattern s :
  accounted s -> accounted (charsetStep input (getCharset input) pattern s).
Proof.
  intros H. unfold charsetStep.
  destruct (HashPattern.charset pattern) as [pc|]; [|assumption].
  destruct (truthyText pc); [|assumption].
  destruct (String.eqb pc (getCharset input)) eqn:Hdirect;
    destruct (decodedCharsetIs (safeBase64Decode input) pc);
    destruct (decodedCharsetIs (safeHexDecode input) pc);
    cbn [negb andb];
    try rewrite (variation_guard _ _ Hdirect);
    accounted_step.
Qed.

Lemma scorePattern_accounted input pattern :
  accounted (scorePattern RegExp_test input (strlen input) (getCharset input)
                          (shannonEntropy input) pattern).
Proof.
  unfold scorePattern.
  set (s0 := Scoring.mk 0 []).
  assert (H0 : accounted s0) by (split; simpl; [reflexivity | constructor]).
  pose proof (prefixStep_accounted input pattern (regexStep_accounted input pattern H0)) as H1.
  destruct (prefixStep input pattern (regexStep RegExp_test input pattern s0))
    as [s1 hasPrefixMatch]. cbn [fst] in H1.
  apply signatureStep_accounted, decodingStep_accounted, entropyStep_accounted,
    suffixStep_accounted, charsetStep_accounted, lengthStep_accounted, H1.
Qed.

Lemma weightOf_nonneg reason : 0 <= weightOf reason.
Proof. destruct reason; simpl; lra. Qed.

Lemma totalWeight_nonneg l : 0 <= totalWeight l.
Proof.
  induction l as [|x l IH]; simpl; [lra|].
  pose proof (weightOf_nonneg x). lra.
Qed.

(** What an emitted result says about the pattern it was emitted for. *)
Lemma candidate_inv input inputLength charset entropy pattern patternId r :
  In r (candidate RegExp_test input inputLength charset entropy pattern patternId) ->
  let s := scorePattern RegExp_test input inputLength charset entropy pattern in
  0.25 <= Scoring.score s /\
  DetectionResult.id r = patternId /\
  DetectionResult.name r = HashPattern.name pattern /\
  DetectionResult.score r = Rmin (Scoring.score s) 1 /\
  DetectionResult.reasons r = Scoring.reasons s /\
  tierOf (DetectionResult.score r) (DetectionResult.color r).
Proof.
  intros H. cbv zeta. unfold candidate in H.
  set (s := scorePattern RegExp_test input inputLength charset entropy pattern) in *.
  destruct (Rge_dec (Scoring.score s) 0.25) as [Hin|]; [|contradiction].
  destruct H as [<-|[]]. cbn.
  assert (Hmin : Rmin (Scoring.score s) 1.0 = Rmin (Scoring.score s) 1)
    by (f_equal; lra).
  rewrite Hmin. clear Hmin.
  unfold tierOf. repeat split; try lra; unfold Rmin;
    destruct (Rle_dec (Scoring.score s) 1);
    destruct (Rgt_dec (Scoring.score s) 0.8);
    destruct (Rge_dec (Scoring.score s) 0.55);
    intros; try reflexivity; lra.
Qed.

Lemma candidate_length input inputLength charset entropy pattern patternId :
  (List.length (candidate RegExp_test input inputLength charset entropy pattern patternId)
   <= 1)%nat.
Proof. unfold candidate. destruct Rge_dec; simpl; lia. Qed.

End Scorer.

(* ------------------------------------------------------------------ *)
(** * Sorting by a real key, highest first *)
(* ------------------------------------------------------------------ *)

Section Precedes.
Variable A : Type.
Implicit Types (a b x : A) (l : list A).






End Precedes.

Section SortByKey.
Variable A : Type.
Variable key : A -> R.

(** The comparator [(a, b) => key(b) - key(a)]. *)
Let descending (a b : A) : R := key b - key a.

Lemma insert_In a x l : In a (insert descending x l) <-> a = x \/ In a l.
Proof.
  induction l as [|y l IH]; simpl.
  - intuition congruence.
  - destruct (Rlt_dec 0 (descending x y)); simpl; rewrite ?IH; intuition congruence.
Qed.

Lemma sort_In a l : In a (sort descending l) <-> In a l.
Proof.
  induction l as [|x l IH]; simpl; [tauto|].
  rewrite insert_In, IH. intuition congruence.
Qed.

Lemma insert_length x l :
  List.length (insert descending x l) = S (List.length l).
Proof.
  induction l as [|y l IH]; simpl; [reflexivity|].
  destruct (Rlt_dec 0 (descending x y)); simpl; congruence.
Qed.

Lemma sort_length l : List.length (sort descending l) = List.length l.
Proof.
  induction l as [|x l IH]; simpl; [reflexivity|].
  rewrite insert_length, IH. reflexivity.
Qed.

Lemma insert_sorted x l :
  StronglySorted (notBelow key) l -> StronglySorted (notBelow key) (insert descending x l).
Proof.
  induction 1 as [|y l Hs IH Hy]; simpl.
  - constructor; constructor.
  - unfold descending at 1. destruct (Rlt_dec 0 (key y - key x)) as [Hlt|Hge].
    + constructor; [assumption|].
      apply Forall_forall. intros z Hz. apply insert_In in Hz as [->|Hz].
      * unfold notBelow. lra.
      * rewrite Forall_forall in Hy. apply Hy, Hz.
    + constructor; [constructor; assumption|].
      constructor; [unfold notBelow; lra|].
      rewrite Forall_forall in Hy |- *. intros z Hz.
      specialize (Hy z Hz). unfold notBelow in *. lra.
Qed.

Lemma sort_sorted l : StronglySorted (notBelow key) (sort descending l).
Proof.
  induction l as [|x l IH]; simpl; [constructor | apply insert_sorted, IH].
Qed.


End SortByKey.




(* ------------------------------------------------------------------ *)
(** * [detectCandidates] *)
(* ------------------------------------------------------------------ *)

Section Ranking.

Variable RegExp_test : string -> jsstring -> option bool.
Variable hashPatterns : list (string * HashPattern.t).

Lemma candidates_emitted input :
  candidates RegExp_test hashPatterns input
  = flat_map (emitted RegExp_test input) hashPatterns.
Proof.
  unfold candidates, emitted. cbv zeta.
  induction hashPatterns as [|[patternId pattern] l IH]; simpl; [reflexivity|].
  rewrite IH. reflexivity.
Qed.

Lemma emitted_length input entry :
  (List.length (emitted RegExp_test input entry) <= 1)%nat.
Proof. apply candidate_length. Qed.

Lemma In_firstn {A} n (l : list A) x : In x (firstn n l) -> In x l.
Proof.
  intros H. rewrite <- (firstn_skipn n l). apply in_or_app. left. exact H.
Qed.

Lemma detectCandidates_eq input :
  detectCandidates RegExp_test hashPatterns input
  = if truthy input
    then firstn 3 (sort (fun a b => DetectionResult.score b - DetectionResult.score a)
                        (candidates RegExp_test hashPatterns input))
    else [].
Proof. unfold detectCandidates. destruct (truthy input); reflexivity. Qed.

Lemma detectCandidates_In input r :
  In r (detectCandidates RegExp_test hashPatterns input) ->
  exists entry, In entry hashPatterns /\ In r (emitted RegExp_test input entry).
Proof.
  rewrite detectCandidates_eq. destruct (truthy input); [|contradiction].
  intros H. apply In_firstn in H.
  apply (proj1 (sort_In DetectionResult.score _ _)) in H.
  rewrite candidates_emitted in H. apply in_flat_map in H. exact H.
Qed.

Lemma detectCandidates_length input :
  (List.length (detectCandidates RegExp_test hashPatterns input) <= 3)%nat.
Proof.
  rewrite detectCandidates_eq. destruct (truthy input); [|simpl; lia].
  apply firstn_le_length.
Qed.



Lemma emitted_score_bounds input entry r :
  In r (emitted RegExp_test input entry) ->
  0.25 <= DetectionResult.score r <= 1.
Proof.
  intros H. apply candidate_inv in H. cbv zeta in H.
  destruct H as (Hpre & _ & _ & Hs & _). rewrite Hs.
  unfold Rmin. destruct Rle_dec; lra.
Qed.

End Ranking.

(** C10. The charset-variation branch never fires.  For every input and
    descriptor the score is the sum of the weights of the recorded evidence,
    and no ['Charset variation match'] is ever recorded, neither by the
    scorer nor in a result of [detectCandidates].  The reason:
    [getCharset] answers ['hex'], ['base64'], ['ascii'] or
    ['unknown'], never ['alphanum'], and when it answers ['hex'] for a
    descriptor tagged ['hex'] the direct match has fired; so the guard of the
    branch is false whenever the direct match failed. *)
Theorem charset_variation_never_fires :
  forall (RegExp_test : string -> jsstring -> option bool)
         (input : jsstring) (pattern : HashPattern.t),
    let s := scorePattern RegExp_test input (strlen input) (getCharset input)
                          (shannonEntropy input) pattern in
    Scoring.score s = totalWeight (Scoring.reasons s) /\
    (forall reason, In reason (Scoring.reasons s) -> ~ isVariation reason) /\
    (forall hashPatterns r reason,
        In r (detectCandidates RegExp_test hashPatterns input) ->
        In reason (DetectionResult.reasons r) -> ~ isVariation reason) /\
    In (getCharset input) ["hex"; "base64"; "ascii"; "unknown"]%string /\
    getCharset input <> "alphanum"%string /\
    (forall patternCharset,
        String.eqb patternCharset (getCharset input) = false ->
        String.eqb patternCharset "hex"
        && (String.eqb (getCharset input) "hex"
            || String.eqb (getCharset input) "alphanum") = false).
Proof.
  intros RegExp_test input pattern s.
  destruct (scorePattern_accounted RegExp_test input pattern) as [Hsum Hnone].
  fold s in Hsum, Hnone. rewrite Forall_forall in Hnone.
  repeat split.
  - exact Hsum.
  - exact Hnone.
  - intros hashPatterns r reason Hr Hreason.
    apply detectCandidates_In in Hr as ([patternId pattern'] & _ & Hr).
    apply candidate_inv in Hr. cbv zeta in Hr.
    destruct Hr as (_ & _ & _ & _ & Hreasons & _).
    rewrite Hreasons in Hreason.
    destruct (scorePattern_accounted RegExp_test input pattern') as [_ Hnone'].
    rewrite Forall_forall in Hnone'. exact (Hnone' _ Hreason).
  - destruct (getCharset_values input) as [H|[H|[H|H]]]; rewrite H; simpl; tauto.
  - apply getCharset_not_alphanum.
  - apply variation_guard.
Qed.

(** C4. Every result [detectCandidates] emits comes from a descriptor of the
    catalog whose score before clamping is at least 0.25; its score is that
    score clamped to 1, so it lies in [0, 1]; and its tier is green above
    0.80, yellow from 0.55 to 0.80, red from 0.25 up to 0.55.  A descriptor
    whose score is below 0.25 emits nothing. *)
Theorem detection_score_and_tier :
  forall (RegExp_test : string -> jsstring -> option bool)
         (hashPatterns : list (string * HashPattern.t)) (input : jsstring),
    (forall r,
        In r (detectCandidates RegExp_test hashPatterns input) ->
        0 <= DetectionResult.score r <= 1 /\
        tierOf (DetectionResult.score r) (DetectionResult.color r) /\
        exists patternId pattern,
          In (patternId, pattern) hashPatterns /\
          DetectionResult.id r = patternId /\
          let score := Scoring.score
                         (scorePattern RegExp_test input (strlen input)
                            (getCharset input) (shannonEntropy input) pattern) in
          0.25 <= score /\ DetectionResult.score r = Rmin score 1) /\
    (forall patternId pattern,
        Scoring.score (scorePattern RegExp_test input (strlen input)
                         (getCharset input) (shannonEntropy input) pattern) < 0.25 ->
        emitted RegExp_test input (patternId, pattern) = []).
Proof.
  intros RegExp_test hashPatterns input. split.
  - intros r Hr.
    apply detectCandidates_In in Hr as ([patternId pattern] & Hentry & Hr).
    pose proof (emitted_score_bounds _ _ _ _ Hr) as Hb.
    apply candidate_inv in Hr. cbv zeta in Hr. cbn [fst snd] in Hr.
    destruct Hr as (Hpre & Hid & _ & Hs & _ & Htier).
    split; [lra|]. split; [exact Htier|].
    exists patternId, pattern. cbv zeta. auto.
  - intros patternId pattern Hlow. unfold emitted, candidate. cbn [fst snd].
    destruct Rge_dec as [Hge|]; [lra | reflexivity].
Qed.

(* ------------------------------------------------------------------ *)
(** * [analyzeInput] *)
(* ------------------------------------------------------------------ *)

Section Analysis.

Variable RegExp_test : string -> jsstring -> option bool.
Variable decodeURIComponent : jsstring -> completion jsstring.
Variable hashPatterns : list (string * HashPattern.t).

Local Abbreviation analyze := (analyzeInput RegExp_test decodeURIComponent hashPatterns).
Local Abbreviation analyze_try := (analyzeInput_try RegExp_test decodeURIComponent hashPatterns).
Local Abbreviation detect := (detectCandidates RegExp_test hashPatterns).

Lemma analyzeInput_try_empty :
  analyze_try [] = Throw (Error "Invalid input: must be a non-empty string").
Proof. reflexivity. Qed.

Lemma analyzeInput_try_too_long input :
  input <> [] -> (10000 < strlen input)%Z ->
  analyze_try input
  = Throw (Error "Input too long: maximum 10,000 characters allowed").
Proof.
  intros Hne Hlong. unfold analyzeInput_try.
  destruct input as [|c t]; [congruence|]. cbn [truthy negb throwIf bind].
  apply Z.ltb_lt in Hlong. rewrite Hlong. reflexivity.
Qed.

(** The record built when validation passes. *)
Lemma analyzeInput_try_valid input :
  validInput input ->
  analyze_try input
  = Normal
      (AnalysisResult.mk
         input
         (match detect input with [] => [unknownResult] | _ :: _ => detect input end)
         (getCharStats input)
         (Decoding.mk
            (stored (safeBase64Decode input))
            (stored (safeHexDecode input))
            (stored (decodeROT13 input))
            (stored (decodeURL decodeURIComponent input))
            (stored (decodeBinary input))
            (stored (decodeOctal input))
            (stored (decodeUnicode input))
            (stored (decodeHTML input)))
         [ ("total", CharStats.total (getCharStats input));
           ("unique", CharStats.unique (getCharStats input));
           ("digits", CharStats.digits (getCharStats input));
           ("letters", CharStats.letters (getCharStats input));
           ("special", CharStats.special (getCharStats input)) ]%string).
Proof.
  intros [Hne Hlen]. unfold analyzeInput_try.
  destruct input as [|c t] eqn:E; [congruence|]. rewrite <- E in *.
  assert (Ht : truthy input = true) by (rewrite E; reflexivity).
  rewrite Ht. cbn [negb throwIf bind].
  apply Z.ltb_ge in Hlen. rewrite Hlen. cbn [throwIf bind]. cbv zeta.
  destruct (detect input); reflexivity.
Qed.

Lemma analyzeInput_caught input error :
  analyze_try input = Throw error ->
  analyze input = Normal (fallback input error).
Proof. unfold analyzeInput. intros ->. reflexivity. Qed.

Lemma analyzeInput_returned input r :
  analyze_try input = Normal r -> analyze input = Normal r.
Proof. unfold analyzeInput. intros ->. reflexivity. Qed.

(** Every string is empty, too long, or valid. *)
Lemma input_cases (input : jsstring) :
  input = [] \/ (input <> [] /\ (10000 < strlen input)%Z) \/ validInput input.
Proof.
  destruct input as [|c t]; [left; reflexivity|].
  destruct (Z.lt_ge_cases 10000 (strlen (c :: t))).
  - right. left. split; [discriminate | assumption].
  - right. right. split; [discriminate | assumption].
Qed.

Lemma stored_not_empty d : stored d <> Some [].
Proof. unfold stored. destruct d as [[|c t]|]; simpl; discriminate. Qed.

Lemma fallback_wellFormed input error : wellFormed input (fallback input error).
Proof.
  unfold wellFormed, fallback; cbn. repeat split; try lia.
  constructor; [cbn; lra | constructor].
Qed.

Lemma detect_scores input :
  Forall (fun d => 0 <= DetectionResult.score d <= 1) (detect input).
Proof.
  apply Forall_forall. intros r Hr.
  apply detectCandidates_In in Hr as (entry & _ & Hr).
  apply emitted_score_bounds in Hr. lra.
Qed.

Lemma getCharStats_total input : CharStats.total (getCharStats input) = strlen input.
Proof. destruct input; reflexivity. Qed.

Lemma valid_wellFormed input r :
  validInput input -> analyze_try input = Normal r -> wellFormed input r.
Proof.
  intros Hv Hr. rewrite (analyzeInput_try_valid Hv) in Hr. injection Hr as <-.
  unfold wellFormed; cbn. split; [reflexivity|].
  pose proof (detectCandidates_length RegExp_test hashPatterns input) as Hlen.
  pose proof (detect_scores input) as Hsc.
  destruct (detect input) as [|d l].
  - repeat split; try (simpl; lia); [|apply getCharStats_total].
    constructor; [cbn; lra | constructor].
  - repeat split; try (simpl in *; lia); [assumption | apply getCharStats_total].
Qed.

End Analysis.

(** C2. For every string, [analyzeInput] returns a well-formed analysis
    record and throws nothing.  Whatever the [try] block throws is caught:
    the record returned is then the fallback one, whose single result has
    identifier ['error'] and the evidence ['analysis failed: '] followed by
    the message of the error.  This is what happens for the empty string and
    for a string of more than 10,000 characters. *)
Theorem analyzeInput_total :
  forall (RegExp_test : string -> jsstring -> option bool)
         (decodeURIComponent : jsstring -> completion jsstring)
         (hashPatterns : list (string * HashPattern.t)) (input : jsstring),
  exists r,
    analyzeInput RegExp_test decodeURIComponent hashPatterns input = Normal r /\
    wellFormed input r /\
    (forall error,
        analyzeInput_try RegExp_test decodeURIComponent hashPatterns input
        = Throw error ->
        r = fallback input error /\
        AnalysisResult.results r = [errorResult error] /\
        DetectionResult.id (errorResult error) = "error"%string /\
        exists message,
          DetectionResult.reasons (errorResult error)
          = [Text ("analysis failed: " ++ message)]) /\
    (input = [] ->
     AnalysisResult.results r
     = [errorResult (Error "Invalid input: must be a non-empty string")]) /\
    ((10000 < strlen input)%Z ->
     AnalysisResult.results r
     = [errorResult (Error "Input too long: maximum 10,000 characters allowed")]).
Proof.
  intros RegExp_test decodeURIComponent hashPatterns input.
  assert (Hcaught : forall error,
             analyzeInput_try RegExp_test decodeURIComponent hashPatterns input
             = Throw error ->
             exists r,
               analyzeInput RegExp_test decodeURIComponent hashPatterns input = Normal r /\
               wellFormed input r /\ r = fallback input error).
  { intros error H. exists (fallback input error).
    split; [apply analyzeInput_caught, H|]. split; [apply fallback_wellFormed | reflexivity]. }
  destruct (input_cases input) as [-> | [[Hne Hlong] | Hv]].
  - destruct (Hcaught _ (analyzeInput_try_empty RegExp_test decodeURIComponent hashPatterns))
      as (r & Hr & Hwf & ->).
    exists (fallback [] (Error "Invalid input: must be a non-empty string")).
    split; [exact Hr|]. split; [exact Hwf|]. split; [|split].
    + intros error H. rewrite analyzeInput_try_empty in H. injection H as <-.
      repeat split. eexists. reflexivity.
    + reflexivity.
    + intros H. cbn in H. lia.
  - pose proof (analyzeInput_try_too_long RegExp_test decodeURIComponent hashPatterns
                  Hne Hlong) as Htry.
    destruct (Hcaught _ Htry) as (r & Hr & Hwf & ->).
    eexists. split; [exact Hr|]. split; [exact Hwf|]. split; [|split].
    + intros error H. rewrite Htry in H. injection H as <-.
      repeat split. eexists. reflexivity.
    + intros ->. congruence.
    + reflexivity.
  - pose proof (analyzeInput_try_valid RegExp_test decodeURIComponent hashPatterns Hv)
      as Htry.
    eexists. split; [apply analyzeInput_returned, Htry|].
    split; [eapply valid_wellFormed; eassumption|]. split; [|split].
    + intros error H. rewrite Htry in H. discriminate.
    + intros ->. destruct Hv as [Hne _]. congruence.
    + intros H. destruct Hv as [_ Hlen]. lia.
Qed.

(** C1, as the code has it.  An empty string and a string of more than
    10,000 characters are not rejected: the error thrown by the validation
    is caught inside [analyzeInput], which returns the fallback record.  Its
    single result has identifier ['error'], score 0, tier red, and the
    evidence ['analysis failed: '] followed by the validation message. *)
Theorem invalid_input_is_downgraded :
  forall (RegExp_test : string -> jsstring -> option bool)
         (decodeURIComponent : jsstring -> completion jsstring)
         (hashPatterns : list (string * HashPattern.t)) (input : jsstring),
    input = [] \/ (10000 < strlen input)%Z ->
    let message :=
      match input with
      | [] => "Invalid input: must be a non-empty string"%string
      | _ :: _ => "Input too long: maximum 10,000 characters allowed"%string
      end in
    analyzeInput_try RegExp_test decodeURIComponent hashPatterns input
    = Throw (Error message) /\
    analyzeInput RegExp_test decodeURIComponent hashPatterns input
    = Normal (fallback input (Error message)) /\
    AnalysisResult.results (fallback input (Error message))
    = [DetectionResult.mk "error" "Analysis Error" 0.0 red
         [Text ("analysis failed: " ++ message)]] /\
    AnalysisResult.decoding (fallback input (Error message)) = Decoding.empty /\
    AnalysisResult.freq (fallback input (Error message)) = [].
Proof.
  intros RegExp_test decodeURIComponent hashPatterns input Hbad message.
  assert (Htry : analyzeInput_try RegExp_test decodeURIComponent hashPatterns input
                 = Throw (Error message)).
  { destruct input as [|c t]; [reflexivity|].
    destruct Hbad as [H|H]; [discriminate|].
    apply analyzeInput_try_too_long; [discriminate | exact H]. }
  split; [exact Htry|]. split; [apply analyzeInput_caught, Htry|].
  repeat split.
Qed.

Lemma invalid_input_is_downgraded_witness :
  analyzeInput RegExp_none decodeURIComponent_plain md5Catalog
               (repeat 97%N (Z.to_nat 10001))
  = Normal (fallback (repeat 97%N (Z.to_nat 10001))
              (Error "Input too long: maximum 10,000 characters allowed")).
Proof.
  refine (proj1 (proj2 (@invalid_input_is_downgraded
                          RegExp_none decodeURIComponent_plain md5Catalog
                          (repeat 97%N (Z.to_nat 10001)) _))).
  right. vm_compute. reflexivity.
Defined.

(** C1, counterexample: on the empty string [analyzeInput] returns a record
    (the fallback one) instead of failing. *)
Lemma empty_input_is_not_rejected :
  analyzeInput RegExp_none decodeURIComponent_plain md5Catalog (js "")
  = Normal (fallback (js "") (Error "Invalid input: must be a non-empty string")) /\
  ~ (exists error,
        analyzeInput RegExp_none decodeURIComponent_plain md5Catalog (js "")
        = Throw error).
Proof.
  split; [reflexivity|]. intros [error H]. discriminate.
Qed.



(** C6. When no descriptor of the catalog reaches the inclusion threshold
    0.25 on a valid input (so, in particular, when the catalog is empty),
    [analyzeInput] returns exactly one result, the sentinel: identifier
    ['unknown'], name ['Unknown'], score 0, tier red, evidence
    [['no patterns matched']]. *)
Theorem no_candidate_gives_unknown :
  forall (RegExp_test : string -> jsstring -> option bool)
         (decodeURIComponent : jsstring -> completion jsstring)
         (hashPatterns : list (string * HashPattern.t)) (input : jsstring),
    validInput input ->
    (forall patternId pattern,
        In (patternId, pattern) hashPatterns ->
        Scoring.score (scorePattern RegExp_test input (strlen input)
                         (getCharset input) (shannonEntropy input) pattern) < 0.25) ->
    exists r,
      analyzeInput RegExp_test decodeURIComponent hashPatterns input = Normal r /\
      AnalysisResult.results r = [unknownResult] /\
      DetectionResult.id unknownResult = "unknown"%string /\
      DetectionResult.name unknownResult = "Unknown"%string /\
      DetectionResult.score unknownResult = 0 /\
      DetectionResult.color unknownResult = red /\
      DetectionResult.reasons unknownResult = [Text "no patterns matched"].
Proof.
  intros RegExp_test decodeURIComponent hashPatterns input Hv Hlow.
  eexists. split.
  { apply analyzeInput_returned, analyzeInput_try_valid, Hv. }
  cbn [AnalysisResult.results].
  assert (Hnone : detectCandidates RegExp_test hashPatterns input = []).
  { destruct (detectCandidates RegExp_test hashPatterns input) as [|d l] eqn:E;
      [reflexivity|]. exfalso.
    assert (Hd : In d (detectCandidates RegExp_test hashPatterns input))
      by (rewrite E; left; reflexivity).
    apply detectCandidates_In in Hd as ([patternId pattern] & Hentry & Hd).
    apply candidate_inv in Hd. cbv zeta in Hd. cbn [fst snd] in Hd.
    destruct Hd as (Hpre & _). specialize (Hlow _ _ Hentry). lra. }
  rewrite Hnone. repeat split. cbn. lra.
Qed.

Lemma no_candidate_gives_unknown_witness :
  exists r,
    analyzeInput RegExp_none decodeURIComponent_plain [] (js "abc") = Normal r /\
    AnalysisResult.results r = [unknownResult] /\
    DetectionResult.id unknownResult = "unknown"%string /\
    DetectionResult.name unknownResult = "Unknown"%string /\
    DetectionResult.score unknownResult = 0 /\
    DetectionResult.color unknownResult = red /\
    DetectionResult.reasons unknownResult = [Text "no patterns matched"].
Proof.
  apply (@no_candidate_gives_unknown RegExp_none decodeURIComponent_plain [] (js "abc")).
  - split; [discriminate | vm_compute; discriminate].
  - intros patternId pattern H. destruct H.
Defined.

Lemma rot13_no_letters input :
  existsb isLetterChar input = false -> decodeROT13 input = Some input.
Proof.
  intros H. unfold decodeROT13. f_equal.
  induction input as [|c t IH]; simpl in *; [reflexivity|].
  apply orb_false_iff in H as [Hc Ht]. rewrite Hc, (IH Ht). reflexivity.
Qed.

(** C9, as the code has it.  [decodeROT13] has no precondition: for every
    valid input the analysis record holds the key [rot13], with the input
    rotated letter by letter; for an input without ASCII letters it holds
    the input itself.  No key of the decoding object is ever stored as an
    empty string (an absent result leaves the key out). *)
Theorem rot13_always_present :
  forall (RegExp_test : string -> jsstring -> option bool)
         (decodeURIComponent : jsstring -> completion jsstring)
         (hashPatterns : list (string * HashPattern.t)) (input : jsstring),
    validInput input ->
    exists r,
      analyzeInput RegExp_test decodeURIComponent hashPatterns input = Normal r /\
      Decoding.rot13 (AnalysisResult.decoding r) = decodeROT13 input /\
      Decoding.rot13 (AnalysisResult.decoding r) <> None /\
      (existsb isLetterChar input = false ->
       Decoding.rot13 (AnalysisResult.decoding r) = Some input) /\
      (forall key, In key (decodingKeys (AnalysisResult.decoding r)) -> key <> Some []).
Proof.
  intros RegExp_test decodeURIComponent hashPatterns input Hv.
  eexists. split.
  { apply analyzeInput_returned, analyzeInput_try_valid, Hv. }
  cbn [AnalysisResult.decoding Decoding.rot13].
  assert (Hrot : stored (decodeROT13 input) = decodeROT13 input).
  { destruct Hv as [Hne _]. destruct input as [|c t]; [congruence|]. reflexivity. }
  rewrite Hrot. split; [reflexivity|]. split; [discriminate|]. split.
  - apply rot13_no_letters.
  - intros key Hkey. unfold decodingKeys in Hkey.
    cbn [AnalysisResult.decoding Decoding.base64 Decoding.hex Decoding.rot13
         Decoding.url Decoding.binary Decoding.octal Decoding.unicode
         Decoding.html In] in Hkey.
    rewrite <- Hrot in Hkey.
    repeat (destruct Hkey as [<-|Hkey]; [apply stored_not_empty|]). contradiction.
Qed.

Lemma rot13_always_present_witness :
  exists r,
    analyzeInput RegExp_none decodeURIComponent_plain md5Catalog (js "123") = Normal r /\
    Decoding.rot13 (AnalysisResult.decoding r) = decodeROT13 (js "123") /\
    Decoding.rot13 (AnalysisResult.decoding r) <> None /\
    (existsb isLetterChar (js "123") = false ->
     Decoding.rot13 (AnalysisResult.decoding r) = Some (js "123")) /\
    (forall key, In key (decodingKeys (AnalysisResult.decoding r)) -> key <> Some []).
Proof.
  apply (@rot13_always_present RegExp_none decodeURIComponent_plain md5Catalog (js "123")).
  split; [discriminate | vm_compute; discriminate].
Defined.

(** C9, counterexample: ["123"] is a valid input without ASCII letters, and
    the record returned for it holds the key [rot13], with value ["123"]. *)
Lemma rot13_present_without_letters :
  validInput (js "123") /\
  existsb isLetterChar (js "123") = false /\
  exists r,
    analyzeInput RegExp_none decodeURIComponent_plain md5Catalog (js "123") = Normal r /\
    Decoding.rot13 (AnalysisResult.decoding r) = Some (js "123").
Proof.
  split; [split; [discriminate | vm_compute; discriminate]|].
  split; [reflexivity|].
  eexists. split.
  - apply analyzeInput_returned, analyzeInput_try_valid.
    split; [discriminate | vm_compute; discriminate].
  - reflexivity.
Qed.

(* ------------------------------------------------------------------ *)
(** * Entropy *)
(* ------------------------------------------------------------------ *)

Section Entropy.

Lemma ln2_pos : 0 < ln 2.
Proof. pose proof ln_lt_2. lra. Qed.


Lemma log2_1 : Math_log2 1 = 0.
Proof. unfold Math_log2. rewrite ln_1. unfold Rdiv. lra. Qed.

Lemma log2_pow2 (n : nat) : Math_log2 (2 ^ n) = INR n.
Proof.
  unfold Math_log2. rewrite ln_pow by lra. field.
  pose proof ln2_pos. lra.
Qed.

Lemma log2_div a b : 0 < a -> 0 < b -> Math_log2 (a / b) = Math_log2 a - Math_log2 b.
Proof.
  intros Ha Hb. unfold Math_log2, Rdiv.
  rewrite ln_mult, ln_Rinv by (try apply Rinv_0_lt_compat; assumption).
  field. pose proof ln2_pos. lra.
Qed.

(** The loop of [shannonEntropy] on counts that are all positive. *)
Lemma entropy_loop counts len e :
  0 < len -> Forall (fun count => (0 < count)%Z) counts ->
  fold_left
    (fun entropy count =>
       let p := IZR count / len in
       if Rlt_dec 0 p then entropy - p * Math_log2 p else entropy)
    counts e
  = e + entropyFormula counts len.
Proof.
  intros Hlen Hpos. revert e. unfold entropyFormula, sumOver.
  induction Hpos as [|c counts Hc Hcs IH]; intros e; simpl.
  - lra.
  - rewrite IH. destruct (Rlt_dec 0 (IZR c / len)) as [_|Hn]; [lra|].
    exfalso. apply Hn. apply Rdiv_lt_0_compat; [apply IZR_lt; assumption | assumption].
Qed.


(** ** The frequency table *)

Lemma bump_total char freq : tableTotal (bump char freq) = (tableTotal freq + 1)%Z.
Proof.
  induction freq as [|[k n] rest IH]; simpl; [lia|].
  destruct (k =? char)%N; simpl; [lia | rewrite IH; lia].
Qed.

Lemma bump_positive char freq : tablePositive freq -> tablePositive (bump char freq).
Proof.
  unfold tablePositive. induction 1 as [|[k n] rest Hn Hrest IH]; simpl.
  - repeat constructor.
  - destruct (k =? char)%N; constructor; simpl in *; try assumption; lia.
Qed.

Lemma table_fold chars freq :
  tablePositive freq ->
  tablePositive (fold_left (fun freq char => bump char freq) chars freq) /\
  tableTotal (fold_left (fun freq char => bump char freq) chars freq)
  = (tableTotal freq + Z.of_nat (List.length chars))%Z.
Proof.
  revert freq. induction chars as [|c chars IH]; intros freq Hpos; simpl.
  - split; [assumption | lia].
  - destruct (IH (bump c freq) (bump_positive c Hpos)) as [H1 H2].
    split; [assumption|]. rewrite H2, bump_total. lia.
Qed.

Lemma table_member_le freq k n :
  tablePositive freq -> In (k, n) freq -> (n <= tableTotal freq)%Z.
Proof.
  unfold tablePositive. induction 1 as [|[k' n'] rest Hn Hrest IH]; simpl; [tauto|].
  intros [H|H].
  - injection H as -> ->.
    assert (0 <= tableTotal rest)%Z; [|lia].
    clear -Hrest. induction Hrest as [|kv rest H _ IH]; simpl; lia.
  - specialize (IH H). simpl in Hn. lia.
Qed.

Lemma codePoints_length_fuel n s :
  (List.length s <= n)%nat -> (List.length (codePoints s) <= List.length s)%nat.
Proof.
  revert s. induction n as [|n IH]; intros s Hn.
  - destruct s; simpl in *; lia.
  - destruct s as [|c [|d t]]; simpl in *; try lia.
    destruct (isHighSurrogate c && isLowSurrogate d); simpl.
    + specialize (IH t). lia.
    + specialize (IH (d :: t)). simpl in IH. lia.
Qed.

Lemma codePoints_length s : (List.length (codePoints s) <= List.length s)%nat.
Proof. apply (codePoints_length_fuel (n := List.length s)). lia. Qed.

Lemma Object_values_In freq count :
  In count (Object_values freq) -> exists k, In (k, count) freq.
Proof.
  unfold Object_values. intros H.
  apply in_map_iff in H as ([k n] & <- & H). exists k. simpl.
  apply in_app_or in H as [H|H].
  - apply in_flat_map in H as (d & _ & H). apply filter_In in H. tauto.
  - apply filter_In in H. tauto.
Qed.

Lemma freq_counts str count :
  In count (Object_values (freqAnalysis str)) ->
  (0 < count)%Z /\ (count <= strlen str)%Z.
Proof.
  intros H. apply Object_values_In in H as [k H].
  unfold freqAnalysis in H.
  destruct (@table_fold (codePoints str) [] (Forall_nil _)) as [Hpos Htot].
  split.
  - unfold tablePositive in Hpos. rewrite Forall_forall in Hpos.
    apply (Hpos _ H).
  - pose proof (@table_member_le _ k count Hpos H) as Hle.
    pose proof (codePoints_length str). unfold strlen. simpl in Htot. lia.
Qed.

(** [shannonEntropy] computes the formula of the specification. *)
Lemma shannonEntropy_formula str :
  shannonEntropy str
  = entropyFormula (Object_values (freqAnalysis str)) (IZR (strlen str)).
Proof.
  destruct str as [|c t] eqn:E.
  - unfold shannonEntropy, entropyFormula, sumOver. simpl. lra.
  - rewrite <- E. unfold shannonEntropy.
    assert (Hlen : (0 < strlen str)%Z) by (rewrite E; unfold strlen; simpl; lia).
    replace (negb (truthy str) || (strlen str =? 0)%Z) with false.
    2:{ rewrite E. reflexivity. }
    cbv zeta. rewrite entropy_loop.
    + lra.
    + apply IZR_lt in Hlen. exact Hlen.
    + apply Forall_forall. intros count H. apply freq_counts in H. tauto.
Qed.


End Entropy.


(** ** The frequency table holds the occurrences of each character *)

Section FrequencyTable.

Lemma sumOver_app {A} (g : A -> R) l1 l2 :
  sumOver g (l1 ++ l2) = sumOver g l1 + sumOver g l2.
Proof.
  unfold sumOver. induction l1 as [|x l1 IH]; simpl; [lra|]. rewrite IH. lra.
Qed.

Lemma sumOver_map {A B} (g : B -> R) (f : A -> B) l :
  sumOver g (map f l) = sumOver (fun x => g (f x)) l.
Proof.
  unfold sumOver. induction l as [|x l IH]; simpl; [reflexivity|].
  rewrite IH. reflexivity.
Qed.

Lemma sumOver_ext {A} (g h : A -> R) l :
  (forall x, In x l -> g x = h x) -> sumOver g l = sumOver h l.
Proof.
  unfold sumOver. induction l as [|x l IH]; simpl; intros H; [reflexivity|].
  rewrite IH, (H x) by auto. reflexivity.
Qed.

Lemma sumOver_perm {A} (g : A -> R) l l' :
  Permutation l l' -> sumOver g l = sumOver g l'.
Proof.
  unfold sumOver. induction 1; simpl; lra.
Qed.

Lemma sumOver_filter {A} (g : A -> R) (f : A -> bool) x l :
  sumOver g (filter f (x :: l))
  = (if f x then g x else 0) + sumOver g (filter f l).
Proof. simpl. destruct (f x); unfold sumOver; simpl; lra. Qed.

(** [Object.values] lists every property once. *)
Lemma Object_values_sum (g : Z -> R) freq :
  sumOver g (Object_values freq) = sumOver g (map snd freq).
Proof.
  unfold Object_values. rewrite !sumOver_map.
  induction freq as [|[k n] rest IH].
  - unfold sumOver. simpl. lra.
  - cbn [flat_map] in *. rewrite !sumOver_app in *.
    rewrite !sumOver_filter. cbn [fst snd].
    change (sumOver (fun x => g (snd x)) ((k, n) :: rest))
      with (g n + sumOver (fun x => g (snd x)) rest).
    rewrite <- IH. clear IH.
    assert (Hk :
      (if (k =? 48)%N then g n else 0) + (if (k =? 49)%N then g n else 0)
      + (if (k =? 50)%N then g n else 0) + (if (k =? 51)%N then g n else 0)
      + (if (k =? 52)%N then g n else 0) + (if (k =? 53)%N then g n else 0)
      + (if (k =? 54)%N then g n else 0) + (if (k =? 55)%N then g n else 0)
      + (if (k =? 56)%N then g n else 0) + (if (k =? 57)%N then g n else 0)
      + (if negb (isDigitChar k) then g n else 0) = g n).
    { generalize (g n). intros x.
      repeat match goal with
             | |- context [(k =? ?d)%N] =>
                 destruct (N.eqb_spec k d) as [->|?]; [vm_compute; lra|]
             end.
      unfold isDigitChar, inRange.
      destruct (N.leb_spec 48 k); destruct (N.leb_spec k 57); cbn [andb negb];
        try lra; lia. }
    change (sumOver (fun x : N * Z => g (snd x)) []) with 0. lra.
Qed.

Lemma bump_countOf k char freq :
  countOf k (bump char freq)
  = (countOf k freq + if (char =? k)%N then 1 else 0)%Z.
Proof.
  induction freq as [|[k' n] rest IH]; simpl.
  - destruct (char =? k)%N; lia.
  - destruct (N.eqb_spec k' char) as [->|Hne]; simpl.
    + destruct (char =? k)%N; lia.
    + rewrite IH. destruct (N.eqb_spec k' k) as [->|?]; [|reflexivity].
      destruct (N.eqb_spec char k); [congruence | lia].
Qed.

Lemma bump_keys k char freq :
  In k (keys (bump char freq)) <-> k = char \/ In k (keys freq).
Proof.
  unfold keys. induction freq as [|[k' n] rest IH]; simpl.
  - intuition congruence.
  - destruct (N.eqb_spec k' char) as [->|Hne]; simpl; [|rewrite IH];
      intuition congruence.
Qed.

Lemma bump_NoDup char freq : NoDup (keys freq) -> NoDup (keys (bump char freq)).
Proof.
  unfold keys. induction freq as [|[k' n] rest IH]; simpl; intros H.
  - repeat constructor. tauto.
  - inversion H as [|? ? Hin Hrest]; subst.
    destruct (N.eqb_spec k' char) as [->|Hne]; simpl; constructor; auto.
    intros Hk. apply (bump_keys k' char rest) in Hk as [Hk|Hk]; auto.
Qed.

Lemma table_built chars freq :
  NoDup (keys freq) ->
  let freq' := fold_left (fun freq char => bump char freq) chars freq in
  NoDup (keys freq') /\
  (forall k, In k (keys freq') <-> In k (keys freq) \/ In k chars) /\
  (forall k, countOf k freq' = (countOf k freq + occurrences k chars)%Z).
Proof.
  revert freq. induction chars as [|c chars IH]; intros freq Hnd; cbn [fold_left].
  - cbv zeta. split; [assumption|]. split; [simpl; tauto|].
    intros k. unfold occurrences. simpl. lia.
  - destruct (IH (bump c freq) (@bump_NoDup c freq Hnd)) as (H1 & H2 & H3).
    cbv zeta in *. split; [assumption|]. split.
    + intros k. rewrite H2, bump_keys. simpl. intuition congruence.
    + intros k. rewrite H3, bump_countOf. unfold occurrences. simpl.
      destruct (N.eq_dec c k) as [->|Hne].
      * rewrite N.eqb_refl. lia.
      * destruct (N.eqb_spec c k); [congruence | lia].
Qed.

Lemma countOf_member freq k n :
  NoDup (keys freq) -> In (k, n) freq -> countOf k freq = n.
Proof.
  unfold keys. induction freq as [|[k' n'] rest IH]; simpl; [tauto|].
  intros Hnd [H|H]; inversion Hnd as [|? ? Hin Hrest]; subst.
  - injection H as -> ->. rewrite N.eqb_refl. reflexivity.
  - destruct (N.eqb_spec k' k) as [->|_]; [|auto].
    exfalso. apply Hin. apply in_map_iff. exists (k, n). auto.
Qed.

(** The table of a string: one entry per distinct character, holding the
    number of its occurrences. *)
Lemma freqAnalysis_spec str :
  NoDup (keys (freqAnalysis str)) /\
  (forall k, In k (keys (freqAnalysis str)) <-> In k (codePoints str)) /\
  (forall k n, In (k, n) (freqAnalysis str) -> n = occurrences k (codePoints str)).
Proof.
  destruct (@table_built (codePoints str) [] (NoDup_nil _)) as (H1 & H2 & H3).
  cbv zeta in *. fold (freqAnalysis str) in *.
  split; [assumption|]. split.
  - intros k. rewrite H2. simpl. tauto.
  - intros k n H. rewrite <- (@countOf_member _ k n H1 H), H3. simpl. lia.
Qed.

Lemma shannonEntropy_entropySpec str : shannonEntropy str = entropySpec str.
Proof.
  rewrite shannonEntropy_formula. unfold entropyFormula, entropySpec. cbv zeta.
  f_equal. rewrite Object_values_sum.
  destruct (freqAnalysis_spec str) as (Hnd & Hkeys & Hcount).
  assert (Hsnd : map snd (freqAnalysis str)
                 = map (fun k => occurrences k (codePoints str)) (keys (freqAnalysis str))).
  { unfold keys. rewrite map_map. apply map_ext_in. intros [k n] H. simpl.
    apply Hcount, H. }
  rewrite Hsnd, sumOver_map.
  apply sumOver_perm. apply NoDup_Permutation.
  - assumption.
  - apply NoDup_nodup.
  - intros k. rewrite Hkeys, nodup_In. tauto.
Qed.

End FrequencyTable.


(* ------------------------------------------------------------------ *)
(** * The MD5 descriptor on an MD5 digest *)
(* ------------------------------------------------------------------ *)

Section MD5.

Lemma md5_strlen : strlen md5Input = 32%Z.
Proof. reflexivity. Qed.

Lemma md5_charset : getCharset md5Input = "hex"%string.
Proof. vm_compute. reflexivity. Qed.

Lemma md5_counts :
  Object_values (freqAnalysis md5Input) = [2; 5; 3; 3; 2; 1; 3; 4; 2; 2; 3; 2]%Z.
Proof. vm_compute. reflexivity. Qed.

(** The text decoded from the digest read as base64 is not empty, and
    neither it nor the text decoded from the digest read as hexadecimal is
    made of hexadecimal digits. *)
Lemma md5_decoded :
  truthyOpt (safeBase64Decode md5Input) = true /\
  decodedCharsetIs (safeBase64Decode md5Input) "hex" = false /\
  decodedCharsetIs (safeHexDecode md5Input) "hex" = false.
Proof. repeat split; vm_compute; reflexivity. Qed.

Lemma md5_threshold : entropyThreshold (strlen md5Input) = 3.64.
Proof.
  rewrite md5_strlen. unfold entropyThreshold, Rmax, Rmin.
  repeat destruct Rle_dec; lra.
Qed.

Lemma log2_3_lower : 3 / 2 < Math_log2 3.
Proof.
  unfold Math_log2. pose proof ln2_pos as H2.
  assert (H : ln (2 ^ 3) < ln (3 ^ 2)) by (apply ln_increasing; lra).
  rewrite !ln_pow in H by lra. simpl in H.
  apply (Rmult_lt_reg_r (ln 2)); [assumption|].
  unfold Rdiv at 2. rewrite Rmult_assoc, Rinv_l by lra. lra.
Qed.

Lemma log2_5_lower : 2 < Math_log2 5.
Proof.
  unfold Math_log2. pose proof ln2_pos as H2.
  assert (H : ln (2 ^ 2) < ln 5) by (apply ln_increasing; lra).
  rewrite ln_pow in H by lra. simpl in H.
  apply (Rmult_lt_reg_r (ln 2)); [assumption|].
  unfold Rdiv. rewrite Rmult_assoc, Rinv_l by lra. lra.
Qed.

(** The entropy of the digest, about 3.48 bits, is below the threshold. *)
Lemma md5_entropy_below :
  shannonEntropy md5Input < entropyThreshold (strlen md5Input).
Proof.
  rewrite md5_threshold, shannonEntropy_formula, md5_counts, md5_strlen.
  unfold entropyFormula, sumOver. cbn [fold_right].
  rewrite !log2_div by lra.
  pose proof log2_1 as H1.
  pose proof (log2_pow2 1) as H2. pose proof (log2_pow2 2) as H4.
  pose proof (log2_pow2 5) as H32.
  simpl in H2, H4, H32.
  replace (2 * 1) with 2 in H2 by lra.
  replace (2 * (2 * 1)) with 4 in H4 by lra.
  replace (2 * (2 * (2 * (2 * (2 * 1))))) with 32 in H32 by lra.
  rewrite H1, H2, H4, H32.
  pose proof log2_3_lower. pose proof log2_5_lower. lra.
Qed.

End MD5.

Section MD5Score.

Variable RegExp_test : string -> jsstring -> option bool.

(** The scorer on the digest: exact length, charset match and decodable
    content, and nothing else. *)
Lemma md5_scorePattern :
  scorePattern RegExp_test md5Input (strlen md5Input) (getCharset md5Input)
               (shannonEntropy md5Input) md5Pattern
  = Scoring.mk (0 + 0.4 + 0.2 + 0.1)
               [ExactLengthMatch 32; CharsetMatch "hex"; DecodableContent].
Proof.
  destruct md5_decoded as (Htruthy & Hb64 & Hhex).
  unfold scorePattern, regexStep, prefixStep, lengthStep, charsetStep, suffixStep,
    entropyStep, decodingStep, signatureStep, patternCharsetIs.
  cbn [md5Pattern HashPattern.regex HashPattern.prefixes HashPattern.length
       HashPattern.charset HashPattern.suffixes truthyText].
  destruct (Rgt_dec (shannonEntropy md5Input) (entropyThreshold (strlen md5Input)))
    as [Hgt|_]; [pose proof md5_entropy_below; lra|].
  rewrite md5_strlen, md5_charset, Hb64, Hhex, Htruthy.
  reflexivity.
Qed.

Lemma md5_emitted patternId :
  emitted RegExp_test md5Input (patternId, md5Pattern) = [md5Result patternId].
Proof.
  unfold emitted, candidate. cbn [fst snd]. rewrite md5_scorePattern.
  cbn [Scoring.score Scoring.reasons].
  destruct (Rge_dec (0 + 0.4 + 0.2 + 0.1) 0.25); [|lra].
  destruct (Rgt_dec (0 + 0.4 + 0.2 + 0.1) 0.8); [lra|].
  destruct (Rge_dec (0 + 0.4 + 0.2 + 0.1) 0.55); [|lra].
  unfold md5Result. f_equal. f_equal.
  unfold Rmin. destruct Rle_dec; lra.
Qed.

Lemma md5_detectCandidates :
  detectCandidates RegExp_test md5Catalog md5Input = [md5Result "md5"].
Proof.
  rewrite detectCandidates_eq, candidates_emitted.
  unfold md5Catalog. cbn [flat_map]. rewrite md5_emitted. reflexivity.
Qed.

End MD5Score.

(** C3, as the code has it.  On the digest
    ["5d41402abc4b2a76b9719d911017c592"] an MD5 descriptor with exact length
    32 and charset tag ['hex'] (no regex, prefixes or suffixes) collects the
    exact-length weight 0.4, the charset weight 0.2 and the decodable-content
    weight 0.1: its score is 0.7 and its tier yellow, in any catalog and
    under any identifier.  The entropy bonus does not apply, the entropy of
    the digest being below the threshold 3.64.  With that descriptor alone
    in the catalog, the result of [detectCandidates] is this one result. *)
Theorem md5_scores_seven_tenths :
  forall (RegExp_test : string -> jsstring -> option bool),
    (forall patternId,
        emitted RegExp_test md5Input (patternId, md5Pattern) = [md5Result patternId]) /\
    detectCandidates RegExp_test md5Catalog md5Input = [md5Result "md5"] /\
    DetectionResult.score (md5Result "md5") = 0.7 /\
    DetectionResult.color (md5Result "md5") = yellow /\
    shannonEntropy md5Input < entropyThreshold (strlen md5Input) /\
    entropyThreshold (strlen md5Input) = 3.64.
Proof.
  intros RegExp_test. split; [apply md5_emitted|].
  split; [apply md5_detectCandidates|].
  split; [reflexivity|]. split; [reflexivity|].
  split; [apply md5_entropy_below | apply md5_threshold].
Qed.

(** C3, counterexample: with the MD5 descriptor as the catalog, no result
    for the digest has a score above 0.8. *)
Lemma md5_score_not_above_0_8 :
  ~ (exists r,
        In r (detectCandidates RegExp_none md5Catalog md5Input) /\
        DetectionResult.id r = "md5"%string /\
        DetectionResult.score r > 0.8).
Proof.
  rewrite md5_detectCandidates. intros (r & [<-|[]] & _ & Hscore).
  cbn in Hscore. lra.
Qed.

(** C4 on the one result for the digest under the MD5 catalog. *)
Lemma detection_score_and_tier_witness :
  0 <= DetectionResult.score (md5Result "md5") <= 1 /\
  tierOf (DetectionResult.score (md5Result "md5"))
         (DetectionResult.color (md5Result "md5")) /\
  exists patternId pattern,
    In (patternId, pattern) md5Catalog /\
    DetectionResult.id (md5Result "md5") = patternId /\
    let score := Scoring.score
                   (scorePattern RegExp_none md5Input (strlen md5Input)
                      (getCharset md5Input) (shannonEntropy md5Input) pattern) in
    0.25 <= score /\ DetectionResult.score (md5Result "md5") = Rmin score 1.
Proof.
  apply (proj1 (detection_score_and_tier RegExp_none md5Catalog md5Input)).
  rewrite md5_detectCandidates. left. reflexivity.
Defined.

(* ------------------------------------------------------------------ *)
(** * Further properties of the string primitives *)
(* ------------------------------------------------------------------ *)

Unset Implicit Arguments.

Section Rot13.

(** The replacement [decodeROT13] applies to each code unit. *)
Let rotate (char : N) : N :=
  if isLetterChar char then
    if ((65 <=? char) && (char <=? 90))%N then ((char - 65 + 13) mod 26 + 65)%N
    else if ((97 <=? char) && (char <=? 122))%N then ((char - 97 + 13) mod 26 + 97)%N
    else char
  else char.

Lemma decodeROT13_map str : decodeROT13 str = Some (map rotate str).
Proof. reflexivity. Qed.

Lemma half_turn base c :
  (base <= c <= base + 25)%N ->
  ((c - base + 13) mod 26 + base)%N = if (c <? base + 13)%N then (c + 13)%N else (c - 13)%N.
Proof.
  intros H. destruct (N.ltb_spec c (base + 13)) as [Hlt|Hge].
  - rewrite N.mod_small by lia. lia.
  - replace (c - base + 13)%N with ((c - base - 13) + 1 * 26)%N by lia.
    rewrite N.Div0.mod_add, N.mod_small by lia. lia.
Qed.

Lemma rotate_cases c :
  (((65 <= c <= 77) \/ (97 <= c <= 109)) /\ rotate c = c + 13)%N \/
  (((78 <= c <= 90) \/ (110 <= c <= 122)) /\ rotate c = c - 13)%N \/
  (isLetterChar c = false /\ rotate c = c).
Proof.
  unfold rotate, isLetterChar, inRange.
  destruct (N.leb_spec 97 c), (N.leb_spec c 122), (N.leb_spec 65 c), (N.leb_spec c 90);
    cbn [andb orb]; try (right; right; split; [reflexivity | reflexivity]); try lia.
  - rewrite (half_turn 97%N) by lia. destruct (N.ltb_spec c (97 + 13)%N); [left | right; left]; lia.
  - rewrite (half_turn 65%N) by lia. destruct (N.ltb_spec c (65 + 13)%N); [left | right; left]; lia.
Qed.

Lemma rotate_letter c : isLetterChar (rotate c) = isLetterChar c.
Proof.
  destruct (rotate_cases c) as [[Hc ->]|[[Hc ->]|[Hc ->]]]; [| |reflexivity];
    unfold isLetterChar, inRange;
    repeat match goal with
           | |- context [(?a <=? ?b)%N] => destruct (N.leb_spec a b)
           end; cbn [andb orb]; try reflexivity; lia.
Qed.

Lemma not_letter_range c :
  isLetterChar c = false -> ~ ((65 <= c <= 90) \/ (97 <= c <= 122))%N.
Proof.
  unfold isLetterChar, inRange.
  destruct (N.leb_spec 97 c), (N.leb_spec c 122), (N.leb_spec 65 c), (N.leb_spec c 90);
    cbn [andb orb]; intros Hf; try discriminate; lia.
Qed.

Lemma rotate_involutive c : rotate (rotate c) = c.
Proof.
  destruct (rotate_cases c) as [[Hc E]|[[Hc E]|[Hc E]]]; rewrite E.
  - destruct (rotate_cases (c + 13)%N) as [[H ->]|[[H ->]|[H ->]]]; try lia.
    apply not_letter_range in H. lia.
  - destruct (rotate_cases (c - 13)%N) as [[H ->]|[[H ->]|[H ->]]]; try lia.
    apply not_letter_range in H. lia.
  - unfold rotate. rewrite Hc. reflexivity.
Qed.

(** X1. [decodeROT13] never fails, and it is its own inverse on every
    string: decoding twice gives the input back.  It keeps the length, turns
    letters into letters and leaves every other code unit as it is. *)
Theorem decodeROT13_involution :
  forall str : jsstring,
  exists once,
    decodeROT13 str = Some once /\
    decodeROT13 once = Some str /\
    strlen once = strlen str /\
    Forall2 (fun c d => isLetterChar d = isLetterChar c /\
                        (isLetterChar c = false -> d = c)) str once.
Proof.
  intros str. exists (map rotate str). split; [apply decodeROT13_map|].
  split; [|split].
  - rewrite decodeROT13_map, map_map. f_equal.
    rewrite <- (map_id str) at 2. apply map_ext. apply rotate_involutive.
  - unfold strlen. rewrite length_map. reflexivity.
  - induction str as [|c t IH]; simpl; constructor; [|exact IH].
    split; [apply rotate_letter|].
    intros H. fold (rotate c). unfold rotate. rewrite H. reflexivity.
Qed.

End Rot13.

Section Statistics.

Lemma class_partition str :
  (countMatches isDigitChar str + countMatches isLetterChar str
   + countMatches (fun c => negb (isLetterChar c || isDigitChar c)) str)%Z
  = strlen str.
Proof.
  unfold countMatches, strlen. induction str as [|c t IH]; [reflexivity|].
  cbn [filter List.length].
  assert (Hdisjoint : isDigitChar c && isLetterChar c = false).
  { unfold isDigitChar, isLetterChar, inRange.
    destruct (N.leb_spec 48 c), (N.leb_spec c 57), (N.leb_spec 97 c),
      (N.leb_spec c 122), (N.leb_spec 65 c), (N.leb_spec c 90);
      cbn [andb orb]; try reflexivity; lia. }
  destruct (isDigitChar c), (isLetterChar c); cbn [andb orb negb] in *;
    try discriminate; cbn [List.length]; lia.
Qed.

Lemma nodup_length (l : list N) :
  (List.length (nodup N.eq_dec l) <= List.length l)%nat.
Proof.
  induction l as [|x l IH]; simpl; [lia|].
  destruct (in_dec N.eq_dec x l); simpl; lia.
Qed.

Lemma codePoints_nonempty c t : codePoints (c :: t) <> [].
Proof.
  destruct t as [|d t']; [discriminate|].
  change (codePoints (c :: d :: t'))
    with (if isHighSurrogate c && isLowSurrogate d
          then (0x10000 + (c - 0xD800) * 0x400 + (d - 0xDC00))%N :: codePoints t'
          else c :: codePoints (d :: t')).
  destruct (isHighSurrogate c && isLowSurrogate d); discriminate.
Qed.

Lemma nodup_nonempty (l : list N) : l <> [] -> nodup N.eq_dec l <> [].
Proof.
  destruct l as [|x l]; [congruence|]. intros _ H.
  assert (Hin : In x (nodup N.eq_dec (x :: l))) by (apply nodup_In; left; reflexivity).
  rewrite H in Hin. destruct Hin.
Qed.

(** X2. [getCharStats] splits the code units of a string into digits,
    letters and special characters: the three counts add up to [total],
    which is the length.  [unique] is never above [total], it is at least 1
    on a non-empty string, and the statistics of the empty string are all
    zero. *)
Theorem getCharStats_partition :
  forall str : jsstring,
    let stats := getCharStats str in
    CharStats.total stats = strlen str /\
    (CharStats.digits stats + CharStats.letters stats + CharStats.special stats)%Z
    = CharStats.total stats /\
    (0 <= CharStats.digits stats)%Z /\ (0 <= CharStats.letters stats)%Z /\
    (0 <= CharStats.special stats)%Z /\
    (0 <= CharStats.unique stats <= CharStats.total stats)%Z /\
    (str <> [] -> (1 <= CharStats.unique stats)%Z) /\
    CharStats.entropy stats = shannonEntropy str /\
    (str = [] -> stats = CharStats.mk 0 0 0 0 0 0).
Proof.
  intros [|c t]; cbv zeta.
  - unfold getCharStats. cbn [truthy negb CharStats.total CharStats.digits
      CharStats.letters CharStats.special CharStats.unique CharStats.entropy].
    repeat split; try reflexivity; try lia. congruence.
  - unfold getCharStats. cbn [truthy negb CharStats.total CharStats.digits
      CharStats.letters CharStats.special CharStats.unique CharStats.entropy].
    pose proof (class_partition (c :: t)) as Hsum.
    pose proof (nodup_length (codePoints (c :: t))) as Hu.
    pose proof (codePoints_length (c :: t)) as Hcp.
    pose proof (nodup_nonempty _ (codePoints_nonempty c t)) as Hne.
    unfold distinctCodePoints, countMatches, strlen in *.
    destruct (nodup N.eq_dec (codePoints (c :: t))) as [|u us] eqn:E; [congruence|].
    repeat split; try lia; try reflexivity; intros; try lia; try discriminate.
    cbn [List.length]. lia.
Qed.

Lemma isHex_ascii s : isHex s = true -> isAscii s = true.
Proof.
  unfold isHex, isAscii. rewrite andb_true_iff. intros [_ H].
  rewrite forallb_forall in H |- *. intros c Hc. specialize (H c Hc).
  apply N.leb_le. revert H. unfold isHexChar, inRange.
  rewrite !orb_true_iff, !andb_true_iff, !N.leb_le. lia.
Qed.

Lemma base64Tail_ascii s : base64Tail s = true -> isAscii s = true.
Proof.
  unfold isAscii. induction s as [|c t IH]; [reflexivity|].
  cbn [base64Tail]. destruct (isBase64Char c) eqn:Ec.
  - intros H. cbn [forallb]. rewrite (IH H), andb_true_r.
    apply N.leb_le. revert Ec. unfold isBase64Char, inRange.
    rewrite !orb_true_iff, !andb_true_iff, !N.leb_le, !N.eqb_eq. lia.
  - intros H. rewrite forallb_forall in H |- *. intros x Hx.
    specialize (H x Hx). apply N.eqb_eq in H. subst. reflexivity.
Qed.

Lemma isBase64_ascii s : isBase64 s = true -> isAscii s = true.
Proof.
  destruct s as [|c t]; [discriminate|]. unfold isBase64.
  rewrite andb_true_iff. intros [Hc Ht]. apply (base64Tail_ascii (c :: t)).
  cbn [base64Tail]. rewrite Hc. exact Ht.
Qed.

(** X3. [getCharset] answers ['unknown'] exactly for the strings that hold a
    code unit above 0x7F.  The empty string is classified ['ascii'], and the
    classes are nested: what is ['hex'] also matches the base64 pattern, and
    what is ['hex'] or ['base64'] is 7-bit ASCII. *)
Theorem getCharset_unknown_iff_non_ascii :
  (forall s, getCharset s = "unknown"%string <-> exists c, In c s /\ (0x7F < c)%N) /\
  getCharset [] = "ascii"%string /\
  (forall s, getCharset s = "hex"%string -> isBase64 s = true /\ isAscii s = true) /\
  (forall s, getCharset s = "base64"%string -> isAscii s = true).
Proof.
  split; [|split; [reflexivity|split]].
  - intros s. split.
    + unfold getCharset.
      destruct (isHex s) eqn:Eh; [discriminate|].
      destruct (isBase64 s) eqn:Eb; [discriminate|].
      destruct (isAscii s) eqn:Ea; [discriminate|]. intros _.
      unfold isAscii in Ea.
      assert (Hex : existsb (fun c => negb (c <=? 0x7F)%N) s = true).
      { clear -Ea. induction s as [|c t IH]; [discriminate|]. simpl in *.
        destruct (c <=? 127)%N; simpl in *; auto. }
      apply existsb_exists in Hex as (c & Hc & Hgt). exists c. split; [exact Hc|].
      apply negb_true_iff, N.leb_gt in Hgt. exact Hgt.
    + intros (c & Hc & Hgt).
      assert (Ea : isAscii s = false).
      { destruct (isAscii s) eqn:E; [|reflexivity]. unfold isAscii in E.
        rewrite forallb_forall in E. specialize (E c Hc). apply N.leb_le in E. lia. }
      unfold getCharset.
      destruct (isHex s) eqn:Eh; [apply isHex_ascii in Eh; congruence|].
      destruct (isBase64 s) eqn:Eb; [apply isBase64_ascii in Eb; congruence|].
      rewrite Ea. reflexivity.
  - intros s H. unfold getCharset in H. destruct (isHex s) eqn:Eh.
    + split; [apply isHex_isBase64, Eh | apply isHex_ascii, Eh].
    + destruct (isBase64 s); [discriminate|]. destruct (isAscii s); discriminate.
  - intros s H. unfold getCharset in H. destruct (isHex s) eqn:Eh; [discriminate|].
    destruct (isBase64 s) eqn:Eb; [apply isBase64_ascii, Eb|].
    destruct (isAscii s); discriminate.
Qed.

End Statistics.

Section EntropyExtremes.

(** X4. [freqAnalysis] builds one entry per distinct character of the
    string (a character being a code point, as the string iterator yields
    them); the entry holds the number of occurrences of the character, which
    is at least 1, and the counts add up to the number of characters.  The
    table of the empty string is empty. *)
Theorem freqAnalysis_counts :
  forall str : jsstring,
    NoDup (keys (freqAnalysis str)) /\
    (forall c, In c (keys (freqAnalysis str)) <-> In c (codePoints str)) /\
    (forall c n, In (c, n) (freqAnalysis str) ->
                 n = occurrences c (codePoints str) /\ (1 <= n)%Z) /\
    tableTotal (freqAnalysis str) = Z.of_nat (List.length (codePoints str)) /\
    (str = [] -> freqAnalysis str = []).
Proof.
  intros str. destruct (freqAnalysis_spec str) as (Hnd & Hkeys & Hcount).
  destruct (@table_fold (codePoints str) [] (Forall_nil _)) as [Hpos Htot].
  fold (freqAnalysis str) in Hpos, Htot.
  split; [exact Hnd|]. split; [exact Hkeys|]. split; [|split].
  - intros c n H. split; [apply Hcount, H|].
    unfold tablePositive in Hpos. rewrite Forall_forall in Hpos.
    specialize (Hpos _ H). simpl in Hpos. lia.
  - rewrite Htot. simpl. lia.
  - intros ->. reflexivity.
Qed.

Lemma surrogates_disjoint c : isHighSurrogate c && isLowSurrogate c = false.
Proof.
  unfold isHighSurrogate, isLowSurrogate, inRange.
  destruct (N.leb_spec 0xD800 c), (N.leb_spec c 0xDBFF), (N.leb_spec 0xDC00 c),
    (N.leb_spec c 0xDFFF); cbn [andb]; try reflexivity; lia.
Qed.

Lemma codePoints_cons c d t :
  codePoints (c :: d :: t)
  = if isHighSurrogate c && isLowSurrogate d
    then (0x10000 + (c - 0xD800) * 0x400 + (d - 0xDC00))%N :: codePoints t
    else c :: codePoints (d :: t).
Proof. reflexivity. Qed.

Lemma codePoints_repeat c n : codePoints (repeat c n) = repeat c n.
Proof.
  induction n as [|n IH]; [reflexivity|].
  destruct n as [|n]; [reflexivity|].
  change (repeat c (S (S n))) with (c :: c :: repeat c n).
  rewrite codePoints_cons, surrogates_disjoint.
  change (c :: repeat c n) with (repeat c (S n)). rewrite IH. reflexivity.
Qed.

Lemma codePoints_bmp s :
  Forall (fun c => isHighSurrogate c = false) s -> codePoints s = s.
Proof.
  induction 1 as [|c t Hc Ht IH]; [reflexivity|].
  destruct t as [|d t']; [reflexivity|].
  rewrite codePoints_cons, Hc. cbn [andb]. rewrite IH. reflexivity.
Qed.

Lemma nodup_repeat c n : nodup N.eq_dec (repeat c (S n)) = [c].
Proof.
  induction n as [|n IH]; [reflexivity|].
  change (repeat c (S (S n))) with (c :: repeat c (S n)).
  cbn [nodup]. destruct (in_dec N.eq_dec c (repeat c (S n))) as [_|Hn]; [exact IH|].
  exfalso. apply Hn. left. reflexivity.
Qed.

Lemma occurrences_repeat c n : occurrences c (repeat c n) = Z.of_nat n.
Proof.
  unfold occurrences. f_equal. induction n as [|n IH]; [reflexivity|].
  simpl. destruct (N.eq_dec c c); [rewrite IH; reflexivity | congruence].
Qed.

Lemma sumOver_const {A} (k : R) (l : list A) :
  sumOver (fun _ => k) l = INR (List.length l) * k.
Proof.
  unfold sumOver. induction l as [|x l IH]; [simpl; lra|].
  cbn [fold_right List.length]. rewrite IH, S_INR. lra.
Qed.

(** X5. The two extremes of [shannonEntropy]: it is 0 on a string made of
    one repeated code unit, and it is the base-2 logarithm of the length on
    a non-empty string whose code units are pairwise distinct (and hold no
    high surrogate, so that each one is a character). *)
Theorem shannonEntropy_extremes :
  (forall c n, shannonEntropy (repeat c n) = 0) /\
  (forall s, s <> [] -> NoDup s ->
             Forall (fun c => isHighSurrogate c = false) s ->
             shannonEntropy s = Math_log2 (IZR (strlen s))).
Proof.
  split.
  - intros c [|n]; [reflexivity|].
    rewrite shannonEntropy_entropySpec. unfold entropySpec. cbv zeta.
    rewrite codePoints_repeat, nodup_repeat.
    unfold sumOver. cbn [fold_right]. rewrite occurrences_repeat.
    unfold strlen. rewrite repeat_length.
    assert (Hpos : 0 < IZR (Z.of_nat (S n))) by (apply IZR_lt; lia).
    replace (IZR (Z.of_nat (S n)) / IZR (Z.of_nat (S n))) with 1 by (field; lra).
    rewrite log2_1. lra.
  - intros s Hne Hnd Hbmp.
    rewrite shannonEntropy_entropySpec. unfold entropySpec. cbv zeta.
    rewrite (codePoints_bmp s Hbmp), (nodup_fixed_point N.eq_dec Hnd).
    assert (Hpos : 0 < IZR (strlen s)).
    { apply IZR_lt. unfold strlen. destruct s; [congruence | simpl; lia]. }
    rewrite (sumOver_ext _ (fun _ => 1 / IZR (strlen s) * Math_log2 (1 / IZR (strlen s)))).
    2:{ intros c Hc. unfold occurrences.
        rewrite (proj1 (NoDup_count_occ' N.eq_dec s) Hnd c Hc). reflexivity. }
    rewrite sumOver_const, log2_div, log2_1 by lra.
    unfold strlen in *. rewrite <- INR_IZR_INZ in *. field. lra.
Qed.

Lemma shannonEntropy_extremes_witness :
  shannonEntropy (js "abcd") = Math_log2 (IZR (strlen (js "abcd"))).
Proof.
  apply (proj2 shannonEntropy_extremes).
  - discriminate.
  - repeat constructor; simpl; intuition discriminate.
  - repeat constructor.
Defined.

(** X6. The entropy threshold of the scorer rises from 3.0 on the shortest
    inputs by 0.02 per character and stays at 4.0 from 50 characters on: the
    lower clamp at 2.5 never applies.  The entropy bonus is added exactly
    when the entropy exceeds this threshold. *)
Theorem entropyThreshold_range :
  forall input : jsstring,
    let threshold := entropyThreshold (strlen input) in
    threshold = Rmin 4 (3 + IZR (strlen input) / 50) /\
    3 <= threshold <= 4 /\
    ((50 <= strlen input)%Z -> threshold = 4) /\
    ((strlen input <= 50)%Z -> threshold = 3 + IZR (strlen input) / 50) /\
    (forall entropy s,
        (threshold < entropy ->
         entropyStep (strlen input) entropy s
         = add 0.1 (HighEntropy entropy threshold) s) /\
        (entropy <= threshold -> entropyStep (strlen input) entropy s = s)).
Proof.
  intros input threshold.
  assert (Hlen : 0 <= IZR (strlen input)) by (apply IZR_le; unfold strlen; lia).
  assert (Heq : threshold = Rmin 4 (3 + IZR (strlen input) / 50)).
  { unfold threshold, entropyThreshold, Rmax, Rmin.
    repeat destruct Rle_dec; lra. }
  split; [exact Heq|]. rewrite Heq.
  split; [unfold Rmin; destruct Rle_dec; lra|].
  split; [|split].
  - intros H. apply IZR_le in H. unfold Rmin; destruct Rle_dec; lra.
  - intros H. apply IZR_le in H. unfold Rmin; destruct Rle_dec; lra.
  - intros entropy s. rewrite <- Heq. unfold entropyStep. fold threshold.
    split; intros H; destruct (Rgt_dec entropy threshold); try reflexivity; lra.
Qed.

End EntropyExtremes.

(* ------------------------------------------------------------------ *)
(** * Further properties of the scorer *)
(* ------------------------------------------------------------------ *)

Section ScorerSteps.

Variable RegExp_test : string -> jsstring -> option bool.

Lemma totalWeight_append l1 l2 :
  totalWeight (l1 ++ l2) = totalWeight l1 + totalWeight l2.
Proof.
  induction l1 as [|x l1 IH]; simpl; [lra|]. rewrite IH. lra.
Qed.

Lemma grows_refl s : grows s s.
Proof. exists []. rewrite app_nil_r. simpl. split; [reflexivity | lra]. Qed.

Lemma grows_trans s1 s2 s3 : grows s1 s2 -> grows s2 s3 -> grows s1 s3.
Proof.
  intros (a & Ha & Ha') (b & Hb & Hb'). exists (a ++ b).
  rewrite Hb, Ha, app_assoc, Hb', Ha', totalWeight_append. split; [reflexivity | lra].
Qed.

Lemma grows_add w reason s : w = weightOf reason -> grows s (add w reason s).
Proof.
  intros ->. exists [reason]. simpl. split; [reflexivity | lra].
Qed.

Lemma grows_add_trans w reason s s' :
  w = weightOf reason -> grows s s' -> grows s (add w reason s').
Proof.
  intros Hw H. eapply grows_trans; [exact H | apply grows_add, Hw].
Qed.

Lemma grows_score s s' : grows s s' -> Scoring.score s <= Scoring.score s'.
Proof.
  intros (a & _ & ->). pose proof (totalWeight_nonneg a). lra.
Qed.

Lemma grows_In s s' reason :
  grows s s' -> In reason (Scoring.reasons s) -> In reason (Scoring.reasons s').
Proof.
  intros (a & -> & _) H. apply in_or_app. left. exact H.
Qed.

Ltac grows_step :=
  repeat match goal with
         | |- grows ?s ?s => apply grows_refl
         | |- grows _ (add _ _ _) => apply grows_add_trans; [reflexivity | ]
         | |- grows _ (match ?x with _ => _ end) => destruct x eqn:?
         | |- grows _ (if ?x then _ else _) => destruct x eqn:?
         | |- grows _ (fst (if ?x then _ else _)) => destruct x eqn:?
         | |- grows _ (fst (match ?x with _ => _ end)) => destruct x eqn:?
         | |- grows _ (fst (_, _)) => cbn [fst]
         end.

Lemma regexStep_grows input pattern s : grows s (regexStep RegExp_test input pattern s).
Proof. unfold regexStep. grows_step. Qed.


Lemma lengthStep_grows inputLength pattern s : grows s (lengthStep inputLength pattern s).
Proof. unfold lengthStep. cbv zeta. grows_step. Qed.

Lemma charsetStep_grows input charset pattern s :
  grows s (charsetStep input charset pattern s).
Proof.
  unfold charsetStep.
  destruct (HashPattern.charset pattern) as [pc|]; [|apply grows_refl].
  destruct (truthyText pc); [|apply grows_refl].
  destruct (String.eqb pc charset);
    destruct (decodedCharsetIs (safeBase64Decode input) pc);
    destruct (decodedCharsetIs (safeHexDecode input) pc);
    cbv zeta beta iota; grows_step.
Qed.

Lemma suffixStep_grows input pattern s : grows s (suffixStep input pattern s).
Proof. unfold suffixStep. grows_step. Qed.

Lemma entropyStep_grows inputLength entropy s :
  grows s (entropyStep inputLength entropy s).
Proof. unfold entropyStep. grows_step. Qed.

Lemma decodingStep_grows input pattern s : grows s (decodingStep input pattern s).
Proof. unfold decodingStep. cbv zeta. grows_step. Qed.


(** The steps that follow the prefix step only add to what it leaves. *)
Lemma after_prefix_grows input inputLength charset entropy pattern s :
  grows s (decodingStep input pattern
             (entropyStep inputLength entropy
                (suffixStep input pattern
                   (charsetStep input charset pattern
                      (lengthStep inputLength pattern s))))).
Proof.
  eapply grows_trans; [apply lengthStep_grows|].
  eapply grows_trans; [apply charsetStep_grows|].
  eapply grows_trans; [apply suffixStep_grows|].
  eapply grows_trans; [apply entropyStep_grows|].
  apply decodingStep_grows.
Qed.

End ScorerSteps.

(** X7. A descriptor with a prefix the input starts with is always
    included, with a score of at least 0.55, so never in the red tier: the
    prefix weight 0.25 and the signature weight 0.30 add up whatever the
    other signals say.  The evidence names the first prefix that matches,
    and the signature entry, which is the last piece of evidence, names the
    first prefix of the descriptor, matched or not. *)
Theorem prefix_match_is_included :
  forall (RegExp_test : string -> jsstring -> option bool)
         (input : jsstring) (inputLength : Z) (charset : string) (entropy : R)
         (pattern : HashPattern.t) (prefixes : list jsstring) (prefix : jsstring),
    HashPattern.prefixes pattern = Some prefixes ->
    find (startsWith input) prefixes = Some prefix ->
    let s := scorePattern RegExp_test input inputLength charset entropy pattern in
    0.55 <= Scoring.score s /\
    In (PrefixMatch prefix) (Scoring.reasons s) /\
    (exists before first,
        nth_error prefixes 0 = Some first /\
        Scoring.reasons s = before ++ [SignatureMatch (Some first)]) /\
    (forall patternId,
        exists r,
          candidate RegExp_test input inputLength charset entropy pattern patternId = [r] /\
          DetectionResult.id r = patternId /\
          0.55 <= DetectionResult.score r <= 1 /\
          DetectionResult.color r <> red).
Proof.
  intros RegExp_test input inputLength charset entropy pattern prefixes prefix
    Hprefixes Hfind s.
  assert (Hne : exists first rest, prefixes = first :: rest).
  { destruct prefixes as [|first rest]; [discriminate | eauto]. }
  destruct Hne as (first & rest & Hcons).
  assert (Hs : exists s1 s7,
             s = add 0.3 (SignatureMatch (Some first)) s7 /\
             grows (add 0.25 (PrefixMatch prefix) s1) s7 /\
             grows (Scoring.mk 0 []) s1).
  { unfold s, scorePattern.
    set (s1 := regexStep RegExp_test input pattern (Scoring.mk 0 [])).
    unfold prefixStep. rewrite Hprefixes, Hfind.
    replace (0 <? List.length prefixes)%nat with true by (rewrite Hcons; reflexivity).
    unfold signatureStep. rewrite Hprefixes.
    replace (0 <? List.length prefixes)%nat with true by (rewrite Hcons; reflexivity).
    cbn [andb]. rewrite Hcons. cbn [nth_error].
    eexists s1, _. split; [reflexivity|]. split.
    - apply after_prefix_grows.
    - apply regexStep_grows. }
  destruct Hs as (s1 & s7 & Hs & H7 & H1).
  assert (Hscore : 0.55 <= Scoring.score s).
  { rewrite Hs. cbn [add Scoring.score].
    apply grows_score in H7. apply grows_score in H1.
    cbn [add Scoring.score] in H7, H1. lra. }
  split; [exact Hscore|]. split; [|split].
  - rewrite Hs. cbn [add Scoring.reasons]. apply in_or_app. left.
    apply (grows_In _ _ _ H7). cbn [add Scoring.reasons].
    apply in_or_app. right. left. reflexivity.
  - exists (Scoring.reasons s7), first. rewrite Hs, Hcons. split; reflexivity.
  - intros patternId. unfold candidate. fold s.
    destruct (Rge_dec (Scoring.score s) 0.25) as [_|Hn]; [|lra].
    eexists. split; [reflexivity|]. cbn.
    split; [reflexivity|]. split.
    + unfold Rmin. destruct Rle_dec; lra.
    + destruct (Rgt_dec (Scoring.score s) 0.8); [discriminate|].
      destruct (Rge_dec (Scoring.score s) 0.55); [discriminate | lra].
Qed.

Lemma prefix_match_is_included_witness :
  In (PrefixMatch (js "$2b$"))
     (Scoring.reasons
        (scorePattern RegExp_none bcryptInput (strlen bcryptInput)
                      (getCharset bcryptInput) (shannonEntropy bcryptInput)
                      bcryptPattern)) /\
  exists before first,
    nth_error [js "$2a$"; js "$2b$"; js "$2y$"] 0 = Some first /\
    Scoring.reasons
      (scorePattern RegExp_none bcryptInput (strlen bcryptInput)
                    (getCharset bcryptInput) (shannonEntropy bcryptInput)
                    bcryptPattern)
    = before ++ [SignatureMatch (Some first)].
Proof.
  pose proof (prefix_match_is_included RegExp_none bcryptInput (strlen bcryptInput)
                (getCharset bcryptInput) (shannonEntropy bcryptInput) bcryptPattern
                [js "$2a$"; js "$2b$"; js "$2y$"] (js "$2b$")
                eq_refl eq_refl) as H.
  cbv zeta in H. exact (conj (proj1 (proj2 H)) (proj1 (proj2 (proj2 H)))).
Defined.

Section RegexFailure.

Variable RegExp_test : string -> jsstring -> option bool.

Lemma regexStep_no_match input pattern s :
  (forall source, HashPattern.regex pattern = Some source ->
                  RegExp_test source input <> Some true) ->
  regexStep RegExp_test input pattern s = s.
Proof.
  intros H. unfold regexStep.
  destruct (HashPattern.regex pattern) as [source|]; [|reflexivity].
  destruct (truthyText source); [|reflexivity].
  specialize (H source eq_refl).
  destruct (RegExp_test source input) as [[|]|]; congruence.
Qed.

Lemma lacks_add reason w reason' s :
  reason' <> reason -> lacks reason s -> lacks reason (add w reason' s).
Proof.
  unfold lacks. intros Hr Hs Hin. cbn [add Scoring.reasons] in Hin.
  apply in_app_or in Hin as [Hin|[Hin|[]]]; [exact (Hs Hin) | exact (Hr Hin)].
Qed.

Ltac lacks_step :=
  repeat match goal with
         | |- lacks _ (add _ _ _) => apply lacks_add; [discriminate|]
         | |- lacks _ (match ?x with _ => _ end) => destruct x eqn:?
         | |- lacks _ (if ?x then _ else _) => destruct x eqn:?
         | |- lacks _ (fst (if ?x then _ else _)) => destruct x eqn:?
         | |- lacks _ (fst (match ?x with _ => _ end)) => destruct x eqn:?
         | |- lacks _ (fst (_, _)) => cbn [fst]
         | |- lacks _ _ => assumption
         end.

(** Only the regex step records a regex match. *)
Lemma after_regex_lacks input inputLength charset entropy pattern s :
  lacks RegexPatternMatch s ->
  lacks RegexPatternMatch
    (let '(s, hasPrefixMatch) := prefixStep input pattern s in
     signatureStep pattern hasPrefixMatch
       (decodingStep input pattern
          (entropyStep inputLength entropy
             (suffixStep input pattern
                (charsetStep input charset pattern
                   (lengthStep inputLength pattern s)))))).
Proof.
  intros H0.
  assert (H2 : lacks RegexPatternMatch (fst (prefixStep input pattern s)))
    by (unfold prefixStep; lacks_step).
  destruct (prefixStep input pattern s) as [s2 b]. cbn [fst] in H2.
  assert (H3 : lacks RegexPatternMatch (lengthStep inputLength pattern s2))
    by (unfold lengthStep; cbv zeta; lacks_step).
  assert (H4 : lacks RegexPatternMatch
                 (charsetStep input charset pattern (lengthStep inputLength pattern s2))).
  { revert H3. generalize (lengthStep inputLength pattern s2). intros s3 H3.
    unfold charsetStep.
    destruct (HashPattern.charset pattern) as [pc|]; [|assumption].
    destruct (truthyText pc); [|assumption].
    destruct (String.eqb pc charset);
      destruct (decodedCharsetIs (safeBase64Decode input) pc);
      destruct (decodedCharsetIs (safeHexDecode input) pc);
      cbv zeta beta iota; lacks_step. }
  revert H4. generalize (charsetStep input charset pattern (lengthStep inputLength pattern s2)).
  intros s4 H4.
  assert (H5 : lacks RegexPatternMatch (suffixStep input pattern s4))
    by (unfold suffixStep; lacks_step).
  assert (H6 : lacks RegexPatternMatch
                 (entropyStep inputLength entropy (suffixStep input pattern s4)))
    by (unfold entropyStep; lacks_step).
  revert H6. generalize (entropyStep inputLength entropy (suffixStep input pattern s4)).
  intros s6 H6.
  assert (H7 : lacks RegexPatternMatch (decodingStep input pattern s6))
    by (unfold decodingStep; cbv zeta; lacks_step).
  unfold signatureStep. lacks_step.
Qed.

End RegexFailure.

(** X8. A [regex] that does not compile (or does not match) costs the
    descriptor nothing but the regex weight: the descriptor is scored, and
    emitted, exactly like the same descriptor without a [regex] field, and
    no regex match is recorded.  In particular the failure does not reach
    the other signals or the other descriptors. *)
Theorem failed_regex_is_skipped :
  forall (RegExp_test : string -> jsstring -> option bool)
         (input : jsstring) (inputLength : Z) (charset : string) (entropy : R)
         (pattern : HashPattern.t) (source : string),
    HashPattern.regex pattern = Some source ->
    RegExp_test source input <> Some true ->
    scorePattern RegExp_test input inputLength charset entropy pattern
    = scorePattern RegExp_test input inputLength charset entropy (withoutRegex pattern) /\
    (forall patternId,
        map DetectionResult.score
            (candidate RegExp_test input inputLength charset entropy pattern patternId)
        = map DetectionResult.score
              (candidate RegExp_test input inputLength charset entropy
                         (withoutRegex pattern) patternId)) /\
    lacks RegexPatternMatch
          (scorePattern RegExp_test input inputLength charset entropy pattern).
Proof.
  intros RegExp_test input inputLength charset entropy pattern source Hsrc Hfail.
  assert (Hstep : regexStep RegExp_test input pattern (Scoring.mk 0 []) = Scoring.mk 0 []).
  { apply regexStep_no_match. intros src H. rewrite Hsrc in H.
    injection H as <-. exact Hfail. }
  assert (Heq : scorePattern RegExp_test input inputLength charset entropy pattern
                = scorePattern RegExp_test input inputLength charset entropy
                               (withoutRegex pattern)).
  { unfold scorePattern. rewrite Hstep.
    rewrite (regexStep_no_match RegExp_test input (withoutRegex pattern)).
    2:{ intros src H. discriminate H. }
    reflexivity. }
  split; [exact Heq|]. split.
  - intros patternId. unfold candidate. rewrite Heq. reflexivity.
  - unfold scorePattern. rewrite Hstep.
    apply after_regex_lacks. unfold lacks. simpl. tauto.
Qed.

Lemma failed_regex_is_skipped_witness :
  scorePattern RegExp_none md5Input (strlen md5Input) (getCharset md5Input)
               (shannonEntropy md5Input) brokenRegexPattern
  = scorePattern RegExp_none md5Input (strlen md5Input) (getCharset md5Input)
                 (shannonEntropy md5Input) (withoutRegex brokenRegexPattern).
Proof.
  apply (failed_regex_is_skipped RegExp_none md5Input (strlen md5Input)
           (getCharset md5Input) (shannonEntropy md5Input) brokenRegexPattern
           "^[a-f0-9{32}$("%string eq_refl).
  discriminate.
Defined.

Section EvidenceOrder.

Variable RegExp_test : string -> jsstring -> option bool.

Lemma ordered_start : ordered 0 (Scoring.mk 0 []).
Proof. split; constructor. Qed.

Lemma ordered_weaken k k' s : ordered k s -> (k <= k')%nat -> ordered k' s.
Proof.
  intros [Hs Hf] Hk. split; [exact Hs|].
  eapply Forall_impl; [|exact Hf]. simpl. intros. lia.
Qed.

Lemma StronglySorted_snoc {A} (R : A -> A -> Prop) l x :
  StronglySorted R l -> Forall (fun y => R y x) l -> StronglySorted R (l ++ [x]).
Proof.
  induction 1 as [|y l Hs IH Hy]; intros Hf; simpl.
  - repeat constructor.
  - inversion Hf as [|? ? Hyx Hf']; subst. constructor; [apply IH, Hf'|].
    apply Forall_app. split; [exact Hy | repeat constructor; exact Hyx].
Qed.

Lemma ordered_add k w reason s :
  ordered (rank reason) s -> (1 <= rank reason <= k)%nat ->
  ordered k (add w reason s).
Proof.
  intros [Hs Hf] Hk. split; cbn [add Scoring.reasons].
  - apply StronglySorted_snoc; [exact Hs|].
    eapply Forall_impl; [|exact Hf]. simpl. intros. lia.
  - apply Forall_app. split.
    + eapply Forall_impl; [|exact Hf]. simpl. intros. lia.
    + repeat constructor; lia.
Qed.

Ltac ordered_step :=
  lazymatch goal with
  | |- ordered _ (add _ _ _) =>
      apply ordered_add; [cbn [rank]; ordered_step | cbn [rank]; lia]
  | |- ordered _ (match ?x with _ => _ end) => destruct x eqn:?; ordered_step
  | |- ordered _ (if ?x then _ else _) => destruct x eqn:?; ordered_step
  | |- ordered _ (fst (if ?x then _ else _)) => destruct x eqn:?; ordered_step
  | |- ordered _ (fst (match ?x with _ => _ end)) => destruct x eqn:?; ordered_step
  | |- ordered _ (fst (_, _)) => cbn [fst]; ordered_step
  | |- ordered _ _ => eapply ordered_weaken; [eassumption | lia]
  end.

Lemma regexStep_ordered input pattern s :
  ordered 0 s -> ordered 1 (regexStep RegExp_test input pattern s).
Proof. intros H. unfold regexStep. ordered_step. Qed.

Lemma prefixStep_ordered input pattern s :
  ordered 1 s -> ordered 2 (fst (prefixStep input pattern s)).
Proof. intros H. unfold prefixStep. ordered_step. Qed.

Lemma lengthStep_ordered inputLength pattern s :
  ordered 2 s -> ordered 3 (lengthStep inputLength pattern s).
Proof. intros H. unfold lengthStep. cbv zeta. ordered_step. Qed.

Lemma charsetStep_ordered input charset pattern s :
  ordered 3 s -> ordered 6 (charsetStep input charset pattern s).
Proof.
  intros H. unfold charsetStep.
  destruct (HashPattern.charset pattern) as [pc|]; [|ordered_step].
  destruct (truthyText pc); [|ordered_step].
  destruct (String.eqb pc charset);
    destruct (decodedCharsetIs (safeBase64Decode input) pc);
    destruct (decodedCharsetIs (safeHexDecode input) pc);
    cbv zeta beta iota; ordered_step.
Qed.

Lemma suffixStep_ordered input pattern s :
  ordered 6 s -> ordered 7 (suffixStep input pattern s).
Proof. intros H. unfold suffixStep. ordered_step. Qed.

Lemma entropyStep_ordered inputLength entropy s :
  ordered 7 s -> ordered 8 (entropyStep inputLength entropy s).
Proof. intros H. unfold entropyStep. ordered_step. Qed.

Lemma decodingStep_ordered input pattern s :
  ordered 8 s -> ordered 10 (decodingStep input pattern s).
Proof. intros H. unfold decodingStep. cbv zeta. ordered_step. Qed.

Lemma signatureStep_ordered pattern b s :
  ordered 10 s -> ordered 11 (signatureStep pattern b s).
Proof. intros H. unfold signatureStep. ordered_step. Qed.

Lemma scorePattern_ordered input inputLength charset entropy pattern :
  ordered 11 (scorePattern RegExp_test input inputLength charset entropy pattern).
Proof.
  unfold scorePattern.
  pose proof (prefixStep_ordered input pattern _
                (regexStep_ordered input pattern _ ordered_start)) as H2.
  destruct (prefixStep input pattern
              (regexStep RegExp_test input pattern (Scoring.mk 0 []))) as [s2 b].
  cbn [fst] in H2.
  apply signatureStep_ordered, decodingStep_ordered, entropyStep_ordered,
    suffixStep_ordered, charsetStep_ordered, lengthStep_ordered, H2.
Qed.

End EvidenceOrder.

(** X9. The evidence of a descriptor is listed in the order of the scoring
    steps: regex, prefix, length, charset match, decoded charset match,
    charset variation, suffix, entropy, decodable content, decoded content
    charset match, signature.  This holds for the scorer and for every
    result of [detectCandidates]; and every piece of evidence of a result
    is one the scorer can record (never a plain text). *)
Theorem evidence_in_step_order :
  forall (RegExp_test : string -> jsstring -> option bool)
         (input : jsstring) (inputLength : Z) (charset : string) (entropy : R)
         (pattern : HashPattern.t),
    StronglySorted (fun a b => (rank a <= rank b)%nat)
      (Scoring.reasons
         (scorePattern RegExp_test input inputLength charset entropy pattern)) /\
    (forall hashPatterns r,
        In r (detectCandidates RegExp_test hashPatterns input) ->
        StronglySorted (fun a b => (rank a <= rank b)%nat) (DetectionResult.reasons r) /\
        (forall reason, In reason (DetectionResult.reasons r) ->
                        (1 <= rank reason <= 11)%nat)).
Proof.
  intros RegExp_test input inputLength charset entropy pattern.
  split; [apply scorePattern_ordered|].
  intros hashPatterns r Hr.
  apply detectCandidates_In in Hr as ([patternId pattern'] & _ & Hr).
  apply candidate_inv in Hr. cbv zeta in Hr. cbn [fst snd] in Hr.
  destruct Hr as (_ & _ & _ & _ & Hreasons & _). rewrite Hreasons.
  destruct (scorePattern_ordered RegExp_test input (strlen input) (getCharset input)
              (shannonEntropy input) pattern') as [Hsorted Hmax].
  split; [exact Hsorted|].
  intros reason Hin. rewrite Forall_forall in Hmax. exact (Hmax _ Hin).
Qed.

(* ------------------------------------------------------------------ *)
(** * Further properties of the ranking *)
(* ------------------------------------------------------------------ *)

Section RankingMore.

Lemma insert_permutation {A} (compare : A -> A -> R) x l :
  Permutation (insert compare x l) (x :: l).
Proof.
  induction l as [|y l IH]; simpl; [reflexivity|].
  destruct (Rlt_dec 0 (compare x y)); [|reflexivity].
  rewrite IH. apply perm_swap.
Qed.

Lemma sort_permutation {A} (compare : A -> A -> R) l :
  Permutation (sort compare l) l.
Proof.
  induction l as [|x l IH]; simpl; [reflexivity|].
  rewrite insert_permutation, IH. reflexivity.
Qed.

Lemma StronglySorted_split {A} (R : A -> A -> Prop) l1 l2 :
  StronglySorted R (l1 ++ l2) -> forall a b, In a l1 -> In b l2 -> R a b.
Proof.
  induction l1 as [|x l1 IH]; simpl; intros Hs a b Ha Hb; [contradiction|].
  inversion Hs as [|? ? Hs' Hx]; subst. destruct Ha as [->|Ha].
  - rewrite Forall_forall in Hx. apply Hx. apply in_or_app. right. exact Hb.
  - apply (IH Hs' a b Ha Hb).
Qed.

Variable RegExp_test : string -> jsstring -> option bool.
Variable hashPatterns : list (string * HashPattern.t).

Lemma emitted_id input entry r :
  In r (emitted RegExp_test input entry) -> DetectionResult.id r = fst entry.
Proof.
  intros H. apply candidate_inv in H. cbv zeta in H. tauto.
Qed.

Lemma candidates_ids_NoDup input :
  NoDup (map fst hashPatterns) ->
  NoDup (map DetectionResult.id (candidates RegExp_test hashPatterns input)).
Proof.
  rewrite candidates_emitted.
  induction hashPatterns as [|entry l IH]; simpl; intros Hnd; [constructor|].
  inversion Hnd as [|? ? Hnot Hrest]; subst. rewrite map_app.
  pose proof (emitted_length RegExp_test input entry) as Hlen.
  destruct (emitted RegExp_test input entry) as [|r [|r' t]] eqn:E;
    [exact (IH Hrest) | | simpl in Hlen; lia].
  simpl. constructor; [|exact (IH Hrest)].
  intros Hin. apply in_map_iff in Hin as (r2 & Hid & Hin).
  apply in_flat_map in Hin as (entry2 & Hentry2 & Hr2).
  apply emitted_id in Hr2.
  assert (Hr : DetectionResult.id r = fst entry)
    by (apply (emitted_id input entry); rewrite E; left; reflexivity).
  apply Hnot. apply in_map_iff. exists entry2. split; [congruence | exact Hentry2].
Qed.

End RankingMore.

(** X10. When the identifiers of the catalog are pairwise distinct (as the
    keys of an object are), so are the identifiers of the results: no
    descriptor is listed twice.  Every result carries the identifier and the
    name of an entry of the catalog. *)
Theorem results_have_distinct_ids :
  forall (RegExp_test : string -> jsstring -> option bool)
         (hashPatterns : list (string * HashPattern.t)) (input : jsstring),
    NoDup (map fst hashPatterns) ->
    NoDup (map DetectionResult.id (detectCandidates RegExp_test hashPatterns input)) /\
    (forall r, In r (detectCandidates RegExp_test hashPatterns input) ->
               exists pattern,
                 In (DetectionResult.id r, pattern) hashPatterns /\
                 DetectionResult.name r = HashPattern.name pattern).
Proof.
  intros RegExp_test hashPatterns input Hnd. split.
  - rewrite detectCandidates_eq. destruct (truthy input); [|constructor].
    pose proof (candidates_ids_NoDup RegExp_test hashPatterns input Hnd) as Hc.
    set (sorted := sort _ _).
    assert (Hs : NoDup (map DetectionResult.id sorted)).
    { eapply Permutation_NoDup; [|exact Hc].
      apply Permutation_map, Permutation_sym, sort_permutation. }
    rewrite <- (firstn_skipn 3 sorted), map_app in Hs.
    apply NoDup_app_remove_r in Hs. exact Hs.
  - intros r Hr. apply detectCandidates_In in Hr as ([patternId pattern] & Hentry & Hr).
    apply candidate_inv in Hr. cbv zeta in Hr. cbn [fst snd] in Hr.
    destruct Hr as (_ & Hid & Hname & _). exists pattern. rewrite Hid. auto.
Qed.

Lemma results_have_distinct_ids_witness :
  NoDup (map DetectionResult.id (detectCandidates RegExp_none md5Catalog md5Input)).
Proof.
  apply (results_have_distinct_ids RegExp_none md5Catalog md5Input).
  repeat constructor. simpl. tauto.
Defined.

(** X11. On a non-empty input the results are the best candidates: the
    candidates left out (there are none unless three results are returned)
    score no higher than any result, and results and left-out candidates
    together are the candidates, each once.  With at most three candidates
    nothing is left out. *)
Theorem results_are_the_best :
  forall (RegExp_test : string -> jsstring -> option bool)
         (hashPatterns : list (string * HashPattern.t)) (input : jsstring),
    input <> [] ->
    exists leftOut,
      Permutation (detectCandidates RegExp_test hashPatterns input ++ leftOut)
                  (candidates RegExp_test hashPatterns input) /\
      (forall r c,
          In r (detectCandidates RegExp_test hashPatterns input) ->
          In c leftOut ->
          DetectionResult.score c <= DetectionResult.score r) /\
      (leftOut <> [] ->
       List.length (detectCandidates RegExp_test hashPatterns input) = 3%nat) /\
      ((List.length (candidates RegExp_test hashPatterns input) <= 3)%nat ->
       leftOut = []) /\
      List.length (detectCandidates RegExp_test hashPatterns input)
      = Nat.min 3 (List.length (candidates RegExp_test hashPatterns input)).
Proof.
  intros RegExp_test hashPatterns input Hne.
  rewrite detectCandidates_eq.
  replace (truthy input) with true by (destruct input; [congruence | reflexivity]).
  set (cands := candidates RegExp_test hashPatterns input).
  set (sorted := sort (fun a b => DetectionResult.score b - DetectionResult.score a) cands).
  assert (Hlen : List.length sorted = List.length cands)
    by apply (sort_length DetectionResult.score).
  exists (skipn 3 sorted). split; [|split; [|split; [|split]]].
  - rewrite firstn_skipn. apply sort_permutation.
  - intros r c Hr Hc.
    pose proof (sort_sorted DetectionResult.score cands) as Hs. fold sorted in Hs.
    rewrite <- (firstn_skipn 3 sorted) in Hs.
    exact (StronglySorted_split _ _ _ Hs r c Hr Hc).
  - intros Hleft. rewrite length_firstn.
    assert (3 < List.length sorted)%nat; [|lia].
    destruct (Nat.lt_ge_cases 3 (List.length sorted)) as [H|H]; [exact H|].
    exfalso. apply Hleft. apply skipn_all2. exact H.
  - intros H. apply skipn_all2. lia.
  - rewrite length_firstn. lia.
Qed.

Lemma results_are_the_best_witness :
  exists leftOut,
    Permutation (detectCandidates RegExp_none md5Catalog md5Input ++ leftOut)
                (candidates RegExp_none md5Catalog md5Input) /\
    (forall r c,
        In r (detectCandidates RegExp_none md5Catalog md5Input) ->
        In c leftOut ->
        DetectionResult.score c <= DetectionResult.score r) /\
    (leftOut <> [] ->
     List.length (detectCandidates RegExp_none md5Catalog md5Input) = 3%nat) /\
    ((List.length (candidates RegExp_none md5Catalog md5Input) <= 3)%nat ->
     leftOut = []) /\
    List.length (detectCandidates RegExp_none md5Catalog md5Input)
    = Nat.min 3 (List.length (candidates RegExp_none md5Catalog md5Input)).
Proof.
  apply (results_are_the_best RegExp_none md5Catalog md5Input). discriminate.
Defined.

(* ------------------------------------------------------------------ *)
(** * Further properties of the decoding probes *)
(* ------------------------------------------------------------------ *)

Section Chunks.

Lemma decodeChunks_printable width radix fuel str :
  Forall printable (decodeChunks width radix fuel str).
Proof.
  revert str. induction fuel as [|fuel IH]; intros str; [constructor|].
  cbn [decodeChunks]. destruct str as [|c t]; [constructor|].
  apply Forall_app. split; [|apply IH].
  destruct (List.length (firstn width (c :: t)) =? width)%nat; [|constructor].
  cbv zeta.
  destruct (N.leb_spec 32 (parseInt radix (firstn width (c :: t))));
    destruct (N.leb_spec (parseInt radix (firstn width (c :: t))) 126);
    cbn [andb]; repeat constructor; assumption.
Qed.

Lemma decodeChunks_length width radix fuel str :
  (width * List.length (decodeChunks width radix fuel str) <= List.length str)%nat.
Proof.
  revert str. induction fuel as [|fuel IH]; intros str; [simpl; lia|].
  cbn [decodeChunks]. destruct str as [|c t]; [simpl; lia|].
  rewrite length_app. specialize (IH (skipn width (c :: t))).
  rewrite length_skipn in IH. rewrite length_firstn.
  remember (List.length (c :: t)) as L.
  remember (List.length (decodeChunks width radix fuel (skipn width (c :: t)))) as x.
  destruct (Nat.eqb_spec (Nat.min width L) width) as [E|E].
  - apply Nat.min_l_iff in E. cbv zeta.
    destruct ((32 <=? _)%N && (_ <=? 126)%N); cbn [List.length];
      rewrite Nat.mul_add_distr_l; lia.
  - cbn [List.length]. rewrite Nat.mul_add_distr_l. lia.
Qed.

(** One whole piece at the head of the string. *)
Lemma decodeChunks_piece width radix fuel piece rest :
  piece <> [] -> List.length piece = width ->
  decodeChunks width radix (S fuel) (piece ++ rest)
  = (if ((32 <=? parseInt radix piece) && (parseInt radix piece <=? 126))%N
     then [parseInt radix piece] else [])
    ++ decodeChunks width radix fuel rest.
Proof.
  intros Hne Hlen. cbn [decodeChunks].
  destruct (piece ++ rest) as [|c t] eqn:E.
  - destruct piece; [congruence | discriminate].
  - rewrite <- E. rewrite <- Hlen, firstn_app, skipn_app, Nat.sub_diag.
    rewrite firstn_all, skipn_all. cbn [firstn skipn]. rewrite app_nil_r.
    rewrite Nat.eqb_refl. reflexivity.
Qed.

Lemma decodeChunks_roundtrip width radix (encode : N -> jsstring) chars fuel :
  (0 < width)%nat ->
  (forall c, printable c ->
             List.length (encode c) = width /\ parseInt radix (encode c) = c) ->
  Forall printable chars ->
  (List.length chars <= fuel)%nat ->
  decodeChunks width radix fuel (flat_map encode chars) = chars.
Proof.
  intros Hw Henc Hp. revert fuel.
  induction Hp as [|c t Hc Ht IH]; intros fuel Hfuel.
  - destruct fuel; reflexivity.
  - destruct fuel as [|fuel]; [simpl in Hfuel; lia|].
    cbn [flat_map]. destruct (Henc c Hc) as [Hlen Hval].
    rewrite decodeChunks_piece; [| |exact Hlen].
    2:{ destruct (encode c); [simpl in Hlen; lia | discriminate]. }
    rewrite Hval. destruct Hc as [Hlo Hhi].
    apply N.leb_le in Hlo, Hhi. rewrite Hlo, Hhi. cbn [andb app].
    rewrite IH by (simpl in Hfuel; lia). reflexivity.
Qed.

Lemma printable_range c : printable c -> In c (map N.of_nat (seq 32 95)).
Proof.
  intros [Hlo Hhi]. apply in_map_iff. exists (N.to_nat c).
  split; [apply N2Nat.id|]. apply in_seq. lia.
Qed.

Lemma toBinary8_spec c :
  printable c ->
  List.length (toBinary8 c) = 8%nat /\ parseInt 2 (toBinary8 c) = c /\
  forallb (inRange 48 49) (toBinary8 c) = true.
Proof.
  intros Hc. apply printable_range in Hc.
  assert (H : forallb (fun c => Nat.eqb (List.length (toBinary8 c)) 8 &&
                               N.eqb (parseInt 2 (toBinary8 c)) c &&
                               forallb (inRange 48 49) (toBinary8 c))
                      (map N.of_nat (seq 32 95)) = true)
    by (vm_compute; reflexivity).
  rewrite forallb_forall in H. specialize (H c Hc).
  apply andb_prop in H as [H H3]. apply andb_prop in H as [H1 H2].
  apply Nat.eqb_eq in H1. apply N.eqb_eq in H2. auto.
Qed.

Lemma toOctal3_spec c :
  printable c ->
  List.length (toOctal3 c) = 3%nat /\ parseInt 8 (toOctal3 c) = c /\
  forallb (inRange 48 55) (toOctal3 c) = true.
Proof.
  intros Hc. apply printable_range in Hc.
  assert (H : forallb (fun c => Nat.eqb (List.length (toOctal3 c)) 3 &&
                               N.eqb (parseInt 8 (toOctal3 c)) c &&
                               forallb (inRange 48 55) (toOctal3 c))
                      (map N.of_nat (seq 32 95)) = true)
    by (vm_compute; reflexivity).
  rewrite forallb_forall in H. specialize (H c Hc).
  apply andb_prop in H as [H H3]. apply andb_prop in H as [H1 H2].
  apply Nat.eqb_eq in H1. apply N.eqb_eq in H2. auto.
Qed.

Lemma flat_map_forallb {A B} (f : B -> bool) (g : A -> list B) l :
  (forall x, In x l -> forallb f (g x) = true) -> forallb f (flat_map g l) = true.
Proof.
  induction l as [|x l IH]; intros H; [reflexivity|].
  cbn [flat_map]. rewrite forallb_app.
  rewrite (H x (in_eq x l)).
  rewrite IH; [reflexivity|].
  intros y Hy. apply H. right. exact Hy.
Qed.

Lemma flat_map_length_const {A B} (g : A -> list B) n l :
  (forall x, In x l -> List.length (g x) = n) ->
  List.length (flat_map g l) = (n * List.length l)%nat.
Proof.
  induction l as [|x l IH]; intros H; [simpl; lia|].
  cbn [flat_map List.length]. rewrite length_app, (H x), IH.
  - lia.
  - intros y Hy. apply H. right. exact Hy.
  - left. reflexivity.
Qed.

End Chunks.

Section BinaryOctal.

Lemma chunk_probe width radix (digit : N -> bool) str :
  let probe :=
    if negb (truthy str && forallb digit str) then None
    else
      let result := decodeChunks width radix (List.length str) str in
      if truthy result then Some result else None in
  (forall r, probe = Some r ->
             r <> [] /\ Forall printable r /\
             (width * List.length r <= List.length str)%nat /\
             forallb digit str = true) /\
  ((exists c, In c str /\ digit c = false) -> probe = None) /\
  ((0 < width)%nat -> (List.length str < width)%nat -> probe = None).
Proof.
  cbv zeta. split; [|split].
  - intros r H. destruct (truthy str && forallb digit str) eqn:E; [|discriminate].
    cbn [negb] in H. apply andb_true_iff in E as [_ Ed].
    destruct (decodeChunks width radix (List.length str) str) as [|c t] eqn:Er;
      [discriminate|]. cbn [truthy] in H. injection H as <-.
    split; [discriminate|]. rewrite <- Er.
    split; [apply decodeChunks_printable|]. split; [apply decodeChunks_length | exact Ed].
  - intros (c & Hc & Hd).
    assert (E : forallb digit str = false).
    { destruct (forallb digit str) eqn:E; [|reflexivity].
      rewrite forallb_forall in E. rewrite (E c Hc) in Hd. discriminate. }
    rewrite E, andb_false_r. reflexivity.
  - intros Hw Hlen.
    destruct (negb (truthy str && forallb digit str)); [reflexivity|].
    pose proof (decodeChunks_length width radix (List.length str) str) as H.
    destruct (decodeChunks width radix (List.length str) str) as [|c t]; [reflexivity|].
    cbn [List.length] in H. exfalso.
    rewrite Nat.mul_succ_r in H. lia.
Qed.

End BinaryOctal.

(** X12. [decodeBinary] answers only for a non-empty string of 0s and 1s.
    What it returns is never empty, holds only printable characters (32 to
    126), and has at most one character per eight digits; a string with
    another character, or with fewer than eight digits, gives [null].  It
    inverts the eight-digit binary writing of printable text. *)
Theorem decodeBinary_spec :
  forall str : jsstring,
    (forall r, decodeBinary str = Some r ->
               r <> [] /\ Forall printable r /\
               (8 * List.length r <= List.length str)%nat /\
               forallb (inRange 48 49) str = true) /\
    ((exists c, In c str /\ c <> 48%N /\ c <> 49%N) -> decodeBinary str = None) /\
    ((List.length str < 8)%nat -> decodeBinary str = None) /\
    (forall chars, str = flat_map toBinary8 chars -> chars <> [] ->
                   Forall printable chars -> decodeBinary str = Some chars).
Proof.
  intros str.
  destruct (chunk_probe 8 2 (inRange 48 49) str) as (H1 & H2 & H3).
  split; [exact H1|]. split; [|split].
  - intros (c & Hc & H48 & H49). apply H2. exists c. split; [exact Hc|].
    unfold inRange. destruct (N.leb_spec 48 c), (N.leb_spec c 49);
      cbn [andb]; try reflexivity; lia.
  - apply H3. lia.
  - intros chars -> Hne Hp. unfold decodeBinary.
    assert (Hd : forallb (inRange 48 49) (flat_map toBinary8 chars) = true).
    { apply flat_map_forallb. intros c Hc. rewrite Forall_forall in Hp.
      apply (toBinary8_spec c (Hp c Hc)). }
    assert (Hl : List.length (flat_map toBinary8 chars) = (8 * List.length chars)%nat).
    { apply flat_map_length_const. intros c Hc. rewrite Forall_forall in Hp.
      apply (toBinary8_spec c (Hp c Hc)). }
    assert (Ht : truthy (flat_map toBinary8 chars) = true).
    { destruct chars as [|c t]; [congruence|].
      destruct (flat_map toBinary8 (c :: t)); [simpl in Hl; lia | reflexivity]. }
    rewrite Ht, Hd. cbn [andb negb]. cbv zeta.
    rewrite (decodeChunks_roundtrip 8 2 toBinary8 chars); try lia; try assumption.
    + destruct chars; [congruence | reflexivity].
    + intros c Hc. split; apply (toBinary8_spec c Hc).
Qed.

Lemma decodeBinary_spec_witness :
  decodeBinary (flat_map toBinary8 (js "Hello")) = Some (js "Hello").
Proof.
  refine (proj2 (proj2 (proj2 (decodeBinary_spec (flat_map toBinary8 (js "Hello")))))
                (js "Hello") eq_refl _ _).
  - discriminate.
  - repeat constructor; vm_compute; discriminate.
Defined.

(** X13. [decodeOctal] answers only for a non-empty string of octal digits.
    What it returns is never empty, holds only printable characters (32 to
    126), and has at most one character per three digits; a string with
    another character, or with fewer than three digits, gives [null].  It
    inverts the three-digit octal writing of printable text. *)
Theorem decodeOctal_spec :
  forall str : jsstring,
    (forall r, decodeOctal str = Some r ->
               r <> [] /\ Forall printable r /\
               (3 * List.length r <= List.length str)%nat /\
               forallb (inRange 48 55) str = true) /\
    ((exists c, In c str /\ ~ (48 <= c <= 55)%N) -> decodeOctal str = None) /\
    ((List.length str < 3)%nat -> decodeOctal str = None) /\
    (forall chars, str = flat_map toOctal3 chars -> chars <> [] ->
                   Forall printable chars -> decodeOctal str = Some chars).
Proof.
  intros str.
  destruct (chunk_probe 3 8 (inRange 48 55) str) as (H1 & H2 & H3).
  split; [exact H1|]. split; [|split].
  - intros (c & Hc & Hn). apply H2. exists c. split; [exact Hc|].
    unfold inRange. destruct (N.leb_spec 48 c), (N.leb_spec c 55);
      cbn [andb]; try reflexivity; lia.
  - apply H3. lia.
  - intros chars -> Hne Hp. unfold decodeOctal.
    assert (Hd : forallb (inRange 48 55) (flat_map toOctal3 chars) = true).
    { apply flat_map_forallb. intros c Hc. rewrite Forall_forall in Hp.
      apply (toOctal3_spec c (Hp c Hc)). }
    assert (Hl : List.length (flat_map toOctal3 chars) = (3 * List.length chars)%nat).
    { apply flat_map_length_const. intros c Hc. rewrite Forall_forall in Hp.
      apply (toOctal3_spec c (Hp c Hc)). }
    assert (Ht : truthy (flat_map toOctal3 chars) = true).
    { destruct chars as [|c t]; [congruence|].
      destruct (flat_map toOctal3 (c :: t)); [simpl in Hl; lia | reflexivity]. }
    rewrite Ht, Hd. cbn [andb negb]. cbv zeta.
    rewrite (decodeChunks_roundtrip 3 8 toOctal3 chars); try lia; try assumption.
    + destruct chars; [congruence | reflexivity].
    + intros c Hc. split; apply (toOctal3_spec c Hc).
Qed.

Lemma decodeOctal_spec_witness :
  decodeOctal (flat_map toOctal3 (js "Hello")) = Some (js "Hello").
Proof.
  refine (proj2 (proj2 (proj2 (decodeOctal_spec (flat_map toOctal3 (js "Hello")))))
                (js "Hello") eq_refl _ _).
  - discriminate.
  - repeat constructor; vm_compute; discriminate.
Defined.

Section UnicodeEscapes.

Lemma replaceUnicodeEscapes_cons c t :
  replaceUnicodeEscapes (c :: t)
  = match t with
    | u :: h1 :: h2 :: h3 :: h4 :: rest =>
        if ((c =? 92) && (u =? 117) && forallb isHexChar [h1; h2; h3; h4])%N
        then (parseInt 16 [h1; h2; h3; h4] :: fst (replaceUnicodeEscapes rest), true)
        else (c :: fst (replaceUnicodeEscapes t), snd (replaceUnicodeEscapes t))
    | _ => (c :: fst (replaceUnicodeEscapes t), snd (replaceUnicodeEscapes t))
    end.
Proof.
  cbn [replaceUnicodeEscapes].
  destruct t as [|u [|h1 [|h2 [|h3 [|h4 rest]]]]];
    try (destruct (replaceUnicodeEscapes _); reflexivity).
  destruct ((c =? 92) && (u =? 117) && forallb isHexChar [h1; h2; h3; h4])%N;
    [reflexivity|].
  destruct (replaceUnicodeEscapes _); reflexivity.
Qed.

Lemma replaceUnicodeEscapes_escape h1 h2 h3 h4 rest :
  forallb isHexChar [h1; h2; h3; h4] = true ->
  replaceUnicodeEscapes (unicodeEscape h1 h2 h3 h4 ++ rest)
  = (parseInt 16 [h1; h2; h3; h4] :: fst (replaceUnicodeEscapes rest), true).
Proof.
  intros H. unfold unicodeEscape. cbn [app].
  rewrite replaceUnicodeEscapes_cons, H. reflexivity.
Qed.

(** Found exactly when there is an escape; and the result is shorter by five
    code units at least when one is found. *)
Lemma replaceUnicodeEscapes_spec n str :
  (List.length str <= n)%nat ->
  (snd (replaceUnicodeEscapes str) = true <-> hasUnicodeEscape str) /\
  (List.length (fst (replaceUnicodeEscapes str)) <= List.length str)%nat /\
  (snd (replaceUnicodeEscapes str) = true ->
   (List.length (fst (replaceUnicodeEscapes str)) + 5 <= List.length str)%nat) /\
  (snd (replaceUnicodeEscapes str) = false -> fst (replaceUnicodeEscapes str) = str).
Proof.
  revert str. induction n as [|n IH]; intros str Hn.
  - destruct str; [|simpl in Hn; lia]. cbn.
    repeat split; try lia; try discriminate.
    intros (b & h1 & h2 & h3 & h4 & a & H & _). destruct b; discriminate.
  - destruct str as [|c t].
    { cbn. repeat split; try lia; try discriminate.
      intros (b & h1 & h2 & h3 & h4 & a & H & _). destruct b; discriminate. }
    cbn [List.length] in Hn.
    destruct (IH t ltac:(lia)) as (Ht1 & Ht2 & Ht3 & Ht4).
    assert (Hkeep :
      (forall h1 h2 h3 h4 a, forallb isHexChar [h1; h2; h3; h4] = true ->
                             c :: t <> unicodeEscape h1 h2 h3 h4 ++ a) ->
      replaceUnicodeEscapes (c :: t)
      = (c :: fst (replaceUnicodeEscapes t), snd (replaceUnicodeEscapes t)) ->
      (snd (replaceUnicodeEscapes (c :: t)) = true <-> hasUnicodeEscape (c :: t)) /\
      (List.length (fst (replaceUnicodeEscapes (c :: t))) <= List.length (c :: t))%nat /\
      (snd (replaceUnicodeEscapes (c :: t)) = true ->
       (List.length (fst (replaceUnicodeEscapes (c :: t))) + 5
        <= List.length (c :: t))%nat) /\
      (snd (replaceUnicodeEscapes (c :: t)) = false ->
       fst (replaceUnicodeEscapes (c :: t)) = c :: t)).
    { intros Hno E. rewrite E. cbn [fst snd List.length].
      split; [|split; [lia|split; [intros H; specialize (Ht3 H); lia|]]].
      - rewrite Ht1. split.
        + intros (b & h1 & h2 & h3 & h4 & a & -> & Hh).
          exists (c :: b), h1, h2, h3, h4, a. auto.
        + intros (b & h1 & h2 & h3 & h4 & a & H & Hh). destruct b as [|c' b].
          * exfalso. exact (Hno h1 h2 h3 h4 a Hh H).
          * injection H as -> ->. exists b, h1, h2, h3, h4, a. auto.
      - intros H. rewrite (Ht4 H). reflexivity. }
    rewrite replaceUnicodeEscapes_cons in Hkeep |- *.
    destruct t as [|u [|h1 [|h2 [|h3 [|h4 rest]]]]];
      try (apply Hkeep; [intros ? ? ? ? ? _ H; discriminate H | reflexivity]).
    destruct ((c =? 92) && (u =? 117) && forallb isHexChar [h1; h2; h3; h4])%N eqn:E.
    + apply andb_true_iff in E as [E Eh]. apply andb_true_iff in E as [Ec Eu].
      apply N.eqb_eq in Ec, Eu. subst c u. cbn [fst snd List.length].
      destruct (IH rest ltac:(simpl in Hn; lia)) as (_ & Hr2 & _ & _).
      split; [|split; [lia|split; [intros _; lia | discriminate]]].
      split; [|reflexivity]. intros _.
      exists [], h1, h2, h3, h4, rest. split; [reflexivity | exact Eh].
    + apply Hkeep; [|reflexivity].
      intros k1 k2 k3 k4 a Hh H. unfold unicodeEscape in H.
      injection H as -> -> -> -> -> -> _.
      rewrite !N.eqb_refl, Hh in E. discriminate.
Qed.

Lemma replaceUnicodeEscapes_plain before rest :
  ~ In 92%N before ->
  replaceUnicodeEscapes (before ++ rest)
  = (before ++ fst (replaceUnicodeEscapes rest), snd (replaceUnicodeEscapes rest)).
Proof.
  induction before as [|c t IH]; intros Hno.
  - cbn [app]. destruct (replaceUnicodeEscapes rest); reflexivity.
  - cbn [app]. rewrite replaceUnicodeEscapes_cons.
    assert (Hc : (c =? 92)%N = false) by (apply N.eqb_neq; intros ->; apply Hno; left; reflexivity).
    rewrite Hc. cbn [andb]. rewrite IH by (intros H; apply Hno; right; exact H).
    cbn [fst snd]. destruct (t ++ rest) as [|u [|h1 [|h2 [|h3 [|h4 r]]]]]; reflexivity.
Qed.

End UnicodeEscapes.

(** X14. [decodeUnicode] answers exactly for the strings that hold an escape
    [\uXXXX] with four hexadecimal digits.  Its answer is shorter than the
    input by five code units at least.  An escape standing alone between two
    pieces of text without a backslash is replaced by the code unit it
    names, the text being kept. *)
Theorem decodeUnicode_spec :
  forall str : jsstring,
    (decodeUnicode str <> None <-> hasUnicodeEscape str) /\
    (forall r, decodeUnicode str = Some r ->
               (List.length r + 5 <= List.length str)%nat) /\
    (forall before h1 h2 h3 h4 after,
        str = before ++ unicodeEscape h1 h2 h3 h4 ++ after ->
        forallb isHexChar [h1; h2; h3; h4] = true ->
        ~ In 92%N before -> ~ In 92%N after ->
        decodeUnicode str = Some (before ++ [parseInt 16 [h1; h2; h3; h4]] ++ after)).
Proof.
  intros str.
  destruct (replaceUnicodeEscapes_spec (List.length str) str (le_n _))
    as (H1 & _ & H3 & _).
  unfold decodeUnicode.
  destruct (replaceUnicodeEscapes str) as [result found] eqn:E. cbn [fst snd] in *.
  split; [|split].
  - rewrite <- H1. destruct found; cbn [negb]; split; intros H;
      try congruence; discriminate.
  - intros r H. destruct found; cbn [negb] in H; [|discriminate].
    injection H as <-. apply H3. reflexivity.
  - intros before h1 h2 h3 h4 after -> Hh Hb Ha.
    rewrite replaceUnicodeEscapes_plain, replaceUnicodeEscapes_escape in E
      by assumption.
    cbn [fst snd] in E.
    pose proof (replaceUnicodeEscapes_plain after [] Ha) as Hafter.
    rewrite app_nil_r in Hafter. cbn in Hafter. rewrite app_nil_r in Hafter.
    rewrite Hafter in E. cbn [fst] in E. injection E as <- <-. reflexivity.
Qed.

Lemma decodeUnicode_spec_witness :
  decodeUnicode (js "a" ++ unicodeEscape 48 48 52 49 ++ js "b") = Some (js "aAb").
Proof.
  apply (proj2 (proj2 (decodeUnicode_spec (js "a" ++ unicodeEscape 48 48 52 49 ++ js "b")))
           (js "a") 48%N 48%N 52%N 49%N (js "b")).
  - reflexivity.
  - reflexivity.
  - simpl. intuition discriminate.
  - simpl. intuition discriminate.
Defined.

(* ------------------------------------------------------------------ *)
(** * The analysis endpoint *)
(* ------------------------------------------------------------------ *)

Import Server.

Section Trim.

Lemma trimStart_split s :
  exists l, s = l ++ trimStart s /\ forallb isWhiteSpace l = true.
Proof.
  induction s as [|c t (l & Hl & Hw)].
  - exists []. split; reflexivity.
  - cbn [trimStart]. destruct (isWhiteSpace c) eqn:Hc.
    + exists (c :: l). cbn [forallb app]. rewrite Hc, Hw, <- Hl. split; reflexivity.
    + exists []. split; reflexivity.
Qed.

Lemma trimStart_head s c rest : trimStart s = c :: rest -> isWhiteSpace c = false.
Proof.
  induction s as [|d t IH]; [discriminate|].
  cbn [trimStart]. destruct (isWhiteSpace d) eqn:Hd; [exact IH|].
  intros H. injection H as <- _. exact Hd.
Qed.

Lemma trimEnd_split s :
  exists r, s = trimEnd s ++ r /\ forallb isWhiteSpace r = true.
Proof.
  unfold trimEnd. destruct (trimStart_split (rev s)) as (l & Hl & Hw).
  exists (rev l). split.
  - rewrite <- rev_app_distr, <- Hl, rev_involutive. reflexivity.
  - rewrite forallb_forall in *. intros x Hx. apply Hw, in_rev. exact Hx.
Qed.

Lemma trimEnd_last s c rest :
  trimEnd s = c :: rest -> isWhiteSpace (last rest c) = false.
Proof.
  unfold trimEnd. intros H.
  destruct (trimStart (rev s)) as [|d t] eqn:E.
  - discriminate.
  - apply trimStart_head in E. cbn [rev] in H.
    assert (Hl : last (c :: rest) c = d) by (rewrite <- H; apply last_last).
    destruct rest as [|e rest'].
    + cbn in Hl. cbn. rewrite Hl. exact E.
    + cbn [last] in Hl. cbn [last]. rewrite <- Hl in E. exact E.
Qed.

(** What [trim] leaves starts and ends with something that is not white
    space, and it is a piece of the string. *)
Lemma trim_ends s c rest :
  trim s = c :: rest ->
  isWhiteSpace c = false /\ isWhiteSpace (last rest c) = false.
Proof.
  unfold trim. intros H. split; [|exact (trimEnd_last _ _ _ H)].
  destruct (trimEnd_split (trimStart s)) as (r & Hr & _).
  rewrite H in Hr. cbn [app] in Hr. exact (trimStart_head _ _ _ Hr).
Qed.

Lemma trim_piece s :
  exists l r, s = l ++ trim s ++ r /\
              forallb isWhiteSpace l = true /\ forallb isWhiteSpace r = true.
Proof.
  destruct (trimStart_split s) as (l & Hl & Hwl).
  destruct (trimEnd_split (trimStart s)) as (r & Hr & Hwr).
  exists l, r. unfold trim. rewrite <- Hr, <- Hl. auto.
Qed.

End Trim.

Section EndpointFacts.

Variable RegExp_test : string -> jsstring -> option bool.
Variable decodeURIComponent : jsstring -> completion jsstring.
Variable hashPatterns : list (string * HashPattern.t).

Local Abbreviation analyse := (analyzeInput RegExp_test decodeURIComponent hashPatterns).
Local Abbreviation post := (postAnalyze RegExp_test decodeURIComponent hashPatterns).

(** The record [analyzeInput] returns, which it always does. *)
Lemma analyse_returns input :
  exists r, analyse input = Normal r /\ wellFormed input r.
Proof.
  destruct (input_cases input) as [-> | [[Hne Hlong] | Hv]].
  - eexists. split.
    + apply analyzeInput_caught, analyzeInput_try_empty.
    + apply fallback_wellFormed.
  - eexists. split.
    + apply analyzeInput_caught, analyzeInput_try_too_long; assumption.
    + apply fallback_wellFormed.
  - eexists. split.
    + apply analyzeInput_returned, analyzeInput_try_valid. exact Hv.
    + eapply valid_wellFormed; [exact Hv | apply analyzeInput_try_valid; exact Hv].
Qed.

(** A non-empty input is never answered with the empty-input error. *)
Lemma analyse_not_invalid input r :
  input <> [] -> analyse input = Normal r ->
  AnalysisResult.results r
  <> [errorResult (Error "Invalid input: must be a non-empty string")].
Proof.
  intros Hne Hr.
  destruct (input_cases input) as [-> | [[_ Hlong] | Hv]]; [congruence| |].
  - rewrite (analyzeInput_caught _ _ _ _
               (analyzeInput_try_too_long _ _ _ Hne Hlong)) in Hr.
    injection Hr as <-. cbn. intros H. discriminate H.
  - rewrite (analyzeInput_returned _ _ _ _ (analyzeInput_try_valid _ _ _ Hv)) in Hr.
    injection Hr as <-. cbn [AnalysisResult.results].
    destruct (detectCandidates RegExp_test hashPatterns input) as [|d l] eqn:E.
    + intros H. discriminate H.
    + intros H. injection H as Hd _.
      assert (Hin : In d (detectCandidates RegExp_test hashPatterns input))
        by (rewrite E; left; reflexivity).
      apply detectCandidates_In in Hin as (entry & _ & Hin).
      apply emitted_score_bounds in Hin. rewrite Hd in Hin. cbn in Hin. lra.
Qed.

Lemma keeps_string s : keeps (JString s) = Normal (truthy (trim s)).
Proof. reflexivity. Qed.

(** The batch: the items kept, and their records. *)
Lemma batch_run items :
  exists kept results,
    filterM keeps items = Normal kept /\
    mapM (analyzeItem RegExp_test decodeURIComponent hashPatterns) kept
    = Normal results /\
    Forall2 (fun s r => analyse s = Normal r /\ wellFormed s r)
            (batchInputs items) results.
Proof.
  induction items as [|item items (kept & results & Hk & Hm & Hf)].
  - exists [], []. repeat split. constructor.
  - assert (Hskip : keeps item = Normal false ->
                    batchInputs (item :: items) = batchInputs items ->
                    exists kept results,
                      filterM keeps (item :: items) = Normal kept /\
                      mapM (analyzeItem RegExp_test decodeURIComponent hashPatterns) kept
                      = Normal results /\
                      Forall2 (fun s r => analyse s = Normal r /\ wellFormed s r)
                              (batchInputs (item :: items)) results).
    { intros Hitem Hb. exists kept, results. cbn [filterM]. rewrite Hitem, Hb.
      cbn [bind]. rewrite Hk. cbn [bind]. auto. }
    destruct item as [| |b|x|s|l|o]; try (apply Hskip; reflexivity).
    destruct (truthy (trim s)) eqn:Ht.
    + destruct (analyse_returns (trim s)) as (r & Hr & Hw).
      exists (JString s :: kept), (r :: results).
      cbn [filterM]. rewrite keeps_string, Ht, Hk. cbn [bind]. split; [reflexivity|].
      cbn [mapM]. unfold analyzeItem at 1. cbn [trimOf bind]. rewrite Hr.
      cbn [bind]. rewrite Hm. cbn [bind]. split; [reflexivity|].
      unfold batchInputs. cbn [flat_map]. rewrite Ht. cbn [app].
      constructor; [split; assumption | exact Hf].
    + apply Hskip.
      * rewrite keeps_string, Ht. reflexivity.
      * unfold batchInputs. cbn [flat_map]. rewrite Ht. reflexivity.
Qed.

Lemma batchInputs_length items :
  (List.length (batchInputs items) <= List.length items)%nat.
Proof.
  induction items as [|item items IH]; [apply Nat.le_refl|].
  unfold batchInputs in *. cbn [flat_map]. rewrite length_app. cbn [List.length].
  destruct item as [| |b|x|s|l|o]; cbn [List.length]; try lia.
  destruct (truthy (trim s)); cbn [List.length]; lia.
Qed.

Lemma batchInputs_nil items :
  (forall item, In item items -> ~ nonBlank item) -> batchInputs items = [].
Proof.
  induction items as [|item items IH]; intros H; [reflexivity|].
  unfold batchInputs in *. cbn [flat_map]. rewrite IH.
  - destruct item as [| |b|x|s|l|o]; try reflexivity.
    destruct (trim s) as [|c t] eqn:Ht; [reflexivity|].
    exfalso. apply (H (JString s)); [left; reflexivity|].
    exists s. split; [reflexivity|]. rewrite Ht. discriminate.
  - intros it Hit. apply H. right. exact Hit.
Qed.

(** The answer to an object, by its two fields. *)
Lemma post_single fields input :
  lookup "input" fields = JString input -> trim input <> [] ->
  exists result,
    post (JObject fields) = Normal (Response.mk 200 (Success (Single result))) /\
    analyse (trim input) = Normal result /\ wellFormed (trim input) result.
Proof.
  intros Hin Ht. destruct (analyse_returns (trim input)) as (r & Hr & Hw).
  exists r. split; [|split; assumption].
  unfold postAnalyze, postAnalyze_try. cbn [toBoolean typeof negb orb getProperty bind].
  rewrite Hin.
  assert (Hne : truthy input = true).
  { destruct input as [|c t]; [|reflexivity]. exfalso. apply Ht. reflexivity. }
  cbn [toBoolean isDefined typeof trimOf]. rewrite Hne. cbn [negb andb bind].
  assert (Htr : truthy (trim input) = true).
  { destruct (trim input); [congruence | reflexivity]. }
  cbn. rewrite Htr. cbn [negb]. unfold analyzeItem. cbn [trimOf bind].
  rewrite Hr. reflexivity.
Qed.

Lemma post_batch fields items :
  lookup "input" fields = JUndefined -> lookup "inputs" fields = JArray items ->
  items <> [] ->
  exists results,
    post (JObject fields) = Normal (Response.mk 200 (Success (Multiple results))) /\
    Forall2 (fun s r => analyse s = Normal r /\ wellFormed s r)
            (batchInputs items) results.
Proof.
  intros Hin Hins Hne. destruct (batch_run items) as (kept & results & Hk & Hm & Hf).
  exists results. split; [|exact Hf].
  unfold postAnalyze, postAnalyze_try. cbn [toBoolean typeof negb orb getProperty bind].
  rewrite Hin, Hins. cbn [toBoolean isDefined negb andb].
  destruct items as [|item items]; [congruence|]. cbn [List.length Nat.eqb].
  rewrite Hk. cbn [bind]. rewrite Hm. reflexivity.
Qed.

(** Every other object is answered with status 400 and one of five texts. *)
Lemma post_rejected fields :
  ~ accepted (JObject fields) ->
  exists error,
    post (JObject fields) = Normal (Response.mk 400 (Failure error)) /\
    error <> InvalidRequest /\ error <> InternalServerError /\
    error <> InvalidRequestBody.
Proof.
  intros Hna.
  assert (Hsingle : forall s, lookup "input" fields = JString s -> trim s = []).
  { intros s Hs. destruct (trim s) as [|c t] eqn:Ht; [reflexivity|].
    exfalso. apply Hna. exists fields. split; [reflexivity|]. left.
    exists s. split; [exact Hs|]. rewrite Ht. discriminate. }
  assert (Hbatch : forall items, lookup "input" fields = JUndefined ->
                                 lookup "inputs" fields = JArray items -> items = []).
  { intros items Hu Hi. destruct items as [|item items]; [reflexivity|].
    exfalso. apply Hna. exists fields. split; [reflexivity|]. right.
    split; [exact Hu|]. exists (item :: items). split; [exact Hi | discriminate]. }
  unfold postAnalyze, postAnalyze_try. cbn [toBoolean typeof negb orb getProperty bind].
  destruct (lookup "input" fields) as [| |b|x|s|l|o] eqn:Hin.
  - (* input undefined *)
    cbn [toBoolean isDefined negb andb].
    destruct (lookup "inputs" fields) as [| |b'|x'|s'|l'|o'] eqn:Hins;
      cbn [toBoolean isDefined negb andb].
    + exists MissingParameters. repeat split; discriminate.
    + exists MissingParameters. repeat split; discriminate.
    + destruct b'; cbn [negb];
        [exists InputsNotArray | exists MissingParameters]; repeat split; discriminate.
    + destruct (PrimFloat.eqb x' PrimFloat.zero || PrimFloat.is_nan x'); cbn [negb];
        [exists MissingParameters | exists InputsNotArray]; repeat split; discriminate.
    + destruct (truthy s'); cbn [negb];
        [exists InputsNotArray | exists MissingParameters]; repeat split; discriminate.
    + rewrite (Hbatch l' eq_refl eq_refl). cbn.
      exists InputsEmpty. repeat split; discriminate.
    + exists InputsNotArray. repeat split; discriminate.
  - (* input null *)
    cbn [toBoolean isDefined negb andb typeof].
    destruct (toBoolean (lookup "inputs" fields)); cbn;
      [exists InputNotString | exists MissingParameters]; repeat split; discriminate.
  - destruct b; cbn [toBoolean isDefined negb andb typeof];
      [|destruct (toBoolean (lookup "inputs" fields))]; cbn;
      [exists InputNotString | exists InputNotString | exists MissingParameters];
      repeat split; discriminate.
  - cbn [toBoolean isDefined typeof].
    destruct (negb (PrimFloat.eqb x PrimFloat.zero || PrimFloat.is_nan x));
      [|destruct (toBoolean (lookup "inputs" fields))]; cbn;
      [exists InputNotString | exists InputNotString | exists MissingParameters];
      repeat split; discriminate.
  - (* input a blank string *)
    cbn [toBoolean isDefined typeof trimOf bind]. rewrite (Hsingle s eq_refl).
    destruct (truthy s); [|destruct (toBoolean (lookup "inputs" fields))]; cbn;
      [exists InputEmpty | exists InputEmpty | exists MissingParameters];
      repeat split; discriminate.
  - cbn. exists InputNotString. repeat split; discriminate.
  - cbn. exists InputNotString. repeat split; discriminate.
Qed.

(** A body that is not an object with fields. *)
Lemma post_not_object body :
  (forall fields, body <> JObject fields) ->
  exists error,
    post body = Normal (Response.mk 400 (Failure error)) /\
    (error = InvalidRequestBody \/ error = MissingParameters).
Proof.
  intros Hb. unfold postAnalyze, postAnalyze_try.
  destruct body as [| |b|x|s|l|o].
  - exists InvalidRequestBody. split; [reflexivity | left; reflexivity].
  - exists InvalidRequestBody. split; [reflexivity | left; reflexivity].
  - exists InvalidRequestBody. split; [|left; reflexivity].
    cbn [typeof]. destruct (negb (toBoolean (JBoolean b))); reflexivity.
  - exists InvalidRequestBody. split; [|left; reflexivity].
    cbn [typeof]. destruct (negb (toBoolean (JNumber x))); reflexivity.
  - exists InvalidRequestBody. split; [|left; reflexivity].
    cbn [typeof]. destruct (negb (toBoolean (JString s))); reflexivity.
  - exists MissingParameters. split; [reflexivity | right; reflexivity].
  - exfalso. apply (Hb o). reflexivity.
Qed.

Lemma accepted_cases fields :
  accepted (JObject fields) ->
  (exists input, lookup "input" fields = JString input /\ trim input <> []) \/
  (lookup "input" fields = JUndefined /\
   exists items, lookup "inputs" fields = JArray items /\ items <> []).
Proof.
  intros (fields' & Hf & H). injection Hf as <-.
  destruct H as [(s & Hs & Ht) | H]; [left; eauto | right; exact H].
Qed.

Lemma accepted_dec fields : accepted (JObject fields) \/ ~ accepted (JObject fields).
Proof.
  destruct (lookup "input" fields) as [| |b|x|s|l|o] eqn:Hin.
  - destruct (lookup "inputs" fields) as [| |b'|x'|s'|l'|o'] eqn:Hins;
      try (right; intros Ha; apply accepted_cases in Ha as [(i & Hi & _) | (_ & its & Hi & _)];
           congruence).
    destruct l' as [|item l'].
    + right. intros Ha.
      apply accepted_cases in Ha as [(i & Hi & _) | (_ & its & Hi & Hne)]; congruence.
    + left. exists fields. split; [reflexivity|]. right. split; [exact Hin|].
      exists (item :: l'). split; [exact Hins | discriminate].
  - right. intros Ha.
    apply accepted_cases in Ha as [(i & Hi & _) | (Hu & _)]; congruence.
  - right. intros Ha.
    apply accepted_cases in Ha as [(i & Hi & _) | (Hu & _)]; congruence.
  - right. intros Ha.
    apply accepted_cases in Ha as [(i & Hi & _) | (Hu & _)]; congruence.
  - destruct (trim s) as [|c t] eqn:Ht.
    + right. intros Ha.
      apply accepted_cases in Ha as [(i & Hi & Hne) | (Hu & _)]; congruence.
    + left. exists fields. split; [reflexivity|]. left. exists s.
      split; [exact Hin|]. rewrite Ht. discriminate.
  - right. intros Ha.
    apply accepted_cases in Ha as [(i & Hi & _) | (Hu & _)]; congruence.
  - right. intros Ha.
    apply accepted_cases in Ha as [(i & Hi & _) | (Hu & _)]; congruence.
Qed.

End EndpointFacts.

(** X15. The endpoint always answers, with status 200 or 400 and never
    with 500: nothing the handler calls throws on any body.  It answers 200
    exactly for an object whose [input] is a string that is not blank, or
    whose [input] is undefined and whose [inputs] is an array that is not
    empty; a rejected body gets one of the texts of the validation, and the
    closing text of the handler (Invalid request) is never sent. *)
Theorem endpoint_status :
  forall (RegExp_test : string -> jsstring -> option bool)
         (decodeURIComponent : jsstring -> completion jsstring)
         (hashPatterns : list (string * HashPattern.t)) (body : JsValue),
  exists response,
    postAnalyze RegExp_test decodeURIComponent hashPatterns body = Normal response /\
    (Response.status response = 200 \/ Response.status response = 400)%Z /\
    (Response.status response = 200%Z <-> accepted body) /\
    (Response.status response = 200%Z <->
     exists data, Response.body response = Success data) /\
    Response.body response <> Failure InvalidRequest /\
    Response.body response <> Failure InternalServerError.
Proof.
  intros RegExp_test decodeURIComponent hashPatterns body.
  assert (Hrej : forall error,
             ~ accepted body ->
             error <> InvalidRequest -> error <> InternalServerError ->
             let response := Response.mk 400 (Failure error) in
             (Response.status response = 200 \/ Response.status response = 400)%Z /\
             (Response.status response = 200%Z <-> accepted body) /\
             (Response.status response = 200%Z <->
              exists data, Response.body response = Success data) /\
             Response.body response <> Failure InvalidRequest /\
             Response.body response <> Failure InternalServerError).
  { intros error Hna H1 H2 response. cbn.
    split; [right; reflexivity|].
    split; [split; [intros H; discriminate H | intros Ha; contradiction]|].
    split; [split; [intros H; discriminate H | intros (data & Hd); discriminate Hd]|].
    split; intros H; injection H as H; [exact (H1 H) | exact (H2 H)]. }
  assert (Hacc : forall data,
             accepted body ->
             let response := Response.mk 200 (Success data) in
             (Response.status response = 200 \/ Response.status response = 400)%Z /\
             (Response.status response = 200%Z <-> accepted body) /\
             (Response.status response = 200%Z <->
              exists data, Response.body response = Success data) /\
             Response.body response <> Failure InvalidRequest /\
             Response.body response <> Failure InternalServerError).
  { intros data Ha response. cbn.
    split; [left; reflexivity|].
    split; [split; [intros _; exact Ha | intros _; reflexivity]|].
    split; [split; [intros _; exists data; reflexivity | intros _; reflexivity]|].
    split; intros H; discriminate H. }
  assert (Hobj : (exists fields, body = JObject fields)
                 \/ forall fields, body <> JObject fields).
  { destruct body; try (right; intros fields; discriminate). left. eauto. }
  destruct Hobj as [(fields & ->) | Hno].
  - destruct (accepted_dec fields) as [Ha | Hna].
    + destruct (accepted_cases fields Ha) as [(input & Hin & Ht) | (Hu & items & Hi & Hne)].
      * destruct (post_single RegExp_test decodeURIComponent hashPatterns fields input Hin Ht)
          as (result & Hp & _).
        eexists. split; [exact Hp|]. apply Hacc. exact Ha.
      * destruct (post_batch RegExp_test decodeURIComponent hashPatterns fields items Hu Hi Hne)
          as (results & Hp & _).
        eexists. split; [exact Hp|]. apply Hacc. exact Ha.
    + destruct (post_rejected RegExp_test decodeURIComponent hashPatterns fields Hna)
        as (error & Hp & H1 & H2 & _).
      eexists. split; [exact Hp|]. apply Hrej; assumption.
  - destruct (post_not_object RegExp_test decodeURIComponent hashPatterns body Hno)
      as (error & Hp & He).
    eexists. split; [exact Hp|]. apply Hrej.
    + intros (fields & Hb & _). exact (Hno fields Hb).
    + destruct He as [-> | ->]; discriminate.
    + destruct He as [-> | ->]; discriminate.
Qed.

(** X16. A string under [input] that is not blank is analysed whatever
    [inputs] holds: the answer is the record of the trimmed string.  The
    string analysed is not empty and has no white space at either end, so
    the record is never the one of the empty-input error. *)
Theorem single_input_is_analysed :
  forall (RegExp_test : string -> jsstring -> option bool)
         (decodeURIComponent : jsstring -> completion jsstring)
         (hashPatterns : list (string * HashPattern.t))
         (fields : list (string * JsValue)) (input : jsstring),
    lookup "input" fields = JString input ->
    trim input <> [] ->
    exists result,
      postAnalyze RegExp_test decodeURIComponent hashPatterns (JObject fields)
      = Normal (Response.mk 200 (Success (Single result))) /\
      analyzeInput RegExp_test decodeURIComponent hashPatterns (trim input)
      = Normal result /\
      wellFormed (trim input) result /\
      AnalysisResult.results result
      <> [errorResult (Error "Invalid input: must be a non-empty string")] /\
      (exists before after,
          input = before ++ trim input ++ after /\
          forallb isWhiteSpace before = true /\ forallb isWhiteSpace after = true) /\
      (forall c rest, trim input = c :: rest ->
                      isWhiteSpace c = false /\ isWhiteSpace (last rest c) = false).
Proof.
  intros RegExp_test decodeURIComponent hashPatterns fields input Hin Ht.
  destruct (post_single RegExp_test decodeURIComponent hashPatterns fields input Hin Ht)
    as (result & Hp & Hr & Hw).
  exists result.
  split; [exact Hp|]. split; [exact Hr|]. split; [exact Hw|].
  split; [|split].
  - apply (analyse_not_invalid RegExp_test decodeURIComponent hashPatterns
             (trim input) result Ht Hr).
  - apply trim_piece.
  - apply trim_ends.
Qed.

Lemma single_input_is_analysed_witness :
  exists result,
    postAnalyze RegExp_none decodeURIComponent_plain md5Catalog
      (JObject [("inputs"%string, JArray []); ("input"%string, JString (js " abc  "))])
    = Normal (Response.mk 200 (Success (Single result))) /\
    AnalysisResult.input result = js "abc".
Proof.
  destruct (single_input_is_analysed RegExp_none decodeURIComponent_plain md5Catalog
              [("inputs"%string, JArray []); ("input"%string, JString (js " abc  "))]
              (js " abc  ") eq_refl)
    as (result & Hp & _ & Hw & _).
  - vm_compute. discriminate.
  - exists result. split; [exact Hp|]. destruct Hw as [Hw _]. exact Hw.
Defined.

(** X17. A batch is analysed when [input] is undefined and [inputs] is an
    array that is not empty.  The items that are not strings, or are blank,
    are dropped without a word; the others are trimmed and analysed in
    order, each on its own.  So there are at most as many records as items,
    and a batch with no usable item is answered with success and an empty
    array. *)
Theorem batch_is_filtered :
  forall (RegExp_test : string -> jsstring -> option bool)
         (decodeURIComponent : jsstring -> completion jsstring)
         (hashPatterns : list (string * HashPattern.t))
         (fields : list (string * JsValue)) (items : list JsValue),
    lookup "input" fields = JUndefined ->
    lookup "inputs" fields = JArray items ->
    items <> [] ->
    exists results,
      postAnalyze RegExp_test decodeURIComponent hashPatterns (JObject fields)
      = Normal (Response.mk 200 (Success (Multiple results))) /\
      Forall2 (fun s r =>
                 analyzeInput RegExp_test decodeURIComponent hashPatterns s = Normal r /\
                 wellFormed s r)
              (batchInputs items) results /\
      map AnalysisResult.input results = batchInputs items /\
      (List.length results <= List.length items)%nat /\
      ((forall item, In item items -> ~ nonBlank item) -> results = []).
Proof.
  intros RegExp_test decodeURIComponent hashPatterns fields items Hin Hins Hne.
  destruct (post_batch RegExp_test decodeURIComponent hashPatterns fields items Hin Hins Hne)
    as (results & Hp & Hf).
  exists results. split; [exact Hp|]. split; [exact Hf|].
  assert (Hlen : List.length results = List.length (batchInputs items)).
  { symmetry. exact (Forall2_length Hf). }
  split; [|split].
  - clear Hlen Hp. induction Hf as [|s r l l' [_ [Hi _]] _ IH]; [reflexivity|].
    cbn [map]. rewrite Hi, IH. reflexivity.
  - rewrite Hlen. apply batchInputs_length.
  - intros Hnone. rewrite (batchInputs_nil items Hnone) in Hlen.
    destruct results; [reflexivity | discriminate].
Qed.

Lemma batch_is_filtered_witness :
  postAnalyze RegExp_none decodeURIComponent_plain md5Catalog
    (JObject [("inputs"%string, JArray [JNull; JString (js "  ")])])
  = Normal (Response.mk 200 (Success (Multiple []))).
Proof.
  destruct (batch_is_filtered RegExp_none decodeURIComponent_plain md5Catalog
              [("inputs"%string, JArray [JNull; JString (js "  ")])]
              [JNull; JString (js "  ")] eq_refl eq_refl)
    as (results & Hp & _ & _ & _ & Hnone).
  - discriminate.
  - rewrite Hp, Hnone; [reflexivity|].
    intros item [<- | [<- | []]] (s & Hs & Ht); [discriminate|].
    injection Hs as <-. apply Ht. reflexivity.
Defined.

(* ------------------------------------------------------------------ *)
(** * Loading the catalog, and the statistics of the fallback record *)
(* ------------------------------------------------------------------ *)

Section EmptyCatalog.

Variable RegExp_test : string -> jsstring -> option bool.

Lemma detectCandidates_empty_catalog input :
  detectCandidates RegExp_test [] input = [].
Proof. rewrite detectCandidates_eq. destruct (truthy input); reflexivity. Qed.

End EmptyCatalog.

(** X18. [loadHashPatterns] never fails: the catalog is what was read, or
    the empty catalog when reading fails.  With the empty catalog (which
    is also what requests see before the load has settled) every valid
    input is still analysed: the single result is the sentinel ['unknown'],
    and the statistics are those of the input. *)
Theorem failed_load_gives_unknown :
  forall (RegExp_test : string -> jsstring -> option bool)
         (decodeURIComponent : jsstring -> completion jsstring)
         (error : Thrown) (input : jsstring),
    validInput input ->
    (forall data, loadHashPatterns (Normal data) = data) /\
    loadHashPatterns (Throw error) = [] /\
    exists r,
      analyzeInput RegExp_test decodeURIComponent (loadHashPatterns (Throw error)) input
      = Normal r /\
      AnalysisResult.input r = input /\
      AnalysisResult.results r = [unknownResult] /\
      AnalysisResult.stats r = getCharStats input.
Proof.
  intros RegExp_test decodeURIComponent error input Hv.
  split; [reflexivity|]. split; [reflexivity|].
  cbn [loadHashPatterns].
  eexists. split.
  - apply analyzeInput_returned, analyzeInput_try_valid. exact Hv.
  - rewrite detectCandidates_empty_catalog. repeat split.
Qed.

Lemma failed_load_gives_unknown_witness :
  exists r,
    analyzeInput RegExp_none decodeURIComponent_plain
                 (loadHashPatterns (Throw (Error "ENOENT"))) md5Input
    = Normal r /\
    AnalysisResult.results r = [unknownResult].
Proof.
  destruct (failed_load_gives_unknown RegExp_none decodeURIComponent_plain
              (Error "ENOENT") md5Input)
    as (_ & _ & r & Hr & _ & Hres & _).
  - split; [discriminate | vm_compute; discriminate].
  - exists r. split; [exact Hr | exact Hres].
Defined.

(** X19. The statistics of the fallback record are computed a second time
    in the [catch] block of [analyzeInput]: they agree with [getCharStats]
    on every count, for every input, and differ from it in the entropy
    only, which is set to 0. *)
Theorem fallback_statistics :
  forall (input : jsstring) (error : Thrown),
    let stats := AnalysisResult.stats (fallback input error) in
    CharStats.total stats = CharStats.total (getCharStats input) /\
    CharStats.unique stats = CharStats.unique (getCharStats input) /\
    CharStats.digits stats = CharStats.digits (getCharStats input) /\
    CharStats.letters stats = CharStats.letters (getCharStats input) /\
    CharStats.special stats = CharStats.special (getCharStats input) /\
    CharStats.entropy stats = 0 /\
    (CharStats.digits stats + CharStats.letters stats + CharStats.special stats
     = CharStats.total stats)%Z.
Proof.
  intros input error stats.
  assert (Heq : CharStats.total stats = CharStats.total (getCharStats input) /\
                CharStats.unique stats = CharStats.unique (getCharStats input) /\
                CharStats.digits stats = CharStats.digits (getCharStats input) /\
                CharStats.letters stats = CharStats.letters (getCharStats input) /\
                CharStats.special stats = CharStats.special (getCharStats input)).
  { destruct input as [|c t]; repeat split. }
  destruct Heq as (H1 & H2 & H3 & H4 & H5).
  repeat split; try assumption.
  apply class_partition.
Qed.

(* ------------------------------------------------------------------ *)
(** * The hexadecimal and base64 probes *)
(* ------------------------------------------------------------------ *)

Section Buffers.


(** *** The UTF-8 decoder *)







(** *** Hexadecimal *)









(** *** Base64 *)














End Buffers.





Section DecodableContent.

Variable RegExp_test : string -> jsstring -> option bool.








End DecodableContent.


(* ------------------------------------------------------------------ *)
(** * The HTML probe *)
(* ------------------------------------------------------------------ *)

Section Html.

Lemma startsWith_length p : forall s,
  startsWith s p = true -> (List.length p <= List.length s)%nat.
Proof.
  induction p as [|c p IH]; intros s H; [cbn [List.length]; lia|].
  destruct s as [|d s]; [discriminate|].
  cbn [startsWith] in H. apply andb_prop in H as [_ H].
  apply IH in H. cbn [List.length]. lia.
Qed.

Lemma jsstring_eqb_eq a b : jsstring_eqb a b = true <-> a = b.
Proof.
  unfold jsstring_eqb. destruct (list_eq_dec N.eq_dec a b); split;
    intros H; try reflexivity; try assumption; try discriminate; contradiction.
Qed.

(** One pass of [replace] for an entity leaves the string as it is or makes
    it shorter by three characters at least, without emptying it. *)
Lemma replaceAll_shrinks entity char :
  (1 <= List.length char)%nat ->
  (List.length char + 3 <= List.length entity)%nat ->
  forall str skip,
    (List.length (replaceAll entity char skip str) + Nat.min skip (List.length str)
     <= List.length str)%nat /\
    (skip = 0%nat ->
     replaceAll entity char 0 str = str \/
     (1 <= List.length (replaceAll entity char 0 str))%nat /\
     (List.length (replaceAll entity char 0 str) + 3 <= List.length str)%nat).
Proof.
  intros Hc He. induction str as [|c t IH]; intros skip.
  - cbn [replaceAll List.length]. split; [lia | auto].
  - destruct skip as [|n].
    + cbn [replaceAll].
      destruct (truthy entity && startsWith (c :: t) entity) eqn:M.
      * apply andb_prop in M as [_ M]. apply startsWith_length in M.
        destruct (IH (List.length entity - 1)%nat) as [H1 _].
        rewrite length_app. cbn [List.length] in *.
        split; [lia | intros _; right; lia].
      * destruct (IH 0%nat) as [H1 H2]. cbn [List.length] in *.
        split; [lia|]. intros _.
        destruct (H2 eq_refl) as [-> | Hs]; [left; reflexivity | right; lia].
    + cbn [replaceAll]. destruct (IH n) as [H1 _]. cbn [List.length].
      split; [lia | discriminate].
Qed.

Lemma replaceNumericEntities_shrinks str :
  forall skip,
    (List.length (replaceNumericEntities skip str) + Nat.min skip (List.length str)
     <= List.length str)%nat /\
    (skip = 0%nat ->
     replaceNumericEntities 0 str = str \/
     (1 <= List.length (replaceNumericEntities 0 str))%nat /\
     (List.length (replaceNumericEntities 0 str) + 3 <= List.length str)%nat).
Proof.
  induction str as [|c t IH]; intros skip.
  - cbn [replaceNumericEntities List.length]. split; [lia | auto].
  - destruct skip as [|n].
    + assert (Hkeep :
          (List.length (c :: replaceNumericEntities 0 t) + Nat.min 0 (List.length (c :: t))
           <= List.length (c :: t))%nat /\
          (0%nat = 0%nat ->
           c :: replaceNumericEntities 0 t = c :: t \/
           (1 <= List.length (c :: replaceNumericEntities 0 t))%nat /\
           (List.length (c :: replaceNumericEntities 0 t) + 3
            <= List.length (c :: t))%nat)).
      { destruct (IH 0%nat) as [H1 H2]. cbn [List.length] in *.
        split; [lia|]. intros _.
        destruct (H2 eq_refl) as [-> | Hs]; [left; reflexivity | right; lia]. }
      cbn [replaceNumericEntities]. cbv zeta.
      destruct t as [|h rest]; [exact Hkeep|].
      destruct ((c =? 38)%N && (h =? 35)%N && truthy (leadingDigits rest)
                && startsWith (skipn (List.length (leadingDigits rest)) rest) [59%N])
        eqn:M; [|exact Hkeep].
      destruct ((32 <=? parseInt 10 (leadingDigits rest))%N
                && (parseInt 10 (leadingDigits rest) <=? 126)%N); [|exact Hkeep].
      apply andb_prop in M as [M Hsemi]. apply andb_prop in M as [_ Hnum].
      apply startsWith_length in Hsemi. rewrite length_skipn in Hsemi.
      assert (Hd : (1 <= List.length (leadingDigits rest))%nat).
      { destruct (leadingDigits rest); [discriminate | cbn [List.length]; lia]. }
      destruct (IH (List.length (leadingDigits rest) + 2)%nat) as [H1 _].
      cbn [List.length] in *. split; [lia | intros _; right; lia].
    + cbn [replaceNumericEntities]. destruct (IH n) as [H1 _]. cbn [List.length].
      split; [lia | discriminate].
Qed.

Lemma entities_shrink entities :
  Forall (fun ec : jsstring * jsstring =>
            (1 <= List.length (snd ec))%nat /\
            (List.length (snd ec) + 3 <= List.length (fst ec))%nat) entities ->
  forall str,
    fold_left (fun result ec => replaceAll (fst ec) (snd ec) 0 result) entities str = str \/
    (1 <= List.length
            (fold_left (fun result ec => replaceAll (fst ec) (snd ec) 0 result)
                       entities str))%nat /\
    (List.length
       (fold_left (fun result ec => replaceAll (fst ec) (snd ec) 0 result) entities str)
     + 3 <= List.length str)%nat.
Proof.
  induction 1 as [|ec entities [Hc Hec] _ IH]; intros str; [left; reflexivity|].
  cbn [fold_left].
  destruct (replaceAll_shrinks (fst ec) (snd ec) Hc Hec str 0) as [_ Hstep].
  destruct (Hstep eq_refl) as [-> | Hs]; [apply IH|].
  right. destruct (IH (replaceAll (fst ec) (snd ec) 0 str)) as [-> | Hs']; lia.
Qed.

Lemma htmlEntities_shorter :
  Forall (fun ec : jsstring * jsstring =>
            (1 <= List.length (snd ec))%nat /\
            (List.length (snd ec) + 3 <= List.length (fst ec))%nat) htmlEntities.
Proof. unfold htmlEntities. repeat constructor. Qed.

Lemma htmlEntities_ampersand :
  Forall (fun ec : jsstring * jsstring => exists e, fst ec = 38%N :: e) htmlEntities.
Proof. unfold htmlEntities. repeat constructor; eexists; reflexivity. Qed.

(** Without [&] nothing is replaced. *)
Lemma replaceAll_plain entity char str :
  (exists e, entity = 38%N :: e) -> ~ In 38%N str ->
  replaceAll entity char 0 str = str.
Proof.
  intros [e ->]. induction str as [|c t IH]; intros Hno; [reflexivity|].
  cbn [replaceAll truthy startsWith andb].
  destruct (N.eqb_spec 38 c) as [<- | _].
  - exfalso. apply Hno. left. reflexivity.
  - cbn [andb]. rewrite IH; [reflexivity|]. intros H. apply Hno. right. exact H.
Qed.

Lemma replaceNumericEntities_plain str :
  ~ In 38%N str -> replaceNumericEntities 0 str = str.
Proof.
  induction str as [|c t IH]; intros Hno; [reflexivity|].
  assert (Ht : replaceNumericEntities 0 t = t).
  { apply IH. intros H. apply Hno. right. exact H. }
  cbn [replaceNumericEntities]. cbv zeta. rewrite Ht.
  destruct t as [|h rest]; [reflexivity|].
  destruct (N.eqb_spec c 38) as [-> | _].
  - exfalso. apply Hno. left. reflexivity.
  - reflexivity.
Qed.

Lemma entities_plain entities str :
  Forall (fun ec : jsstring * jsstring => exists e, fst ec = 38%N :: e) entities ->
  ~ In 38%N str ->
  fold_left (fun result ec => replaceAll (fst ec) (snd ec) 0 result) entities str = str.
Proof.
  intros H Hno. induction H as [|ec entities Hec _ IH]; [reflexivity|].
  cbn [fold_left]. rewrite (replaceAll_plain _ _ _ Hec Hno). exact IH.
Qed.

End Html.

(** X23. [decodeHTML] answers only when a replacement took place: without
    [&] in the string it answers [null], and what it answers is never the
    input, nor empty, but a string shorter by three characters at least,
    every entity being longer than the character that replaces it.  A
    string of fewer than four characters is never decoded. *)
Theorem decodeHTML_spec :
  forall str : jsstring,
    (~ In 38%N str -> decodeHTML str = None) /\
    (forall r, decodeHTML str = Some r ->
               r <> str /\ r <> [] /\ (List.length r + 3 <= List.length str)%nat) /\
    ((List.length str < 4)%nat -> decodeHTML str = None).
Proof.
  intros str.
  assert (Hshrink : forall r, decodeHTML str = Some r ->
                              r <> str /\ (1 <= List.length r)%nat /\
                              (List.length r + 3 <= List.length str)%nat).
  { intros r. unfold decodeHTML. cbv zeta.
    remember (fold_left (fun result ec => replaceAll (fst ec) (snd ec) 0 result)
                        htmlEntities str) as pass1 eqn:Hp.
    destruct (jsstring_eqb (replaceNumericEntities 0 pass1) str) eqn:E;
      cbn [negb]; [discriminate|].
    intros H. injection H as <-.
    assert (Hne : replaceNumericEntities 0 pass1 <> str).
    { intros Heq. apply jsstring_eqb_eq in Heq. congruence. }
    split; [exact Hne|].
    destruct (entities_shrink htmlEntities htmlEntities_shorter str) as [H1 | H1];
      rewrite <- Hp in H1;
      destruct (replaceNumericEntities_shrinks pass1 0) as [_ H2];
      destruct (H2 eq_refl) as [H3 | H3].
    - exfalso. apply Hne. rewrite H3. exact H1.
    - assert (Hl : List.length pass1 = List.length str) by (rewrite H1; reflexivity).
      lia.
    - rewrite H3. exact H1.
    - lia. }
  split; [|split].
  - intros Hno. unfold decodeHTML. cbv zeta.
    rewrite (entities_plain htmlEntities str htmlEntities_ampersand Hno),
      (replaceNumericEntities_plain str Hno).
    replace (jsstring_eqb str str) with true; [reflexivity|].
    symmetry. apply jsstring_eqb_eq. reflexivity.
  - intros r Hr. destruct (Hshrink r Hr) as (H1 & H2 & H3).
    split; [exact H1|]. split; [|exact H3].
    intros ->. cbn [List.length] in H2. lia.
  - intros Hshort. destruct (decodeHTML str) as [r|] eqn:E; [|reflexivity].
    destruct (Hshrink r eq_refl) as (_ & H2 & H3). lia.
Qed.
